(** * KEYGEN: the pool filter and the key generator of [keygen.py]

    A shallow embedding of [blacklistCharacters] and [keygen] and the
    properties of their specification.

    Python objects are values of [pyval]; a list is a reference into a heap
    of list objects, so that the slice assignments [numbers[:] = ...] of the
    pool filter are writes to the caller's own containers.  Console input
    and output and the pseudorandom generator are part of the [world] that
    every function threads through the state-and-exception monad [Py]. *)

From Stdlib Require Import ZArith QArith Qcanon String Ascii.
From stdpp Require Import base numbers strings gmap sets list.

Local Open Scope string_scope.
#[local] Set Warnings "-clear-no-such-hyp".

(** ** Python values *)

Definition loc := nat.

#[warnings="-register-all"]
Inductive pyval :=
| PyNone
| PyBool (b : bool)
| PyInt (z : Z)
| PyStr (s : string)
| PyTuple (items : list pyval)
| PyList (l : loc).

Inductive exn :=
| TypeError (msg : string)
| ValueError (msg : string)
| IndexError (msg : string)
| EOFError.

(** The random generator is a tape of draws: the head is the next draw. *)
Record world := World {
  heap : gmap loc (list pyval);
  stdin : list string;
  stdout : list string;
  rng : nat → nat
}.

(** ** The state-and-exception monad *)

Definition Py (A : Type) : Type := world → (exn + A) * world.

#[global] Instance Py_ret : MRet Py := λ A x w, (inr x, w).
#[global] Instance Py_bind : MBind Py := λ A B f m w,
  match m w with
  | (inl e, w') => (inl e, w')
  | (inr x, w') => f x w'
  end.

Definition raise {A} (e : exn) : Py A := λ w, (inl e, w).

Definition print (line : string) : Py unit := λ w,
  (inr tt, World (heap w) (stdin w) (stdout w ++ [line]) (rng w)).

(** The items of the list object at [l]. *)
Definition contents (l : loc) : Py (list pyval) := λ w,
  (inr (default [] (heap w !! l)), w).

(** [lst[:] = items]: the object at [l] keeps its identity and gets new
    items. *)
Definition slice_assign (l : loc) (items : list pyval) : Py unit := λ w,
  (inr tt, World (<[l := items]> (heap w)) (stdin w) (stdout w) (rng w)).

(** A new list object. *)
Definition new_list (items : list pyval) : Py loc := λ w,
  let l := fresh (dom (heap w)) in
  (inr l, World (<[l := items]> (heap w)) (stdin w) (stdout w) (rng w)).

(** ** Built-ins *)

Definition isinstance_bool (v : pyval) : bool :=
  match v with PyBool _ => true | _ => false end.

Definition isinstance_list (v : pyval) : bool :=
  match v with PyList _ => true | _ => false end.

(** [bool] is a subclass of [int]. *)
Definition isinstance_int (v : pyval) : bool :=
  match v with PyInt _ | PyBool _ => true | _ => false end.

Definition is_None (v : pyval) : bool :=
  match v with PyNone => true | _ => false end.

Definition truthy_bool (v : pyval) : bool :=
  match v with PyBool b => b | _ => false end.

(** The integer an [int] object stands for ([True] is 1, [False] is 0). *)
Definition int_value (v : pyval) : Z :=
  match v with PyInt z => z | PyBool b => Z.b2z b | _ => 0%Z end.

Definition type_name (v : pyval) : string :=
  match v with
  | PyNone => "NoneType"
  | PyBool _ => "bool"
  | PyInt _ => "int"
  | PyStr _ => "str"
  | PyTuple _ => "tuple"
  | PyList _ => "list"
  end.

(** The characters of a string, each a string of length one. *)
Fixpoint characters (s : string) : list string :=
  match s with
  | EmptyString => []
  | String c s' => String c EmptyString :: characters s'
  end.

(** [iter(v)]: the items a [for] sees; [None], integers and booleans are
    not iterable. *)
Definition iterate (v : pyval) : Py (list pyval) :=
  match v with
  | PyList l => contents l
  | PyTuple items => mret items
  | PyStr s => mret (PyStr <$> characters s)
  | _ => raise (TypeError ("'" ++ type_name v ++ "' object is not iterable"))
  end.

(** [isinstance(string, str) and len(string) == 1] *)
Definition single_character (v : pyval) : bool :=
  match v with
  | PyStr s => Nat.eqb (String.length s) 1
  | _ => false
  end.

(** The [str] items of a list; after validation these are all its items. *)
Definition strings_of (items : list pyval) : list string :=
  omap (λ v, match v with PyStr s => Some s | _ => None end) items.

(** [', '.join(f"'{name}'" for name in names)] *)
Definition quoted_names (names : list string) : string :=
  String.concat ", " (map (λ name, "'" ++ name ++ "'") names).

Definition newline : string := String (ascii_of_nat 10) EmptyString.
Definition tab : string := String (ascii_of_nat 9) EmptyString.

(** [for x in xs: acc = body(acc, x)] with exceptions. *)
Fixpoint for_each {A B} (body : A → B → Py A) (acc : A) (xs : list B) : Py A :=
  match xs with
  | [] => mret acc
  | x :: xs' => acc' ← body acc x; for_each body acc' xs'
  end.

(** [set(v)] for an iterable of strings. *)
Definition set_of (v : pyval) : Py (gset string) :=
  items ← iterate v; mret (list_to_set (strings_of items)).

(** [v[:] = items] *)
Definition assign_all (v : pyval) (items : list string) : Py unit :=
  match v with
  | PyList l => slice_assign l (PyStr <$> items)
  | _ => raise (TypeError ("'" ++ type_name v ++
                           "' object does not support item assignment"))
  end.

(** [random.choice(seq)]: [IndexError] on an empty sequence, otherwise the
    item at an index below [len(seq)] taken from the generator. *)
Class Choice (M : Type → Type) := choice : ∀ A, list A → M A.
Arguments choice {_ _ _} _.

#[global] Instance Py_choice : Choice Py := λ A seq w,
  match seq with
  | [] => (inl (IndexError "Cannot choose from an empty sequence"), w)
  | x :: _ =>
      (inr (nth (rng w 0 mod length seq) seq x),
       World (heap w) (stdin w) (stdout w) (λ k, rng w (S k)))
  end.

(** A second reading of [random.choice], for what the draws are worth:
    finite distributions, where each item of a sequence of [n] items has
    the weight [1 / n]. *)
Definition distribution (A : Type) : Type := list (A * Qc).

Definition one_in (n : nat) : Qc := (/ Q2Qc (inject_Z (Z.of_nat n)))%Qc.

#[global] Instance distribution_ret : MRet distribution :=
  λ A x, [(x, 1%Qc)].
#[global] Instance distribution_bind : MBind distribution := λ A B f m,
  flat_map (λ '(x, p), (λ '(y, q), (y, (p * q)%Qc)) <$> f x) m.
#[global] Instance distribution_choice : Choice distribution :=
  λ A seq, (λ x, (x, one_in (length seq))) <$> seq.

(** ** The program *)

Section Keygen.

(** [list(s)] for a set [s]: the order in which Python enumerates a set
    of strings is unspecified (it depends on the hash seed and on the
    history of the set), so it is a parameter; the first argument tells
    the conversions of one call apart. *)
Variable list_of_set : nat → gset string → list string.
Hypothesis list_of_set_perm : ∀ k s, list_of_set k s ≡ₚ elements s.

(** [int(s)] for a string: the integer written in [s], or [None] where
    Python raises [ValueError]. *)
Variable int_of_string : string → option Z.

(** *** blacklistCharacters *)

(** One round of the loop over [listArgumentNames.items()]. *)
Definition check_blacklist_argument (fails : list string * list string)
    (argument : string * pyval) : Py (list string * list string) :=
  let '(listFails, characterFails) := fails in
  let '(listArgumentName, listArgument) := argument in
  let listFails :=
    if negb (String.eqb listArgumentName "blacklist")
    then if negb (isinstance_list listArgument)
         then (listFails ++ [listArgumentName])%list else listFails
    else listFails in
  if negb (is_None listArgument) then
    items ← iterate listArgument;
    if negb (forallb single_character items)
    then mret (listFails, (characterFails ++ [listArgumentName])%list)
    else mret (listFails, characterFails)
  else mret (listFails, characterFails).

Definition list_type_message (listFails : list string) : string :=
  "Input argument(s): " ++ quoted_names listFails ++
  " have incorrect type(s). Must be 'list'.".

Definition character_length_message (characterFails : list string) : string :=
  "Input argument(s): " ++ quoted_names characterFails ++
  " contain strings greater than length 1. Must contain only single-character strings.".

(** Lines 49-78: the checks of the arguments. *)
Definition check_blacklist_arguments
    (numbers letters symbols blacklist printToConsole : pyval) : Py unit :=
  let listArgumentNames :=
    [("numbers", numbers); ("letters", letters); ("symbols", symbols);
     ("blacklist", blacklist)] in
  if negb (isinstance_bool printToConsole) then
    raise (TypeError "Input argument 'printToConsole' has incorrect type. Must be 'bool'.")
  else if negb (is_None blacklist) && negb (isinstance_list blacklist) then
    raise (TypeError "Input argument 'blacklist' has incorrect type. Must be 'list'.")
  else
  '(listFails, characterFails) ←
    for_each check_blacklist_argument ([], []) listArgumentNames;
  if negb (Nat.eqb (length listFails) 0) then
    raise (TypeError (list_type_message listFails))
  else if negb (Nat.eqb (length characterFails) 0) then
    raise (ValueError (character_length_message characterFails))
  else mret tt.

Definition blacklist_prompt : string :=
  "Enter all English ASCII letters, punctuation (bar whitespace), and/or digits prohibited from being in your password:" ++ newline.

(** The [while True] loop that asks for a blacklist.  Each round's
    [input(prompt)] prints the prompt and takes the next line, or raises
    [EOFError] when there is none; the loop goes on until some character
    of the pools stays usable.  It returns the characters of the last
    line, what is left of the input, and what was printed. *)
Fixpoint ask_blacklist (usable : gset string) (lines : list string)
    : (exn + list string) * list string * list string :=
  match lines with
  | [] => (inl EOFError, [], [blacklist_prompt])
  | line :: rest =>
      let blacklist := characters line in
      if Nat.eqb (size (usable ∖ list_to_set blacklist)) 0
      then
        let '(r, rest', out) := ask_blacklist usable rest in
        (r, rest',
         blacklist_prompt ::
         "You must allow at least one character to be used to generate a key."
         :: out)
      else (inr blacklist, rest, [blacklist_prompt])
  end.

(** Lines 80-90: the blacklist that the rest of the function works on;
    when it is asked for, it is a new list object (the lists built from
    the lines that the loop turns down are garbage and are left out). *)
Definition obtain_blacklist
    (numbers letters symbols blacklist printToConsole : pyval) : Py pyval :=
  if truthy_bool printToConsole && negb (isinstance_list blacklist) then
    numbersSet ← set_of numbers;
    lettersSet ← set_of letters;
    symbolsSet ← set_of symbols;
    blacklist ← (λ w,
      let '(r, rest, out) :=
        ask_blacklist (numbersSet ∪ lettersSet ∪ symbolsSet) (stdin w) in
      (r, World (heap w) rest (stdout w ++ out) (rng w)));
    l ← new_list (PyStr <$> blacklist);
    mret (PyList l)
  else if is_None blacklist then
    raise (TypeError "Input argument 'blacklist' cannot be None if the argument 'printToConsole' is False. Must be 'list' or 'printToConsole' must be True.")
  else mret blacklist.

Definition unused_message (blacklist : list string) : string :=
  "The characters:" ++ newline ++ tab ++ String.concat "" blacklist ++
  newline ++
  "...were not blacklisted because they were not going to be used anyway.".

(** Lines 92-118: the pools lose the blacklisted characters, and the
    blacklist keeps the characters that were in no pool. *)
Definition remove_blacklisted
    (numbers letters symbols blacklist printToConsole : pyval) : Py pyval :=
  numbersSet ← set_of numbers;
  lettersSet ← set_of letters;
  symbolsSet ← set_of symbols;
  blacklistSet ← set_of blacklist;
  let numbersSet := numbersSet ∖ blacklistSet in
  let lettersSet := lettersSet ∖ blacklistSet in
  let symbolsSet := symbolsSet ∖ blacklistSet in
  numbers0 ← set_of numbers;
  letters0 ← set_of letters;
  symbols0 ← set_of symbols;
  let blacklistSet := blacklistSet ∖ (numbers0 ∪ letters0 ∪ symbols0) in
  assign_all numbers (list_of_set 0 numbersSet);;
  assign_all letters (list_of_set 1 lettersSet);;
  assign_all symbols (list_of_set 2 symbolsSet);;
  assign_all blacklist (list_of_set 3 blacklistSet);;
  remaining ← iterate blacklist;
  (if Nat.ltb 0 (length remaining) && truthy_bool printToConsole then
     print (unused_message (strings_of remaining))
   else mret tt);;
  mret blacklist.

Definition blacklistCharacters
    (numbers letters symbols blacklist printToConsole : pyval) : Py pyval :=
  check_blacklist_arguments numbers letters symbols blacklist printToConsole;;
  blacklist ←
    obtain_blacklist numbers letters symbols blacklist printToConsole;
  remove_blacklisted numbers letters symbols blacklist printToConsole.

(** *** keygen *)

Definition check_keygen_argument (fails : list string * list string)
    (argument : string * pyval) : Py (list string * list string) :=
  let '(listFails, characterFails) := fails in
  let '(listArgumentName, listArgument) := argument in
  let listFails :=
    if negb (isinstance_list listArgument)
    then (listFails ++ [listArgumentName])%list else listFails in
  items ← iterate listArgument;
  if negb (forallb single_character items)
  then mret (listFails, (characterFails ++ [listArgumentName])%list)
  else mret (listFails, characterFails).

(** Lines 150-178: the checks of the arguments. *)
Definition check_keygen_arguments
    (numbers letters symbols keyLength printToConsole : pyval) : Py unit :=
  let listArgumentNames :=
    [("numbers", numbers); ("letters", letters); ("symbols", symbols)] in
  if negb (isinstance_bool printToConsole) then
    raise (TypeError "Input argument 'printToConsole' has incorrect type. Must be 'bool'.")
  else if negb (is_None keyLength) && negb (isinstance_int keyLength) then
    raise (TypeError "Input argument 'keyLength' has incorrect type. Must be 'int'.")
  else
  '(listFails, characterFails) ←
    for_each check_keygen_argument ([], []) listArgumentNames;
  if negb (Nat.eqb (length listFails) 0) then
    raise (TypeError (list_type_message listFails))
  else if negb (Nat.eqb (length characterFails) 0) then
    raise (ValueError (character_length_message characterFails))
  else mret tt.

Definition length_prompt : string :=
  "Enter the desired length of your password (integer > 0):" ++ newline.

Definition invalid_input : string :=
  "Invalid input. Please enter a positive integer.".

(** The [while True] loop that asks for a key length: it stops at once
    when [keyLength] is a positive integer, and otherwise reads one line
    per round until a line is a positive integer.  It returns the key
    length, what is left of the input, and what was printed. *)
Fixpoint ask_keyLength (keyLength : pyval) (lines : list string)
    : (exn + pyval) * list string * list string :=
  if negb (is_None keyLength) && (0 <? int_value keyLength)%Z then
    (inr keyLength, lines, [])
  else
    match lines with
    | [] => (inl EOFError, [], [length_prompt])
    | line :: rest =>
        match int_of_string line with
        | Some z =>
            if (0 <? z)%Z then (inr (PyInt z), rest, [length_prompt])
            else
              let '(r, rest', out) := ask_keyLength (PyInt z) rest in
              (r, rest', length_prompt :: invalid_input :: out)
        | None =>
            let '(r, rest', out) := ask_keyLength keyLength rest in
            (r, rest', length_prompt :: invalid_input :: out)
        end
    end.

Definition missing_keyLength_message : string :=
  "Input argument 'keyLength' cannot be None if the argument 'printToConsole' is False. Must be 'int' or 'printToConsole' must be True.".

Definition keyLength_message : string :=
  "Input argument 'keyLength' cannot be an integer less than 1 if the argument 'printToConsole' is False. Must be an integer greater than 0 or 'printToConsole' must be True.".

(** Lines 180-198: the key length that the rest of the function uses. *)
Definition obtain_keyLength (keyLength printToConsole : pyval) : Py pyval :=
  if truthy_bool printToConsole then
    λ w,
      let '(r, rest, out) := ask_keyLength keyLength (stdin w) in
      (r, World (heap w) rest (stdout w ++ out) (rng w))
  else if is_None keyLength then
    raise (TypeError missing_keyLength_message)
  else if (int_value keyLength <=? 0)%Z then
    raise (ValueError keyLength_message)
  else mret keyLength.

(** [characterSets.remove(characterSet)]: the first item equal to
    [characterSet] goes; [ValueError] when there is none. *)
Fixpoint list_remove (characterSet : list string)
    (characterSets : list (list string)) : Py (list (list string)) :=
  match characterSets with
  | [] => raise (ValueError "list.remove(x): x not in list")
  | first :: others =>
      if decide (first = characterSet) then mret others
      else others' ← list_remove characterSet others; mret (first :: others')
  end.

(** [for characterSet in characterSets.copy(): ...] *)
Definition remove_empty_sets (characterSets : list (list string))
    : Py (list (list string)) :=
  for_each (λ characterSets characterSet,
              if Nat.eqb (length characterSet) 0
              then list_remove characterSet characterSets
              else mret characterSets)
           characterSets characterSets.

(** [for keyCharacter in range(keyLength):
       key.append(rng.choice(rng.choice(characterSets)))]
    for any reading of [rng.choice]. *)
Fixpoint generate `{MBind M, MRet M, Choice M} (keyLength : nat)
    (characterSets : list (list string)) (key : list string)
    : M (list string) :=
  match keyLength with
  | O => mret key
  | S keyLength' =>
      characterSet ← choice characterSets;
      character ← choice characterSet;
      generate keyLength' characterSets (key ++ [character])%list
  end.

Definition all_empty_message : string :=
  "All character sets are empty. At least one character set must contain characters.".

(** Lines 200-222: the key.  The pools have passed the checks, so their
    items are strings. *)
Definition generate_key
    (numbers letters symbols keyLength printToConsole : pyval)
    : Py (string * pyval) :=
  numbersItems ← iterate numbers;
  lettersItems ← iterate letters;
  symbolsItems ← iterate symbols;
  if Nat.eqb (length numbersItems) 0 && Nat.eqb (length lettersItems) 0
     && Nat.eqb (length symbolsItems) 0 then
    raise (ValueError all_empty_message)
  else
  let key := [] in
  characterSets ←
    remove_empty_sets
      [strings_of numbersItems; strings_of lettersItems;
       strings_of symbolsItems];
  key ← generate (Z.to_nat (int_value keyLength)) characterSets key;
  (if truthy_bool printToConsole then
     print ("Your password is:" ++ newline ++ String.concat "" key ++ newline)
   else mret tt);;
  mret (String.concat "" key, keyLength).

Definition keygen
    (numbers letters symbols keyLength printToConsole : pyval)
    : Py (string * pyval) :=
  check_keygen_arguments numbers letters symbols keyLength printToConsole;;
  keyLength ← obtain_keyLength keyLength printToConsole;
  generate_key numbers letters symbols keyLength printToConsole.

(** *** main *)

(** [string.digits], [string.ascii_letters] and [string.punctuation]. *)
Definition digits : string := "0123456789".

Definition ascii_letters : string :=
  "abcdefghijklmnopqrstuvwxyzABCDEFGHIJKLMNOPQRSTUVWXYZ".

Definition punctuation : string :=
  "!" ++ String (ascii_of_nat 34) "#$%&'()*+,-./:;<=>?@[\]^_`{|}~".

(** The thirteen lines that draw the welcome box, printed after the first
    [print("\n\n")]; their characters are outside the alphabet of
    [string], so the lines are a parameter. *)
Variable welcome_box : list string.

(** [input(prompt)] prints the prompt and takes the next line; at the end
    of the input it raises [EOFError]. *)
Definition input (prompt : string) : Py string := λ w,
  match stdin w with
  | [] => (inl EOFError, World (heap w) [] (stdout w ++ [prompt]) (rng w))
  | line :: rest =>
      (inr line, World (heap w) rest (stdout w ++ [prompt]) (rng w))
  end.

Definition print_all (lines : list string) : Py unit :=
  for_each (λ _ line, print line) tt lines.

(** [numbers = list(txt.digits)] and so on: three new lists. *)
Definition new_pools : Py (pyval * pyval * pyval) :=
  numbers ← new_list (PyStr <$> characters digits);
  letters ← new_list (PyStr <$> characters ascii_letters);
  symbols ← new_list (PyStr <$> characters punctuation);
  mret (PyList numbers, PyList letters, PyList symbols).

Definition options : list string :=
  [newline ++ "Options:";
   "1. Regenerate with the same settings";
   "2. Regenerate with the same blacklist but a new length";
   "3. Regenerate with the same length but a new blacklist";
   "4. Regenerate with completely new settings";
   "5. Exit"].

Definition spamton : list string :=
  [newline ++ newline ++ "HEY" ++ tab ++ "EVERY" ++ tab ++ "!! IT'S ME!!!";
   "EV3RY" ++ tab ++ "BUDDY" ++ tab ++
   "'S FAVORITE [[Number 1 Rated Salesman1997]]" ++ newline ++ newline].

(** The [while True] loop of [main], for at most [rounds] rounds: [true]
    when option 5 ends the loop, [false] when the rounds are used up.
    Every round reads a line, so more rounds than lines of input are
    never used up. *)
Fixpoint menu (rounds : nat) (numbers letters symbols : pyval)
    (key : string) (keyLength : pyval) : Py bool :=
  match rounds with
  | O => mret false
  | S rounds' =>
      (if String.eqb key "Spamton" then print_all spamton else mret tt);;
      print_all options;;
      option ← input "Enter your selection: ";
      if String.eqb option "1" then
        '(key, keyLength) ←
          keygen numbers letters symbols keyLength (PyBool true);
        menu rounds' numbers letters symbols key keyLength
      else if String.eqb option "2" then
        let keyLength := PyNone in
        '(key, keyLength) ←
          keygen numbers letters symbols keyLength (PyBool true);
        menu rounds' numbers letters symbols key keyLength
      else if String.eqb option "3" then
        '(numbers, letters, symbols) ← new_pools;
        blacklistCharacters numbers letters symbols PyNone (PyBool true);;
        '(key, keyLength) ←
          keygen numbers letters symbols keyLength (PyBool true);
        menu rounds' numbers letters symbols key keyLength
      else if String.eqb option "4" then
        let keyLength := PyNone in
        '(numbers, letters, symbols) ← new_pools;
        blacklistCharacters numbers letters symbols PyNone (PyBool true);;
        '(key, keyLength) ←
          keygen numbers letters symbols keyLength (PyBool true);
        menu rounds' numbers letters symbols key keyLength
      else if String.eqb option "5" then mret true
      else
        print "Invalid option. Please enter a valid option.";;
        menu rounds' numbers letters symbols key keyLength
  end.

(** The loop with more rounds than there are lines to read. *)
Definition menu_loop (numbers letters symbols : pyval) (key : string)
    (keyLength : pyval) : Py bool := λ w,
  menu (S (length (stdin w))) numbers letters symbols key keyLength w.

Definition main : Py bool :=
  '(numbers, letters, symbols) ← new_pools;
  print (newline ++ newline);;
  print_all welcome_box;;
  blacklistCharacters numbers letters symbols PyNone (PyBool true);;
  '(key, keyLength) ← keygen numbers letters symbols PyNone (PyBool true);
  menu_loop numbers letters symbols key keyLength.


(** *** What the properties talk about *)

(** The list object at [l] holds the single-character strings [chars]:
    a character pool, or a blacklist, that passes the checks. *)
Definition pool (w : world) (l : loc) (chars : list string) : Prop :=
  heap w !! l = Some (PyStr <$> chars) ∧
  Forall (λ c, String.length c = 1) chars.

(** The heap after the four slice assignments of [remove_blacklisted]. *)
Definition filtered_heap (h : gmap loc (list pyval)) (ln ll ls lb : loc)
    (N L S B : list string) : gmap loc (list pyval) :=
  let U : gset string := list_to_set N ∪ list_to_set L ∪ list_to_set S in
  <[lb := PyStr <$> list_of_set 3 (list_to_set B ∖ U)]>
    (<[ls := PyStr <$> list_of_set 2 (list_to_set S ∖ list_to_set B)]>
       (<[ll := PyStr <$> list_of_set 1 (list_to_set L ∖ list_to_set B)]>
          (<[ln := PyStr <$> list_of_set 0 (list_to_set N ∖ list_to_set B)]>
             h))).

(** In the heap [h'] the list object at [l] holds, once each, the
    characters of [chars] that are not in [blacklist]. *)
Definition survivors (h' : gmap loc (list pyval)) (l : loc)
    (chars blacklist : list string) : Prop :=
  ∃ items, h' !! l = Some (PyStr <$> items) ∧ NoDup items ∧
           ∀ c, c ∈ items ↔ c ∈ chars ∧ c ∉ blacklist.

(** What [for item in v] goes through, for a [v] that can be iterated. *)
Definition iterable (v : pyval) : bool :=
  match v with PyList _ | PyTuple _ | PyStr _ => true | _ => false end.

Definition items_of (w : world) (v : pyval) : list pyval :=
  match v with
  | PyList l => default [] (heap w !! l)
  | PyTuple items => items
  | PyStr s => PyStr <$> characters s
  | _ => []
  end.

(** The names of the arguments that are not lists. *)
Definition wrong_type (arguments : list (string * pyval)) : list string :=
  (filter (λ argument, negb (isinstance_list argument.2)) arguments).*1.

(** The names of the arguments with an item that is not a string of
    length one. *)
Definition wrong_characters (w : world) (arguments : list (string * pyval))
    : list string :=
  (filter (λ argument,
             negb (forallb single_character (items_of w argument.2)))
          arguments).*1.

(** The names of the arguments that break either rule. *)
Definition offending (w : world) (arguments : list (string * pyval))
    : list string :=
  (filter (λ argument,
             negb (isinstance_list argument.2) ||
             negb (forallb single_character (items_of w argument.2)))
          arguments).*1.

(** [name in msg] *)
Fixpoint mentions (msg name : string) : bool :=
  String.prefix name msg ||
  match msg with
  | EmptyString => false
  | String _ msg' => mentions msg' name
  end.

(** The pools that [keygen] draws from: the non-empty ones, in the order
    numbers, letters, symbols. *)
Definition non_empty (characterSets : list (list string))
    : list (list string) :=
  filter (λ characterSet, length characterSet ≠ 0) characterSets.

(** The character at position [i] of the key, for the draws [tape]: draw
    number [2 * i] picks the pool among [characterSets] and draw number
    [2 * i + 1] picks the character in that pool. *)
Definition drawn (tape : nat → nat) (characterSets : list (list string))
    (i : nat) : string :=
  let characterSet :=
    nth (tape (2 * i) mod length characterSets) characterSets [] in
  nth (tape (2 * i + 1) mod length characterSet) characterSet "".

(** A run of [m] keeps the part [part] of the world: whatever the run
    gives, a result or an exception, that part is as it was. *)
Definition keeps {A B} (part : world → B) (m : Py A) : Prop :=
  ∀ w r w', m w = (r, w') → part w' = part w.


(** A line that the loop for the key length turns down: not an integer,
    or an integer that is not positive. *)
Definition turned_down (line : string) : Prop :=
  match int_of_string line with
  | Some z => (z ≤ 0)%Z
  | None => True
  end.

(** What the loop for the key length prints for [n] lines that it turns
    down. *)
Fixpoint asked_again (n : nat) : list string :=
  match n with
  | O => []
  | S n' => length_prompt :: invalid_input :: asked_again n'
  end.

(** What [keygen] prints for a key. *)
Definition password_message (key : string) : string :=
  "Your password is:" ++ newline ++ key ++ newline.


(** A line that the loop for the blacklist turns down: it names every
    character of the three pools. *)
Definition names_every_character (N L S : list string) (line : string)
    : Prop :=
  ∀ c, c ∈ N ∨ c ∈ L ∨ c ∈ S → c ∈ characters line.

(** What the loop for the blacklist prints for [n] lines that it turns
    down. *)
Fixpoint told_again (n : nat) : list string :=
  match n with
  | O => []
  | S n' =>
      blacklist_prompt ::
      "You must allow at least one character to be used to generate a key."
      :: told_again n'
  end.


(** The message of the interpreter for a [for] over [v]. *)
Definition not_iterable_message (v : pyval) : string :=
  "'" ++ type_name v ++ "' object is not iterable".


(** The three pools are lists of single characters, and not all empty:
    what [keygen] needs to draw a key. *)
Definition ready (w : world) (numbers letters symbols : pyval) : Prop :=
  ∃ ln ll ls N L S,
    numbers = PyList ln ∧ letters = PyList ll ∧ symbols = PyList ls ∧
    pool w ln N ∧ pool w ll L ∧ pool w ls S ∧
    ¬ (N = [] ∧ L = [] ∧ S = []).


(** The two ways for [main] to end: option 5 was chosen, or the input
    ended and every line of it has been read. *)
Definition ends_well (r : exn + bool) (w' : world) : Prop :=
  r = inr true ∨ (r = inl EOFError ∧ stdin w' = []).


(** The number of empty lists among [characterSets], and [characterSets]
    without its first [n] empty lists. *)
Fixpoint count_empty (characterSets : list (list string)) : nat :=
  match characterSets with
  | [] => 0
  | [] :: others => S (count_empty others)
  | _ :: others => count_empty others
  end.

Fixpoint drop_empty (n : nat) (characterSets : list (list string))
    : list (list string) :=
  match characterSets with
  | [] => []
  | first :: others =>
      match first, n with
      | [], S n' => drop_empty n' others
      | _, _ => first :: drop_empty n others
      end
  end.


(** *** Concrete inputs *)

(** One way to enumerate a set: in the order of [elements]. *)
Definition elements_order (k : nat) (s : gset string) : list string :=
  elements s.

(** No line is an integer. *)
Definition no_integer (line : string) : option Z := None.

Definition make_heap (numbers letters symbols blacklist : list string)
    : gmap loc (list pyval) :=
  <[3 := PyStr <$> blacklist]>
    (<[2 := PyStr <$> symbols]>
       (<[1 := PyStr <$> letters]> (<[0 := PyStr <$> numbers]> ∅))).

(** numbers = ['0','1'], letters = ['a','b'], symbols = ['!'] and
    blacklist = ['0','a','9'] at the list objects 0 to 3; nothing to
    read, and the random draws 0, 1, 2, ... *)
Definition sample_world : world :=
  World (make_heap ["0"; "1"] ["a"; "b"] ["!"] ["0"; "a"; "9"]) [] [] (λ k, k).

(** numbers = ('a',), a tuple, letters = ['ab'], no symbols, and an
    empty blacklist. *)
Definition mixed_world : world :=
  World (make_heap [] ["ab"] [] []) [] [] (λ k, k).

(** Three empty pools and an empty blacklist. *)
Definition empty_world : world :=
  World (make_heap [] [] [] []) [] [] (λ k, k).

(** numbers = ['0','1'], no letters, no symbols, blacklist = ['9']. *)
Definition digits_world : world :=
  World (make_heap ["0"; "1"] [] [] ["9"]) [] [] (λ k, k).

(** The lines "3" and "0" are integers, no other line is. *)
Definition read_digit (line : string) : option Z :=
  if String.eqb line "3" then Some 3%Z
  else if String.eqb line "0" then Some 0%Z
  else None.

(** The pools and the blacklist of [sample_world], with lines to read. *)
Definition console_world (lines : list string) : world :=
  World (heap sample_world) lines [] (λ k, k).

(** numbers = ['0','1'], letters = ['a'], no symbols, and a blacklist that
    names them all. *)
Definition covered_world : world :=
  World (make_heap ["0"; "1"] ["a"] [] ["a"; "1"; "0"; "z"]) [] [] (λ k, k).


(** ** Properties *)

(** *** The monad and the built-ins *)

Lemma bind_ok {A B} (m : Py A) (f : A → Py B) w x w' :
  m w = (inr x, w') → (m ≫= f) w = f x w'.
Proof. intros Hm. unfold mbind, Py_bind. by rewrite Hm. Qed.

Lemma bind_raise {A B} (m : Py A) (f : A → Py B) w e w' :
  m w = (inl e, w') → (m ≫= f) w = (inl e, w').
Proof. intros Hm. unfold mbind, Py_bind. by rewrite Hm. Qed.

Lemma strings_of_fmap (chars : list string) :
  strings_of (PyStr <$> chars) = chars.
Proof.
  unfold strings_of. induction chars as [|c chars IH]; [done|].
  cbn. by f_equal.
Qed.

Lemma forallb_single_character (chars : list string) :
  Forall (λ c, String.length c = 1) chars →
  forallb single_character (PyStr <$> chars) = true.
Proof.
  induction 1 as [|c chars Hc _ IH]; [done|].
  cbn. rewrite Hc. exact IH.
Qed.

Lemma iterate_pool w l chars :
  pool w l chars → iterate (PyList l) w = (inr (PyStr <$> chars), w).
Proof. intros [Hl _]. cbn. unfold contents. by rewrite Hl. Qed.

Lemma set_of_pool w l chars :
  pool w l chars → set_of (PyList l) w = (inr (list_to_set chars), w).
Proof.
  intros Hp. unfold set_of.
  rewrite (bind_ok _ _ _ _ _ (iterate_pool _ _ _ Hp)).
  by rewrite strings_of_fmap.
Qed.

Lemma list_of_set_elem k (s : gset string) c : c ∈ list_of_set k s ↔ c ∈ s.
Proof. by rewrite list_of_set_perm, elem_of_elements. Qed.

Lemma list_of_set_NoDup k (s : gset string) : NoDup (list_of_set k s).
Proof. rewrite list_of_set_perm. apply NoDup_elements. Qed.

Lemma pool_single w l chars c : pool w l chars → c ∈ chars → String.length c = 1.
Proof. intros [_ Hf] Hc. by eapply Forall_forall in Hf. Qed.

Lemma pool_agree w l chars chars' :
  pool w l chars → pool w l chars' → chars = chars'.
Proof.
  intros [H1 _] [H2 _]. rewrite H1 in H2. injection H2 as H2.
  apply (f_equal strings_of) in H2. by rewrite !strings_of_fmap in H2.
Qed.

(** *** blacklistCharacters on arguments that pass the checks *)

Lemma check_blacklist_argument_pool w name l chars listFails characterFails :
  pool w l chars →
  check_blacklist_argument (listFails, characterFails) (name, PyList l) w
  = (inr (listFails, characterFails), w).
Proof.
  intros Hp. unfold check_blacklist_argument.
  cbn [isinstance_list is_None negb].
  rewrite (bind_ok _ _ _ _ _ (iterate_pool _ _ _ Hp)).
  rewrite forallb_single_character by apply Hp.
  by destruct (negb (name =? "blacklist")%string).
Qed.

Lemma check_blacklist_arguments_ok w ln ll ls lb N L S B p :
  pool w ln N → pool w ll L → pool w ls S → pool w lb B →
  check_blacklist_arguments
    (PyList ln) (PyList ll) (PyList ls) (PyList lb) (PyBool p) w
  = (inr tt, w).
Proof.
  intros HN HL HS HB. unfold check_blacklist_arguments.
  cbn [isinstance_bool isinstance_list is_None negb andb].
  rewrite (bind_ok _ _ _ ([], []) w); [reflexivity|].
  cbn [for_each].
  rewrite (bind_ok _ _ _ _ _ (check_blacklist_argument_pool _ _ _ _ _ _ HN)).
  rewrite (bind_ok _ _ _ _ _ (check_blacklist_argument_pool _ _ _ _ _ _ HL)).
  rewrite (bind_ok _ _ _ _ _ (check_blacklist_argument_pool _ _ _ _ _ _ HS)).
  rewrite (bind_ok _ _ _ _ _ (check_blacklist_argument_pool _ _ _ _ _ _ HB)).
  reflexivity.
Qed.

Lemma remove_blacklisted_run w ln ll ls lb N L S B p :
  pool w ln N → pool w ll L → pool w ls S → pool w lb B →
  let unused :=
    list_of_set 3
      (list_to_set B ∖ (list_to_set N ∪ list_to_set L ∪ list_to_set S)) in
  remove_blacklisted
    (PyList ln) (PyList ll) (PyList ls) (PyList lb) (PyBool p) w
  = (inr (PyList lb),
     World (filtered_heap (heap w) ln ll ls lb N L S B) (stdin w)
           (if Nat.ltb 0 (length (PyStr <$> unused)) && p
            then stdout w ++ [unused_message unused] else stdout w)
           (rng w)).
Proof.
  intros HN HL HS HB unused. unfold remove_blacklisted.
  rewrite (bind_ok _ _ _ _ _ (set_of_pool _ _ _ HN)).
  rewrite (bind_ok _ _ _ _ _ (set_of_pool _ _ _ HL)).
  rewrite (bind_ok _ _ _ _ _ (set_of_pool _ _ _ HS)).
  rewrite (bind_ok _ _ _ _ _ (set_of_pool _ _ _ HB)).
  rewrite (bind_ok _ _ _ _ _ (set_of_pool _ _ _ HN)).
  rewrite (bind_ok _ _ _ _ _ (set_of_pool _ _ _ HL)).
  rewrite (bind_ok _ _ _ _ _ (set_of_pool _ _ _ HS)).
  cbv [mbind Py_bind assign_all slice_assign iterate contents mret Py_ret
       truthy_bool].
  cbn [heap stdin stdout rng].
  rewrite lookup_insert_eq. cbv [default from_option id].
  fold unused. rewrite strings_of_fmap.
  destruct (Nat.ltb 0 (length (PyStr <$> unused)) && p); reflexivity.
Qed.

Lemma blacklistCharacters_supplied w ln ll ls lb N L S B p :
  pool w ln N → pool w ll L → pool w ls S → pool w lb B →
  blacklistCharacters
    (PyList ln) (PyList ll) (PyList ls) (PyList lb) (PyBool p) w
  = remove_blacklisted
      (PyList ln) (PyList ll) (PyList ls) (PyList lb) (PyBool p) w.
Proof.
  intros HN HL HS HB. unfold blacklistCharacters.
  rewrite (bind_ok _ _ _ _ _
             (check_blacklist_arguments_ok _ _ _ _ _ _ _ _ _ p HN HL HS HB)).
  rewrite (bind_ok _ _ _ (PyList lb) w); [reflexivity|].
  unfold obtain_blacklist. cbn [truthy_bool isinstance_list negb].
  by rewrite andb_false_r.
Qed.

(** Whatever lists the caller passes twice, each pool ends up with its
    own characters minus the blacklist: the writes happen in the order
    numbers, letters, symbols, blacklist, and the last write to an object
    that is passed twice is again such a difference. *)
Lemma filtered_heap_survivors w ln ll ls lb N L S B l X :
  pool w ln N → pool w ll L → pool w ls S → pool w lb B →
  (l = ln ∧ X = N) ∨ (l = ll ∧ X = L) ∨ (l = ls ∧ X = S) →
  survivors (filtered_heap (heap w) ln ll ls lb N L S B) l X B.
Proof.
  clear int_of_string.
  intros HN HL HS HB Hl. unfold survivors, filtered_heap.
  assert (HX : pool w l X)
    by (destruct Hl as [[-> ->]|[[-> ->]|[-> ->]]]; done).
  assert (Hfound : ∀ k l' X' (U : gset string),
    pool w l' X' → l' = l →
    (∀ c, c ∈ list_to_set X' ∖ U ↔ c ∈ X ∧ c ∉ B) →
    ∃ items, Some (PyStr <$> list_of_set k (list_to_set X' ∖ U))
             = Some (PyStr <$> items) ∧ NoDup items ∧
             ∀ c, c ∈ items ↔ c ∈ X ∧ c ∉ B).
  { intros k l' X' U _ _ HU. eexists. split; [reflexivity|].
    split; [apply list_of_set_NoDup|]. intros c.
    by rewrite list_of_set_elem. }
  destruct (decide (lb = l)) as [Hb|Hb].
  { rewrite Hb, lookup_insert_eq. apply (Hfound 3 lb B); [done..|].
    subst lb. pose proof (pool_agree _ _ _ _ HB HX) as ->.
    destruct Hl as [[_ ->]|[[_ ->]|[_ ->]]]; set_solver. }
  rewrite lookup_insert_ne by done.
  destruct (decide (ls = l)) as [Hs|Hs].
  { rewrite Hs, lookup_insert_eq. apply (Hfound 2 ls S); [done..|].
    subst ls. pose proof (pool_agree _ _ _ _ HS HX) as ->. set_solver. }
  rewrite lookup_insert_ne by done.
  destruct (decide (ll = l)) as [Hll|Hll].
  { rewrite Hll, lookup_insert_eq. apply (Hfound 1 ll L); [done..|].
    subst ll. pose proof (pool_agree _ _ _ _ HL HX) as ->. set_solver. }
  rewrite lookup_insert_ne by done.
  destruct (decide (ln = l)) as [Hn|Hn].
  { rewrite Hn, lookup_insert_eq. apply (Hfound 0 ln N); [done..|].
    subst ln. pose proof (pool_agree _ _ _ _ HN HX) as ->. set_solver. }
  destruct Hl as [[-> _]|[[-> _]|[-> _]]]; done.
Qed.

Lemma filtered_heap_blacklist h ln ll ls lb N L S B :
  filtered_heap h ln ll ls lb N L S B !! lb
  = Some (PyStr <$> list_of_set 3
            (list_to_set B ∖
               (list_to_set N ∪ list_to_set L ∪ list_to_set S))).
Proof. unfold filtered_heap. apply lookup_insert_eq. Qed.

Lemma filtered_heap_other h ln ll ls lb N L S B l :
  l ≠ ln → l ≠ ll → l ≠ ls → l ≠ lb →
  filtered_heap h ln ll ls lb N L S B !! l = h !! l.
Proof.
  intros. unfold filtered_heap. by rewrite !lookup_insert_ne.
Qed.

Lemma filtered_heap_dom w ln ll ls lb N L S B :
  pool w ln N → pool w ll L → pool w ls S → pool w lb B →
  dom (filtered_heap (heap w) ln ll ls lb N L S B) = dom (heap w).
Proof.
  clear int_of_string.
  intros [HN _] [HL _] [HS _] [HB _]. unfold filtered_heap.
  rewrite !dom_insert_L.
  apply (elem_of_dom_2 (D:=gset loc)) in HN, HL, HS, HB. set_solver.
Qed.

(** The run of [blacklistCharacters] on a supplied blacklist. *)
Lemma blacklistCharacters_run w ln ll ls lb N L S B p :
  pool w ln N → pool w ll L → pool w ls S → pool w lb B →
  ∃ out,
    blacklistCharacters
      (PyList ln) (PyList ll) (PyList ls) (PyList lb) (PyBool p) w
    = (inr (PyList lb),
       World (filtered_heap (heap w) ln ll ls lb N L S B)
             (stdin w) out (rng w)).
Proof.
  intros HN HL HS HB.
  rewrite (blacklistCharacters_supplied _ _ _ _ _ _ _ _ _ p HN HL HS HB).
  rewrite (remove_blacklisted_run _ _ _ _ _ _ _ _ _ p HN HL HS HB).
  eexists. reflexivity.
Qed.

Lemma characters_single line :
  Forall (λ c, String.length c = 1) (characters line).
Proof. induction line as [|a line IH]; by constructor. Qed.

Lemma ask_blacklist_single usable lines blacklist rest out :
  ask_blacklist usable lines = (inr blacklist, rest, out) →
  Forall (λ c, String.length c = 1) blacklist.
Proof.
  revert out. induction lines as [|line lines IH]; intros out; [done|].
  cbn [ask_blacklist].
  destruct (Nat.eqb _ 0).
  - destruct (ask_blacklist usable lines) as [[r rest'] out'] eqn:Hask.
    intros [= -> -> _]. by eapply IH.
  - intros [= <- _ _]. apply characters_single.
Qed.

Lemma check_blacklist_arguments_absent w ln ll ls N L S p :
  pool w ln N → pool w ll L → pool w ls S →
  check_blacklist_arguments
    (PyList ln) (PyList ll) (PyList ls) PyNone (PyBool p) w
  = (inr tt, w).
Proof.
  intros HN HL HS. unfold check_blacklist_arguments.
  cbn [isinstance_bool isinstance_list is_None negb andb].
  rewrite (bind_ok _ _ _ ([], []) w); [reflexivity|].
  cbn [for_each].
  rewrite (bind_ok _ _ _ _ _ (check_blacklist_argument_pool _ _ _ _ _ _ HN)).
  rewrite (bind_ok _ _ _ _ _ (check_blacklist_argument_pool _ _ _ _ _ _ HL)).
  rewrite (bind_ok _ _ _ _ _ (check_blacklist_argument_pool _ _ _ _ _ _ HS)).
  reflexivity.
Qed.

(** A blacklist that is asked for is a new list object of single
    characters; the objects that were there are as they were. *)
Lemma obtain_blacklist_asked w ln ll ls N L S r w1 :
  pool w ln N → pool w ll L → pool w ls S →
  obtain_blacklist (PyList ln) (PyList ll) (PyList ls) PyNone (PyBool true) w
  = (inr r, w1) →
  ∃ lb B,
    r = PyList lb ∧ (lb ∉ dom (heap w)) ∧
    heap w1 = <[lb := PyStr <$> B]> (heap w) ∧
    Forall (λ c, String.length c = 1) B.
Proof.
  intros HN HL HS. unfold obtain_blacklist.
  cbn [truthy_bool isinstance_list negb andb].
  rewrite (bind_ok _ _ _ _ _ (set_of_pool _ _ _ HN)).
  rewrite (bind_ok _ _ _ _ _ (set_of_pool _ _ _ HL)).
  rewrite (bind_ok _ _ _ _ _ (set_of_pool _ _ _ HS)).
  unfold mbind, Py_bind.
  destruct (ask_blacklist _ (stdin w)) as [[[e|B] rest] out] eqn:Hask;
    [done|].
  unfold new_list, mret, Py_ret. cbn [heap stdin stdout rng].
  intros [= <- <-]. exists (fresh (dom (heap w))), B.
  split; [done|]. split; [apply is_fresh|]. split; [done|].
  by eapply ask_blacklist_single.
Qed.

Lemma pool_other_object w w1 l chars lb items :
  pool w l chars → lb ∉ dom (heap w) →
  heap w1 = <[lb := items]> (heap w) → pool w1 l chars.
Proof.
  intros [Hl Hchars] Hfresh Hheap. split; [|done].
  rewrite Hheap, lookup_insert_ne; [done|].
  intros ->. apply Hfresh. by apply elem_of_dom_2 in Hl.
Qed.

(** *** The pool filter *)

(** C1 (amended): on valid pools and a supplied blacklist, the list that
    [blacklistCharacters] returns holds characters of the input blacklist
    only, and holds exactly those characters of the input blacklist that
    were in none of numbers, letters and symbols before the filtering:
    the characters that were in a pool are the ones dropped from it. *)
Theorem returned_blacklist_is_unused w ln ll ls lb N L S B p :
  pool w ln N → pool w ll L → pool w ls S → pool w lb B →
  ∃ w' items,
    blacklistCharacters
      (PyList ln) (PyList ll) (PyList ls) (PyList lb) (PyBool p) w
    = (inr (PyList lb), w') ∧
    heap w' !! lb = Some (PyStr <$> items) ∧
    (∀ c, c ∈ items → c ∈ B) ∧
    (∀ c, c ∈ items ↔ c ∈ B ∧ (c ∉ N) ∧ (c ∉ L) ∧ (c ∉ S)).
Proof.
  intros HN HL HS HB.
  destruct (blacklistCharacters_run _ _ _ _ _ _ _ _ _ p HN HL HS HB)
    as [out Hrun].
  eexists _, _. split; [exact Hrun|]. cbn [heap].
  split; [apply filtered_heap_blacklist|].
  clear int_of_string.
  split; intros c; rewrite list_of_set_elem; set_solver.
Qed.

(** C5: on valid pools and a supplied blacklist, after
    [blacklistCharacters] no pool holds a character of the original
    blacklist, and each pool holds exactly its original characters that
    are not in the blacklist. *)
Theorem pools_lose_blacklist w ln ll ls lb N L S B p :
  pool w ln N → pool w ll L → pool w ls S → pool w lb B →
  ∃ r w',
    blacklistCharacters
      (PyList ln) (PyList ll) (PyList ls) (PyList lb) (PyBool p) w
    = (inr r, w') ∧
    (∀ l items c, l ∈ [ln; ll; ls] → heap w' !! l = Some items →
                  PyStr c ∈ items → c ∉ B) ∧
    survivors (heap w') ln N B ∧
    survivors (heap w') ll L B ∧
    survivors (heap w') ls S B.
Proof.
  clear int_of_string.
  intros HN HL HS HB.
  destruct (blacklistCharacters_run _ _ _ _ _ _ _ _ _ p HN HL HS HB)
    as [out Hrun].
  pose proof (filtered_heap_survivors _ _ _ _ _ _ _ _ _ ln N HN HL HS HB)
    as Hn.
  pose proof (filtered_heap_survivors _ _ _ _ _ _ _ _ _ ll L HN HL HS HB)
    as Hl.
  pose proof (filtered_heap_survivors _ _ _ _ _ _ _ _ _ ls S HN HL HS HB)
    as Hs.
  eexists _, _. split; [exact Hrun|]. cbn [heap].
  split; [|split_and!; [apply Hn|apply Hl|apply Hs]; tauto].
  intros l items c Hin Hitems Hc.
  assert (Hsurv : ∃ X, survivors
            (filtered_heap (heap w) ln ll ls lb N L S B) l X B).
  { rewrite !elem_of_cons in Hin.
    destruct Hin as [->|[->|[->|Hin]]];
      [exists N; apply Hn|exists L; apply Hl|exists S; apply Hs|]; try tauto.
    by apply elem_of_nil in Hin. }
  destruct Hsurv as (X & items' & Hitems' & _ & Hiff).
  rewrite Hitems in Hitems'. injection Hitems' as ->.
  apply list_elem_of_fmap in Hc as (c' & [= <-] & Hc).
  by apply Hiff in Hc as [_ Hc].
Qed.

(** C9: the pools are updated in place.  On valid pools and a supplied
    blacklist, after the call the list objects that the caller passed as
    numbers, letters and symbols hold the surviving characters, no list
    object has been created, and no list object other than the four
    arguments has changed.  When the blacklist is asked for at the console
    instead, every call that returns leaves the same three list objects
    holding the surviving characters; the only new list object is the
    blacklist that is returned, and no other list object has changed. *)
Theorem pools_updated_in_place w ln ll ls N L S :
  pool w ln N → pool w ll L → pool w ls S →
  (∀ lb B p,
     pool w lb B →
     ∃ w',
       blacklistCharacters
         (PyList ln) (PyList ll) (PyList ls) (PyList lb) (PyBool p) w
       = (inr (PyList lb), w') ∧
       survivors (heap w') ln N B ∧
       survivors (heap w') ll L B ∧
       survivors (heap w') ls S B ∧
       dom (heap w') = dom (heap w) ∧
       (∀ l, l ≠ ln → l ≠ ll → l ≠ ls → l ≠ lb →
             heap w' !! l = heap w !! l)) ∧
  (∀ r w',
     blacklistCharacters
       (PyList ln) (PyList ll) (PyList ls) PyNone (PyBool true) w
     = (inr r, w') →
     ∃ lb B,
       r = PyList lb ∧ (lb ∉ dom (heap w)) ∧
       survivors (heap w') ln N B ∧
       survivors (heap w') ll L B ∧
       survivors (heap w') ls S B ∧
       dom (heap w') = {[lb]} ∪ dom (heap w) ∧
       (∀ l, l ≠ ln → l ≠ ll → l ≠ ls → l ≠ lb →
             heap w' !! l = heap w !! l)).
Proof.
  intros HN HL HS. split.
  - intros lb B p HB.
    destruct (blacklistCharacters_run _ _ _ _ _ _ _ _ _ p HN HL HS HB)
      as [out Hrun].
    eexists. split; [exact Hrun|]. cbn [heap].
    split_and!.
    + apply filtered_heap_survivors; tauto.
    + apply filtered_heap_survivors; tauto.
    + apply filtered_heap_survivors; tauto.
    + by apply filtered_heap_dom.
    + intros. by apply filtered_heap_other.
  - intros r w'. unfold blacklistCharacters.
    rewrite (bind_ok _ _ _ _ _
               (check_blacklist_arguments_absent _ _ _ _ _ _ _ true HN HL HS)).
    destruct (obtain_blacklist (PyList ln) (PyList ll) (PyList ls) PyNone
                (PyBool true) w) as [[e|r1] w1] eqn:Hobtain.
    { by rewrite (bind_raise _ _ _ _ _ Hobtain). }
    rewrite (bind_ok _ _ _ _ _ Hobtain).
    destruct (obtain_blacklist_asked _ _ _ _ _ _ _ _ _ HN HL HS Hobtain)
      as (lb & B & -> & Hfresh & Hheap & HB).
    pose proof (pool_other_object _ _ _ _ _ _ HN Hfresh Hheap) as HN1.
    pose proof (pool_other_object _ _ _ _ _ _ HL Hfresh Hheap) as HL1.
    pose proof (pool_other_object _ _ _ _ _ _ HS Hfresh Hheap) as HS1.
    assert (HB1 : pool w1 lb B).
    { split; [|done]. by rewrite Hheap, lookup_insert_eq. }
    rewrite (remove_blacklisted_run _ _ _ _ _ _ _ _ _ true HN1 HL1 HS1 HB1).
    intros [= <- <-]. exists lb, B. cbn [heap].
    split_and!; [done|done|..].
    + apply filtered_heap_survivors; tauto.
    + apply filtered_heap_survivors; tauto.
    + apply filtered_heap_survivors; tauto.
    + rewrite (filtered_heap_dom _ _ _ _ _ _ _ _ _ HN1 HL1 HS1 HB1), Hheap.
      apply dom_insert_L.
    + intros l Hn Hl Hs Hb.
      rewrite filtered_heap_other, Hheap by done. by rewrite lookup_insert_ne.
Qed.

(** C10: a supplied blacklist is itself overwritten with the result and
    returned: the value returned is the list object passed as blacklist,
    after the call that object holds the characters of the result (the
    blacklisted characters that were in no pool), and no list object has
    been created. *)
Theorem blacklist_overwritten_and_returned w ln ll ls lb N L S B p :
  pool w ln N → pool w ll L → pool w ls S → pool w lb B →
  ∃ w',
    blacklistCharacters
      (PyList ln) (PyList ll) (PyList ls) (PyList lb) (PyBool p) w
    = (inr (PyList lb), w') ∧
    heap w' !! lb
    = Some (PyStr <$> list_of_set 3
              (list_to_set B ∖
                 (list_to_set N ∪ list_to_set L ∪ list_to_set S))) ∧
    dom (heap w') = dom (heap w).
Proof.
  intros HN HL HS HB.
  destruct (blacklistCharacters_run _ _ _ _ _ _ _ _ _ p HN HL HS HB)
    as [out Hrun].
  eexists. split; [exact Hrun|]. cbn [heap].
  split; [apply filtered_heap_blacklist|by apply filtered_heap_dom].
Qed.

(** *** keygen on arguments that pass the checks *)

Lemma check_keygen_argument_pool w name l chars listFails characterFails :
  pool w l chars →
  check_keygen_argument (listFails, characterFails) (name, PyList l) w
  = (inr (listFails, characterFails), w).
Proof.
  intros Hp. unfold check_keygen_argument.
  cbn [isinstance_list negb].
  rewrite (bind_ok _ _ _ _ _ (iterate_pool _ _ _ Hp)).
  by rewrite forallb_single_character by apply Hp.
Qed.

Lemma check_keygen_arguments_ok w ln ll ls N L S keyLength p :
  pool w ln N → pool w ll L → pool w ls S →
  is_None keyLength || isinstance_int keyLength = true →
  check_keygen_arguments
    (PyList ln) (PyList ll) (PyList ls) keyLength (PyBool p) w
  = (inr tt, w).
Proof.
  intros HN HL HS Hk. unfold check_keygen_arguments.
  cbn [isinstance_bool negb].
  replace (negb (is_None keyLength) && negb (isinstance_int keyLength))
    with false by (by destruct keyLength).
  rewrite (bind_ok _ _ _ ([], []) w); [reflexivity|].
  cbn [for_each].
  rewrite (bind_ok _ _ _ _ _ (check_keygen_argument_pool _ _ _ _ _ _ HN)).
  rewrite (bind_ok _ _ _ _ _ (check_keygen_argument_pool _ _ _ _ _ _ HL)).
  rewrite (bind_ok _ _ _ _ _ (check_keygen_argument_pool _ _ _ _ _ _ HS)).
  reflexivity.
Qed.

Lemma check_keygen_arguments_bad_keyLength w ln ll ls keyLength p :
  is_None keyLength || isinstance_int keyLength = false →
  check_keygen_arguments
    (PyList ln) (PyList ll) (PyList ls) keyLength (PyBool p) w
  = (inl (TypeError "Input argument 'keyLength' has incorrect type. Must be 'int'."), w).
Proof.
  intros Hk. unfold check_keygen_arguments. cbn [isinstance_bool negb].
  by destruct keyLength.
Qed.

Lemma remove_empty_sets_three N L S w :
  remove_empty_sets [N; L; S] w = (inr (non_empty [N; L; S]), w).
Proof. by destruct N, L, S. Qed.

Lemma choice_run {A} (seq : list A) (d : A) w :
  seq ≠ [] →
  choice (M:=Py) seq w
  = (inr (nth (rng w 0 mod length seq) seq d),
     World (heap w) (stdin w) (stdout w) (λ k, rng w (S k))).
Proof.
  intros Hseq. destruct seq as [|x seq]; [done|].
  unfold choice, Py_choice. do 2 f_equal. apply nth_indep.
  apply Nat.mod_upper_bound. cbn [length]. lia.
Qed.

Lemma drawn_shift tape characterSets i :
  drawn (λ k, tape (S (S k))) characterSets i = drawn tape characterSets (S i).
Proof.
  unfold drawn. by replace (2 * S i) with (S (S (2 * i))) by lia.
Qed.

(** The loop that builds the key: two draws for each position. *)
Lemma generate_run n characterSets key w :
  characterSets ≠ [] → Forall (λ characterSet, characterSet ≠ []) characterSets →
  ∃ tape,
    generate (M:=Py) n characterSets key w
    = (inr (key ++ (drawn (rng w) characterSets <$> seq 0 n))%list,
       World (heap w) (stdin w) (stdout w) tape) ∧
    ∀ k, tape k = rng w (2 * n + k).
Proof.
  intros Hsets Hall. revert key w.
  induction n as [|n IH]; intros key w.
  { exists (rng w). cbn. rewrite app_nil_r. by destruct w. }
  cbn [generate].
  rewrite (bind_ok _ _ _ _ _ (choice_run characterSets [] w Hsets)).
  set (characterSet := nth (rng w 0 mod length characterSets) characterSets []).
  assert (Hset : characterSet ≠ []).
  { rewrite Forall_forall in Hall. apply Hall.
    apply list_elem_of_In, nth_In.
    apply Nat.mod_upper_bound. by destruct characterSets. }
  rewrite (bind_ok _ _ _ _ _ (choice_run characterSet "" _ Hset)).
  cbn [heap stdin stdout rng].
  destruct (IH (key ++ [nth (rng w 1 mod length characterSet) characterSet ""])%list
               (World (heap w) (stdin w) (stdout w) (λ k, rng w (S (S k)))))
    as (tape & Hrun & Htape).
  exists tape. split.
  - rewrite Hrun. cbn [heap stdin stdout rng]. do 2 f_equal.
    rewrite <- app_assoc. f_equal. cbn [seq fmap list_fmap]. f_equal.
    rewrite <- fmap_S_seq, <- list_fmap_compose.
    apply list_fmap_ext. intros _ i _. apply drawn_shift.
  - intros k. rewrite Htape. cbn [rng]. f_equal. lia.
Qed.

Lemma non_empty_elem characterSet characterSets :
  characterSet ∈ non_empty characterSets ↔
  characterSet ∈ characterSets ∧ characterSet ≠ [].
Proof.
  unfold non_empty. rewrite list_elem_of_filter.
  destruct characterSet; cbn; naive_solver.
Qed.

Lemma non_empty_Forall characterSets :
  Forall (λ characterSet, characterSet ≠ []) (non_empty characterSets).
Proof.
  apply Forall_forall. intros characterSet Hin.
  by apply non_empty_elem in Hin as [_ Hne].
Qed.

Lemma non_empty_three N L S :
  ¬ (N = [] ∧ L = [] ∧ S = []) → non_empty [N; L; S] ≠ [].
Proof. destruct N, L, S; cbn; intros H; (done || tauto). Qed.

Lemma drawn_elem tape characterSets i :
  characterSets ≠ [] →
  Forall (λ characterSet, characterSet ≠ []) characterSets →
  ∃ characterSet,
    characterSet ∈ characterSets ∧ drawn tape characterSets i ∈ characterSet.
Proof.
  intros Hsets Hall. unfold drawn.
  set (characterSet := nth _ characterSets []).
  assert (Hin : characterSet ∈ characterSets).
  { apply list_elem_of_In, nth_In, Nat.mod_upper_bound.
    by destruct characterSets. }
  exists characterSet. split; [done|].
  rewrite Forall_forall in Hall. apply Hall in Hin.
  apply list_elem_of_In, nth_In, Nat.mod_upper_bound.
  by destruct characterSet.
Qed.

Lemma generate_key_all_empty w ln ll ls keyLength p :
  pool w ln [] → pool w ll [] → pool w ls [] →
  generate_key (PyList ln) (PyList ll) (PyList ls) keyLength p w
  = (inl (ValueError all_empty_message), w).
Proof.
  intros HN HL HS. unfold generate_key.
  rewrite (bind_ok _ _ _ _ _ (iterate_pool _ _ _ HN)).
  rewrite (bind_ok _ _ _ _ _ (iterate_pool _ _ _ HL)).
  rewrite (bind_ok _ _ _ _ _ (iterate_pool _ _ _ HS)).
  reflexivity.
Qed.

(** The run of the last block of [keygen] on pools that are not all
    empty. *)
Lemma generate_key_run w ln ll ls N L S keyLength p :
  pool w ln N → pool w ll L → pool w ls S →
  ¬ (N = [] ∧ L = [] ∧ S = []) →
  let n := Z.to_nat (int_value keyLength) in
  ∃ w',
    generate_key (PyList ln) (PyList ll) (PyList ls) keyLength (PyBool p) w
    = (inr (String.concat ""
              (drawn (rng w) (non_empty [N; L; S]) <$> seq 0 n),
            keyLength), w') ∧
    heap w' = heap w ∧ stdin w' = stdin w ∧
    ∀ k, rng w' k = rng w (2 * n + k).
Proof.
  intros HN HL HS Hne n. unfold generate_key.
  rewrite (bind_ok _ _ _ _ _ (iterate_pool _ _ _ HN)).
  rewrite (bind_ok _ _ _ _ _ (iterate_pool _ _ _ HL)).
  rewrite (bind_ok _ _ _ _ _ (iterate_pool _ _ _ HS)).
  rewrite !length_fmap, !strings_of_fmap.
  replace (Nat.eqb (length N) 0 && Nat.eqb (length L) 0
           && Nat.eqb (length S) 0) with false
    by (destruct N, L, S; cbn; (done || tauto)).
  rewrite (bind_ok _ _ _ _ _ (remove_empty_sets_three N L S w)).
  destruct (generate_run n (non_empty [N; L; S]) [] w
              (non_empty_three _ _ _ Hne) (non_empty_Forall _))
    as (tape & Hrun & Htape).
  fold n. rewrite (bind_ok _ _ _ _ _ Hrun). cbn [app truthy_bool].
  destruct p.
  - eexists. split; [reflexivity|]. by cbn [heap stdin rng].
  - eexists. split; [reflexivity|]. by cbn [heap stdin rng].
Qed.

Lemma concat_single_characters (chars : list string) :
  Forall (λ c, String.length c = 1) chars →
  characters (String.concat "" chars) = chars ∧
  String.length (String.concat "" chars) = length chars.
Proof.
  induction 1 as [|c chars Hc Hchars [IH1 IH2]]; [done|].
  destruct c as [|a [|? ?]]; try done.
  destruct chars as [|c' chars]; [done|].
  change (String.concat "" (String a "" :: c' :: chars))
    with (String a (String.concat "" (c' :: chars))).
  cbn [characters String.length]. by rewrite IH1, IH2.
Qed.

Lemma obtain_keyLength_world keyLength printToConsole w r w1 :
  obtain_keyLength keyLength printToConsole w = (r, w1) →
  heap w1 = heap w ∧ rng w1 = rng w.
Proof.
  unfold obtain_keyLength.
  destruct (truthy_bool printToConsole).
  - destruct (ask_keyLength keyLength (stdin w)) as [[r' rest] out].
    by intros [= _ <-].
  - destruct (is_None keyLength); [by intros [= _ <-]|].
    destruct (int_value keyLength <=? 0)%Z; by intros [= _ <-].
Qed.

Lemma pool_same_heap w w1 l chars :
  heap w1 = heap w → pool w l chars → pool w1 l chars.
Proof. unfold pool. by intros ->. Qed.

Lemma drawn_ext tape tape' characterSets i :
  (∀ k, tape k = tape' k) →
  drawn tape characterSets i = drawn tape' characterSets i.
Proof. intros Heq. unfold drawn. by rewrite !Heq. Qed.

(** Every run of [keygen] on valid pools that returns a key: the pools
    are not all empty and the key is made of the characters drawn for
    the positions below the key length that is returned. *)
Lemma keygen_returns w ln ll ls N L S keyLength p key keyLength' w' :
  pool w ln N → pool w ll L → pool w ls S →
  keygen (PyList ln) (PyList ll) (PyList ls) keyLength (PyBool p) w
  = (inr (key, keyLength'), w') →
  ¬ (N = [] ∧ L = [] ∧ S = []) ∧
  key = String.concat ""
          (drawn (rng w) (non_empty [N; L; S])
             <$> seq 0 (Z.to_nat (int_value keyLength'))) ∧
  heap w' = heap w ∧
  ∀ k, rng w' k = rng w (2 * Z.to_nat (int_value keyLength') + k).
Proof.
  intros HN HL HS. unfold keygen.
  destruct (is_None keyLength || isinstance_int keyLength) eqn:Hk.
  2: { rewrite (bind_raise _ _ _ _ _
                  (check_keygen_arguments_bad_keyLength _ _ _ _ _ p Hk)).
       done. }
  rewrite (bind_ok _ _ _ _ _
             (check_keygen_arguments_ok _ _ _ _ _ _ _ _ p HN HL HS Hk)).
  destruct (obtain_keyLength keyLength (PyBool p) w) as [[e|keyLength1] w1]
    eqn:Hobtain.
  { by rewrite (bind_raise _ _ _ _ _ Hobtain). }
  rewrite (bind_ok _ _ _ _ _ Hobtain).
  apply obtain_keyLength_world in Hobtain as [Hheap Hrng].
  pose proof (pool_same_heap _ _ _ _ Hheap HN) as HN1.
  pose proof (pool_same_heap _ _ _ _ Hheap HL) as HL1.
  pose proof (pool_same_heap _ _ _ _ Hheap HS) as HS1.
  destruct (decide (N = [] ∧ L = [] ∧ S = [])) as [(-> & -> & ->)|Hne].
  { by rewrite (generate_key_all_empty _ _ _ _ _ _ HN1 HL1 HS1). }
  destruct (generate_key_run _ _ _ _ _ _ _ keyLength1 p HN1 HL1 HS1 Hne)
    as (w2 & Hrun & Hheap2 & _ & Hrng2).
  rewrite Hrun. intros [= <- <- <-].
  split; [done|]. rewrite Hrng. split; [done|].
  split; [congruence|]. intros k. by rewrite Hrng2, Hrng.
Qed.

(** *** The checks *)

Lemma iterate_iterable v w :
  iterable v = true → iterate v w = (inr (items_of w v), w).
Proof. by destruct v. Qed.

Lemma iterate_world v w r w' : iterate v w = (r, w') → w' = w.
Proof. destruct v; cbn; by intros [= _ <-]. Qed.

Lemma for_each_world {A B} (body : A → B → Py A) xs :
  (∀ acc x w r w', body acc x w = (r, w') → w' = w) →
  ∀ acc w r w', for_each body acc xs w = (r, w') → w' = w.
Proof.
  intros Hbody. induction xs as [|x xs IH]; intros acc w r w'.
  { by intros [= _ <-]. }
  cbn [for_each]. unfold mbind, Py_bind.
  destruct (body acc x w) as [[e|acc'] w1] eqn:Hx.
  - apply Hbody in Hx as ->. by intros [= _ <-].
  - apply Hbody in Hx as ->. apply IH.
Qed.

Lemma check_keygen_argument_world fails argument w r w' :
  check_keygen_argument fails argument w = (r, w') → w' = w.
Proof.
  destruct fails as [listFails characterFails], argument as [name v].
  unfold check_keygen_argument, mbind, Py_bind.
  destruct (iterate v w) as [[e|items] w1] eqn:Hv.
  - apply iterate_world in Hv as ->. by intros [= _ <-].
  - apply iterate_world in Hv as ->.
    destruct (negb (forallb single_character items)); by intros [= _ <-].
Qed.

Lemma check_blacklist_argument_world fails argument w r w' :
  check_blacklist_argument fails argument w = (r, w') → w' = w.
Proof.
  destruct fails as [listFails characterFails], argument as [name v].
  unfold check_blacklist_argument, mbind, Py_bind.
  destruct (negb (is_None v)); [|by intros [= _ <-]].
  destruct (iterate v w) as [[e|items] w1] eqn:Hv.
  - apply iterate_world in Hv as ->. by intros [= _ <-].
  - apply iterate_world in Hv as ->.
    destruct (negb (forallb single_character items)); by intros [= _ <-].
Qed.

(** The checks of [keygen] read the arguments and change nothing. *)
Lemma check_keygen_arguments_world numbers letters symbols keyLength p w r w' :
  check_keygen_arguments numbers letters symbols keyLength p w = (r, w') →
  w' = w.
Proof.
  unfold check_keygen_arguments.
  destruct (negb (isinstance_bool p)); [by intros [= _ <-]|].
  destruct (negb (is_None keyLength) && negb (isinstance_int keyLength));
    [by intros [= _ <-]|].
  unfold mbind, Py_bind.
  destruct (for_each _ _ _ w) as [[e|[listFails characterFails]] w1] eqn:Hloop;
    apply (for_each_world _ _ check_keygen_argument_world) in Hloop as ->.
  - by intros [= _ <-].
  - destruct (negb (Nat.eqb (length listFails) 0)); [by intros [= _ <-]|].
    destruct (negb (Nat.eqb (length characterFails) 0)); by intros [= _ <-].
Qed.

(** The checks of [blacklistCharacters] read the arguments and change
    nothing. *)
Lemma check_blacklist_arguments_world
    numbers letters symbols blacklist p w r w' :
  check_blacklist_arguments numbers letters symbols blacklist p w = (r, w') →
  w' = w.
Proof.
  unfold check_blacklist_arguments.
  destruct (negb (isinstance_bool p)); [by intros [= _ <-]|].
  destruct (negb (is_None blacklist) && negb (isinstance_list blacklist));
    [by intros [= _ <-]|].
  unfold mbind, Py_bind.
  destruct (for_each _ _ _ w) as [[e|[listFails characterFails]] w1] eqn:Hloop;
    apply (for_each_world _ _ check_blacklist_argument_world) in Hloop as ->.
  - by intros [= _ <-].
  - destruct (negb (Nat.eqb (length listFails) 0)); [by intros [= _ <-]|].
    destruct (negb (Nat.eqb (length characterFails) 0)); by intros [= _ <-].
Qed.

Lemma wrong_type_cons name v arguments :
  wrong_type ((name, v) :: arguments)
  = if isinstance_list v then wrong_type arguments
    else name :: wrong_type arguments.
Proof. unfold wrong_type. rewrite filter_cons. by destruct v. Qed.

Lemma wrong_characters_cons w name v arguments :
  wrong_characters w ((name, v) :: arguments)
  = if forallb single_character (items_of w v)
    then wrong_characters w arguments
    else name :: wrong_characters w arguments.
Proof.
  unfold wrong_characters. rewrite filter_cons. cbn [snd].
  by destruct (forallb single_character (items_of w v)).
Qed.

Lemma check_keygen_argument_step listFails characterFails name v w :
  iterable v = true →
  check_keygen_argument (listFails, characterFails) (name, v) w
  = (inr (if isinstance_list v then listFails
          else (listFails ++ [name])%list,
          if forallb single_character (items_of w v) then characterFails
          else (characterFails ++ [name])%list), w).
Proof.
  intros Hv. unfold check_keygen_argument.
  rewrite (bind_ok _ _ _ _ _ (iterate_iterable _ _ Hv)).
  by destruct (isinstance_list v), (forallb single_character (items_of w v)).
Qed.

Lemma check_blacklist_argument_step listFails characterFails name v w :
  iterable v = true → name ≠ "blacklist" →
  check_blacklist_argument (listFails, characterFails) (name, v) w
  = (inr (if isinstance_list v then listFails
          else (listFails ++ [name])%list,
          if forallb single_character (items_of w v) then characterFails
          else (characterFails ++ [name])%list), w).
Proof.
  intros Hv Hname. unfold check_blacklist_argument.
  apply String.eqb_neq in Hname. rewrite Hname.
  replace (is_None v) with false by (by destruct v). cbn [negb].
  rewrite (bind_ok _ _ _ _ _ (iterate_iterable _ _ Hv)).
  by destruct (isinstance_list v), (forallb single_character (items_of w v)).
Qed.

(** The loop of [keygen] over its list arguments collects every
    argument that is not a list and every argument with a bad item. *)
Lemma check_keygen_loop arguments w :
  Forall (λ argument, iterable argument.2 = true) arguments →
  ∀ listFails characterFails,
    for_each check_keygen_argument (listFails, characterFails) arguments w
    = (inr ((listFails ++ wrong_type arguments)%list,
            (characterFails ++ wrong_characters w arguments)%list), w).
Proof.
  induction 1 as [|[name v] arguments Hv _ IH]; intros listFails characterFails.
  { cbn. by rewrite !app_nil_r. }
  cbn [for_each snd] in *.
  rewrite (bind_ok _ _ _ _ _ (check_keygen_argument_step _ _ _ _ _ Hv)).
  rewrite IH, wrong_type_cons, wrong_characters_cons.
  by destruct (isinstance_list v), (forallb single_character (items_of w v));
    rewrite <- ?app_assoc.
Qed.

(** The same for the pools of [blacklistCharacters]. *)
Lemma check_blacklist_loop arguments w :
  Forall (λ argument, iterable argument.2 = true ∧
                      argument.1 ≠ "blacklist") arguments →
  ∀ listFails characterFails rest,
    for_each check_blacklist_argument (listFails, characterFails)
             (arguments ++ rest)%list w
    = for_each check_blacklist_argument
        ((listFails ++ wrong_type arguments)%list,
         (characterFails ++ wrong_characters w arguments)%list) rest w.
Proof.
  induction 1 as [|[name v] arguments [Hv Hname] _ IH];
    intros listFails characterFails rest.
  { cbn. by rewrite !app_nil_r. }
  cbn [for_each snd fst app] in *.
  rewrite (bind_ok _ _ _ _ _
             (check_blacklist_argument_step _ _ _ _ _ Hv Hname)).
  rewrite IH, wrong_type_cons, wrong_characters_cons.
  by destruct (isinstance_list v), (forallb single_character (items_of w v));
    rewrite <- ?app_assoc.
Qed.

Lemma check_blacklist_last blacklist listFails characterFails w :
  is_None blacklist || isinstance_list blacklist = true →
  for_each check_blacklist_argument (listFails, characterFails)
           [("blacklist", blacklist)] w
  = (inr (listFails,
          (characterFails ++ wrong_characters w [("blacklist", blacklist)])%list),
     w).
Proof.
  intros Hb. rewrite wrong_characters_cons.
  destruct blacklist; try done.
  - cbn. by rewrite app_nil_r.
  - cbn -[forallb]. unfold mbind, Py_bind, contents.
    destruct (forallb single_character (default [] (heap w !! l)));
      cbn; by rewrite ?app_nil_r.
Qed.

(** *** The key generator *)

Lemma obtain_keyLength_positive keyLength w :
  isinstance_int keyLength = true → (1 ≤ int_value keyLength)%Z →
  obtain_keyLength keyLength (PyBool false) w = (inr keyLength, w).
Proof.
  intros Hint Hpos. unfold obtain_keyLength. cbn [truthy_bool].
  replace (is_None keyLength) with false by (by destruct keyLength).
  by replace (int_value keyLength <=? 0)%Z with false by lia.
Qed.

Lemma obtain_keyLength_nonpositive keyLength w :
  isinstance_int keyLength = true → (int_value keyLength ≤ 0)%Z →
  obtain_keyLength keyLength (PyBool false) w
  = (inl (ValueError keyLength_message), w).
Proof.
  intros Hint Hpos. unfold obtain_keyLength. cbn [truthy_bool].
  replace (is_None keyLength) with false by (by destruct keyLength).
  by replace (int_value keyLength <=? 0)%Z with true by lia.
Qed.

Lemma isinstance_int_accepted keyLength :
  isinstance_int keyLength = true →
  is_None keyLength || isinstance_int keyLength = true.
Proof. intros ->. apply orb_true_r. Qed.

(** The run of [keygen] without the console on a positive key length. *)
Lemma keygen_positive w ln ll ls N L S keyLength :
  pool w ln N → pool w ll L → pool w ls S →
  ¬ (N = [] ∧ L = [] ∧ S = []) →
  isinstance_int keyLength = true → (1 ≤ int_value keyLength)%Z →
  let n := Z.to_nat (int_value keyLength) in
  ∃ w',
    keygen (PyList ln) (PyList ll) (PyList ls) keyLength (PyBool false) w
    = (inr (String.concat ""
              (drawn (rng w) (non_empty [N; L; S]) <$> seq 0 n),
            keyLength), w') ∧
    heap w' = heap w ∧ stdin w' = stdin w ∧
    ∀ k, rng w' k = rng w (2 * n + k).
Proof.
  intros HN HL HS Hne Hint Hpos n. unfold keygen.
  rewrite (bind_ok _ _ _ _ _
             (check_keygen_arguments_ok _ _ _ _ _ _ _ _ false HN HL HS
                (isinstance_int_accepted _ Hint))).
  rewrite (bind_ok _ _ _ _ _ (obtain_keyLength_positive _ w Hint Hpos)).
  by apply generate_key_run.
Qed.

Lemma drawn_in_pools w ln ll ls N L S tape i :
  pool w ln N → pool w ll L → pool w ls S →
  ¬ (N = [] ∧ L = [] ∧ S = []) →
  let c := drawn tape (non_empty [N; L; S]) i in
  String.length c = 1 ∧
  ∃ characterSet, characterSet ≠ [] ∧ characterSet ∈ [N; L; S] ∧
                  c ∈ characterSet.
Proof.
  intros HN HL HS Hne c.
  destruct (drawn_elem tape (non_empty [N; L; S]) i
              (non_empty_three _ _ _ Hne) (non_empty_Forall _))
    as (characterSet & Hin & Hc).
  apply non_empty_elem in Hin as [Hin Hset]. fold c in Hc.
  split; [|by exists characterSet].
  rewrite !elem_of_cons in Hin.
  destruct Hin as [->|[->|[->|Hin]]].
  - exact (pool_single _ _ _ _ HN Hc).
  - exact (pool_single _ _ _ _ HL Hc).
  - exact (pool_single _ _ _ _ HS Hc).
  - by apply elem_of_nil in Hin.
Qed.

(** C2 (amended): without the console, for every integer key length of
    at least 1 and valid pools that are not all empty, [keygen] returns a
    string of exactly [keyLength] characters together with the
    [keyLength] it was given. *)
Theorem key_has_requested_length w ln ll ls N L S keyLength :
  pool w ln N → pool w ll L → pool w ls S →
  ¬ (N = [] ∧ L = [] ∧ S = []) →
  isinstance_int keyLength = true → (1 ≤ int_value keyLength)%Z →
  ∃ key w',
    keygen (PyList ln) (PyList ll) (PyList ls) keyLength (PyBool false) w
    = (inr (key, keyLength), w') ∧
    String.length key = Z.to_nat (int_value keyLength).
Proof.
  intros HN HL HS Hne Hint Hpos.
  destruct (keygen_positive _ _ _ _ _ _ _ _ HN HL HS Hne Hint Hpos)
    as (w' & Hrun & _).
  eexists _, _. split; [exact Hrun|].
  set (chars := _ <$> seq 0 _).
  assert (Hsingle : Forall (λ c, String.length c = 1) chars).
  { apply Forall_forall. intros c Hc.
    apply list_elem_of_fmap in Hc as (i & -> & _).
    by eapply (drawn_in_pools w). }
  apply concat_single_characters in Hsingle as [_ ->].
  unfold chars. by rewrite length_fmap, length_seq.
Qed.

(** C6: every character of a key that [keygen] returns is a character
    of numbers, letters or symbols, whatever the draws; and when two of
    the three pools are empty, every character of the key is in the
    third. *)
Theorem key_characters_from_pools
    w ln ll ls N L S keyLength p key keyLength' w' :
  pool w ln N → pool w ll L → pool w ls S →
  keygen (PyList ln) (PyList ll) (PyList ls) keyLength (PyBool p) w
  = (inr (key, keyLength'), w') →
  (∀ c, c ∈ characters key → c ∈ N ∨ c ∈ L ∨ c ∈ S) ∧
  (L = [] → S = [] → ∀ c, c ∈ characters key → c ∈ N) ∧
  (N = [] → S = [] → ∀ c, c ∈ characters key → c ∈ L) ∧
  (N = [] → L = [] → ∀ c, c ∈ characters key → c ∈ S).
Proof.
  intros HN HL HS Hrun.
  destruct (keygen_returns _ _ _ _ _ _ _ _ _ _ _ _ HN HL HS Hrun)
    as (Hne & -> & _).
  set (chars := _ <$> seq 0 _).
  assert (Hchars : ∀ c, c ∈ chars → String.length c = 1 ∧
                                    (c ∈ N ∨ c ∈ L ∨ c ∈ S)).
  { intros c Hc. apply list_elem_of_fmap in Hc as (i & -> & _).
    destruct (drawn_in_pools w _ _ _ _ _ _ (rng w) i HN HL HS Hne)
      as (Hlen & characterSet & _ & Hin & Hc).
    split; [done|]. rewrite !elem_of_cons in Hin.
    destruct Hin as [->|[->|[->|Hin]]]; auto.
    by apply elem_of_nil in Hin. }
  assert (Hsingle : Forall (λ c, String.length c = 1) chars).
  { apply Forall_forall. intros c Hc. by apply Hchars. }
  apply concat_single_characters in Hsingle as [-> _].
  assert (Hunion : ∀ c, c ∈ chars → c ∈ N ∨ c ∈ L ∨ c ∈ S)
    by (intros c Hc; by apply Hchars).
  split; [done|].
  split_and!; intros -> -> c Hc; apply Hunion in Hc as [Hc|[Hc|Hc]];
    (done || by apply elem_of_nil in Hc).
Qed.

Lemma one_character_weights {A B} (q0 q1 : Qc) (f : A → B)
    (characterSet : list A) :
  (λ '(y, q), (y, (q0 * q)%Qc)) <$>
    (flat_map (λ '(character, p'),
                 (λ '(y, q), (y, (p' * q)%Qc)) <$> [(f character, 1%Qc)])
              ((λ x, (x, q1)) <$> characterSet))
  = (λ character, (f character, (q0 * q1)%Qc)) <$> characterSet.
Proof.
  induction characterSet as [|character characterSet IH]; [done|].
  cbn [fmap list_fmap flat_map app]. rewrite Qcmult_1_r. f_equal.
  exact IH.
Qed.

Lemma one_position_weights {A B} (q0 : Qc) (f : A → B)
    (characterSets : list (list A)) :
  flat_map
    (λ '(characterSet, p),
       (λ '(y, q), (y, (p * q)%Qc)) <$>
         (flat_map (λ '(character, p'),
                      (λ '(y, q), (y, (p' * q)%Qc)) <$> [(f character, 1%Qc)])
                   ((λ x, (x, one_in (length characterSet)))
                      <$> characterSet)))
    ((λ x, (x, q0)) <$> characterSets)
  = flat_map
      (λ characterSet,
         (λ character,
            (f character, (q0 * one_in (length characterSet))%Qc))
           <$> characterSet)
      characterSets.
Proof.
  induction characterSets as [|characterSet characterSets IH]; [done|].
  rewrite fmap_cons. cbn [flat_map].
  by rewrite IH, one_character_weights.
Qed.

(** C7: for each of the [keyLength] positions, in order, [keygen] draws
    a pool among the non-empty pools of numbers, letters and symbols and
    then a character in that pool, and the key is these characters in
    the order of the positions.  Without the console and for a positive
    key length the call returns that key after two draws for each
    position; every run that returns a key returns that key; and when
    each [random.choice] picks every item of its sequence with the same
    weight, the character added at one position comes from the pool
    [characterSet] as its item [character] with the weight
    [1 / (number of non-empty pools) * 1 / len(characterSet)], whatever
    the sizes of the other pools. *)
Theorem key_drawn_in_two_stages w ln ll ls N L S :
  pool w ln N → pool w ll L → pool w ls S →
  (∀ keyLength,
     ¬ (N = [] ∧ L = [] ∧ S = []) →
     isinstance_int keyLength = true → (1 ≤ int_value keyLength)%Z →
     ∃ w',
       keygen (PyList ln) (PyList ll) (PyList ls) keyLength (PyBool false) w
       = (inr (String.concat ""
                 (drawn (rng w) (non_empty [N; L; S])
                    <$> seq 0 (Z.to_nat (int_value keyLength))),
               keyLength), w') ∧
       ∀ k, rng w' k = rng w (2 * Z.to_nat (int_value keyLength) + k)) ∧
  (∀ keyLength p key keyLength' w',
     keygen (PyList ln) (PyList ll) (PyList ls) keyLength (PyBool p) w
     = (inr (key, keyLength'), w') →
     key = String.concat ""
             (drawn (rng w) (non_empty [N; L; S])
                <$> seq 0 (Z.to_nat (int_value keyLength')))) ∧
  (∀ key,
     generate (M:=distribution) 1 (non_empty [N; L; S]) key
     = flat_map
         (λ characterSet,
            (λ character,
               ((key ++ [character])%list,
                (one_in (length (non_empty [N; L; S]))
                 * one_in (length characterSet))%Qc))
              <$> characterSet)
         (non_empty [N; L; S])).
Proof.
  intros HN HL HS. split_and!.
  - intros keyLength Hne Hint Hpos.
    destruct (keygen_positive _ _ _ _ _ _ _ _ HN HL HS Hne Hint Hpos)
      as (w' & Hrun & _ & _ & Hrng).
    by exists w'.
  - intros keyLength p key keyLength' w' Hrun.
    by destruct (keygen_returns _ _ _ _ _ _ _ _ _ _ _ _ HN HL HS Hrun)
      as (_ & -> & _).
  - intros key. cbn [generate].
    unfold mbind, distribution_bind, choice, distribution_choice,
      mret, distribution_ret.
    apply (one_position_weights _ (λ character, (key ++ [character])%list)).
Qed.

Lemma keygen_missing_keyLength w ln ll ls N L S :
  pool w ln N → pool w ll L → pool w ls S →
  keygen (PyList ln) (PyList ll) (PyList ls) PyNone (PyBool false) w
  = (inl (TypeError missing_keyLength_message), w).
Proof.
  intros HN HL HS. unfold keygen.
  by rewrite (bind_ok _ _ _ _ _
                (check_keygen_arguments_ok _ _ _ _ _ _ _ PyNone false
                   HN HL HS eq_refl)).
Qed.

Lemma keygen_nonpositive_keyLength w ln ll ls N L S keyLength :
  pool w ln N → pool w ll L → pool w ls S →
  isinstance_int keyLength = true → (int_value keyLength ≤ 0)%Z →
  keygen (PyList ln) (PyList ll) (PyList ls) keyLength (PyBool false) w
  = (inl (ValueError keyLength_message), w).
Proof.
  intros HN HL HS Hint Hle. unfold keygen.
  rewrite (bind_ok _ _ _ _ _
             (check_keygen_arguments_ok _ _ _ _ _ _ _ _ false HN HL HS
                (isinstance_int_accepted _ Hint))).
  by rewrite (bind_raise _ _ _ _ _
                (obtain_keyLength_nonpositive _ w Hint Hle)).
Qed.

(** Whatever the pools are, valid or not, a key length that is missing
    or not positive makes [keygen] fail without the console, and the
    failure changes nothing. *)
Lemma keygen_rejects_keyLength numbers letters symbols keyLength w :
  keyLength = PyNone ∨
  (isinstance_int keyLength = true ∧ (int_value keyLength ≤ 0)%Z) →
  ∃ e, keygen numbers letters symbols keyLength (PyBool false) w = (inl e, w).
Proof.
  intros Hk. unfold keygen, mbind, Py_bind.
  destruct (check_keygen_arguments _ _ _ _ _ w) as [[e|[]] w1] eqn:Hcheck;
    apply check_keygen_arguments_world in Hcheck as ->; [by eexists|].
  destruct Hk as [->|[Hint Hle]]; [by eexists|].
  rewrite (obtain_keyLength_nonpositive _ w Hint Hle). by eexists.
Qed.


(** C4 (amended): without the console and with numbers, letters and
    symbols all empty, [keygen] fails for every key length, and it is
    the check of the key length that comes first: for an integer key
    length of at least 1 it fails with the ValueError for empty pools,
    for an integer key length of at most 0 with the ValueError for the
    key length, and for a missing key length with the TypeError for a
    missing argument. *)
Theorem all_pools_empty_rejected w ln ll ls :
  pool w ln [] → pool w ll [] → pool w ls [] →
  (∀ keyLength,
     isinstance_int keyLength = true → (1 ≤ int_value keyLength)%Z →
     keygen (PyList ln) (PyList ll) (PyList ls) keyLength (PyBool false) w
     = (inl (ValueError all_empty_message), w)) ∧
  (∀ keyLength,
     isinstance_int keyLength = true → (int_value keyLength ≤ 0)%Z →
     keygen (PyList ln) (PyList ll) (PyList ls) keyLength (PyBool false) w
     = (inl (ValueError keyLength_message), w)) ∧
  keygen (PyList ln) (PyList ll) (PyList ls) PyNone (PyBool false) w
  = (inl (TypeError missing_keyLength_message), w).
Proof.
  intros HN HL HS. split_and!.
  - intros keyLength Hint Hpos. unfold keygen.
    rewrite (bind_ok _ _ _ _ _
               (check_keygen_arguments_ok _ _ _ _ _ _ _ _ false HN HL HS
                  (isinstance_int_accepted _ Hint))).
    rewrite (bind_ok _ _ _ _ _ (obtain_keyLength_positive _ w Hint Hpos)).
    by apply generate_key_all_empty.
  - intros keyLength Hint Hle.
    exact (keygen_nonpositive_keyLength _ _ _ _ _ _ _ _ HN HL HS Hint Hle).
  - exact (keygen_missing_keyLength _ _ _ _ _ _ _ HN HL HS).
Qed.

(** C3 (amended): both functions finish their checks before they change
    or draw anything, and for pools that can be iterated (with a
    [printToConsole] that is a bool, and a blacklist that is None or a
    list, a key length that is None or an integer) the violations of one
    kind are reported together: when some pool is not a list, one
    TypeError names exactly the pools that are not lists; when every
    pool is a list and some argument has an item that is not a string of
    length one, one ValueError names exactly these arguments.  In both
    cases the world is as it was. *)
Theorem violations_of_one_kind_reported_together
    numbers letters symbols blacklist keyLength p w :
  iterable numbers = true → iterable letters = true →
  iterable symbols = true →
  is_None blacklist || isinstance_list blacklist = true →
  is_None keyLength || isinstance_int keyLength = true →
  let pools :=
    [("numbers", numbers); ("letters", letters); ("symbols", symbols)] in
  let arguments := (pools ++ [("blacklist", blacklist)])%list in
  (wrong_type pools ≠ [] →
     blacklistCharacters numbers letters symbols blacklist (PyBool p) w
     = (inl (TypeError (list_type_message (wrong_type pools))), w) ∧
     keygen numbers letters symbols keyLength (PyBool p) w
     = (inl (TypeError (list_type_message (wrong_type pools))), w)) ∧
  (wrong_type pools = [] →
     (wrong_characters w arguments ≠ [] →
        blacklistCharacters numbers letters symbols blacklist (PyBool p) w
        = (inl (ValueError
                  (character_length_message (wrong_characters w arguments))),
           w)) ∧
     (wrong_characters w pools ≠ [] →
        keygen numbers letters symbols keyLength (PyBool p) w
        = (inl (ValueError
                  (character_length_message (wrong_characters w pools))),
           w))).
Proof.
  intros Hn Hl Hs Hb Hk pools arguments.
  assert (Hpools : Forall (λ argument, iterable argument.2 = true) pools)
    by (by repeat constructor).
  assert (Hpools' : Forall (λ argument, iterable argument.2 = true ∧
                                        argument.1 ≠ "blacklist") pools)
    by (by repeat constructor).
  assert (Hkeygen :
    for_each check_keygen_argument ([], []) pools w
    = (inr (wrong_type pools, wrong_characters w pools), w))
    by (by rewrite (check_keygen_loop _ _ Hpools)).
  assert (Hfilter :
    for_each check_blacklist_argument ([], []) arguments w
    = (inr (wrong_type pools, wrong_characters w arguments), w)).
  { unfold arguments.
    rewrite (check_blacklist_loop _ _ Hpools'), (check_blacklist_last _ _ _ _ Hb).
    cbn [app]. do 3 f_equal. unfold wrong_characters.
    by rewrite filter_app, fmap_app. }
  assert (Hkb : negb (is_None keyLength) && negb (isinstance_int keyLength)
                = false) by (by destruct keyLength).
  assert (Hbb : negb (is_None blacklist) && negb (isinstance_list blacklist)
                = false) by (by destruct blacklist).
  assert (Hlen : ∀ names : list string,
    negb (Nat.eqb (length names) 0) = bool_decide (names ≠ []))
    by (by intros [|? ?]).
  split.
  - intros Hwrong. split.
    + unfold blacklistCharacters, check_blacklist_arguments.
      cbn [isinstance_bool negb]. rewrite Hbb.
      erewrite bind_raise; [reflexivity|].
      fold pools. change (_ :: _ :: _ :: _ :: _) with arguments.
      rewrite (bind_ok _ _ _ _ _ Hfilter), Hlen.
      by rewrite bool_decide_true.
    + unfold keygen, check_keygen_arguments.
      cbn [isinstance_bool negb]. rewrite Hkb.
      erewrite bind_raise; [reflexivity|].
      fold pools. rewrite (bind_ok _ _ _ _ _ Hkeygen), Hlen.
      by rewrite bool_decide_true.
  - intros Hright. split; intros Hwrong.
    + unfold blacklistCharacters, check_blacklist_arguments.
      cbn [isinstance_bool negb]. rewrite Hbb.
      erewrite bind_raise; [reflexivity|].
      fold pools. change (_ :: _ :: _ :: _ :: _) with arguments.
      rewrite (bind_ok _ _ _ _ _ Hfilter), !Hlen.
      rewrite bool_decide_false by (by intros []).
      by rewrite bool_decide_true.
    + unfold keygen, check_keygen_arguments.
      cbn [isinstance_bool negb]. rewrite Hkb.
      erewrite bind_raise; [reflexivity|].
      fold pools. rewrite (bind_ok _ _ _ _ _ Hkeygen), !Hlen.
      rewrite bool_decide_false by (by intros []).
      by rewrite bool_decide_true.
Qed.

(** *** What a call leaves alone *)

Lemma keeps_pure {A B} (part : world → B) (m : Py A) :
  (∀ w r w', m w = (r, w') → w' = w) → keeps part m.
Proof. intros Hm w r w' Hrun. by rewrite (Hm _ _ _ Hrun). Qed.

Lemma keeps_ret {A B} (part : world → B) (x : A) : keeps part (mret x).
Proof. by intros w r w' [= _ <-]. Qed.

Lemma keeps_raise {A B} (part : world → B) (e : exn) :
  keeps part (raise (A:=A) e).
Proof. by intros w r w' [= _ <-]. Qed.

Lemma keeps_bind {A B C} (part : world → C) (m : Py A) (f : A → Py B) :
  keeps part m → (∀ x, keeps part (f x)) → keeps part (m ≫= f).
Proof.
  intros Hm Hf w r w'. unfold mbind, Py_bind.
  destruct (m w) as [[e|x] w1] eqn:Hrun.
  - intros [= _ <-]. by eapply Hm.
  - intros Hrun'. rewrite (Hf _ _ _ _ Hrun'). by eapply Hm.
Qed.

Lemma keeps_for_each {A B C} (part : world → C) (body : A → B → Py A) xs :
  (∀ acc x, keeps part (body acc x)) → ∀ acc, keeps part (for_each body acc xs).
Proof.
  intros Hbody. induction xs as [|x xs IH]; intros acc.
  - apply keeps_ret.
  - cbn [for_each]. by apply keeps_bind.
Qed.

Lemma list_remove_world characterSet characterSets w r w' :
  list_remove characterSet characterSets w = (r, w') → w' = w.
Proof.
  revert r w'. induction characterSets as [|first others IH]; intros r w'.
  { by intros [= _ <-]. }
  cbn [list_remove]. destruct (decide (first = characterSet)).
  { by intros [= _ <-]. }
  unfold mbind, Py_bind.
  destruct (list_remove characterSet others w) as [[e|others'] w1];
    pose proof (IH _ _ eq_refl) as ->; by intros [= _ <-].
Qed.

Lemma remove_empty_sets_world characterSets w r w' :
  remove_empty_sets characterSets w = (r, w') → w' = w.
Proof.
  apply for_each_world. intros acc x w0 r0 w0'.
  destruct (Nat.eqb (length x) 0); [apply list_remove_world|].
  by intros [= _ <-].
Qed.

Lemma set_of_world v w r w' : set_of v w = (r, w') → w' = w.
Proof.
  unfold set_of, mbind, Py_bind.
  destruct (iterate v w) as [[e|items] w1] eqn:Hv;
    apply iterate_world in Hv as ->; by intros [= _ <-].
Qed.

(** A draw moves the generator and nothing else. *)
Lemma choice_keeps {A B} (part : world → B) (seq : list A) :
  (∀ h i o t t', part (World h i o t) = part (World h i o t')) →
  keeps part (choice (M:=Py) seq).
Proof.
  intros Hpart w r w'. unfold choice, Py_choice.
  destruct seq; intros [= _ <-]; [done|]. destruct w. apply Hpart.
Qed.

Lemma generate_keeps {B} (part : world → B) n characterSets key :
  (∀ h i o t t', part (World h i o t) = part (World h i o t')) →
  keeps part (generate (M:=Py) n characterSets key).
Proof.
  intros Hpart. revert key. induction n as [|n IH]; intros key.
  - apply keeps_ret.
  - cbn [generate]. apply keeps_bind; [by apply choice_keeps|].
    intros characterSet. apply keeps_bind; [by apply choice_keeps|].
    intros character. apply IH.
Qed.

(** Printing adds a line to the output and nothing else. *)
Lemma print_keeps {B} (part : world → B) line :
  (∀ h i o o' t, part (World h i o t) = part (World h i o' t)) →
  keeps part (print line).
Proof. intros Hpart w r w' [= _ <-]. destruct w. apply Hpart. Qed.

(** A slice assignment changes the heap and nothing else. *)
Lemma assign_all_keeps {B} (part : world → B) v items :
  (∀ h h' i o t, part (World h i o t) = part (World h' i o t)) →
  keeps part (assign_all v items).
Proof.
  intros Hpart w r w'. unfold assign_all, slice_assign, raise.
  destruct v; intros [= _ <-]; try done. destruct w. apply Hpart.
Qed.

Lemma obtain_keyLength_silent keyLength w r w' :
  obtain_keyLength keyLength (PyBool false) w = (r, w') → w' = w.
Proof.
  unfold obtain_keyLength. cbn [truthy_bool].
  destruct (is_None keyLength); [by intros [= _ <-]|].
  destruct (int_value keyLength <=? 0)%Z; by intros [= _ <-].
Qed.

Lemma generate_key_keeps {B} (part : world → B)
    numbers letters symbols keyLength printToConsole :
  (∀ h i o t t', part (World h i o t) = part (World h i o t')) →
  (truthy_bool printToConsole = true →
   ∀ h i o o' t, part (World h i o t) = part (World h i o' t)) →
  keeps part (generate_key numbers letters symbols keyLength printToConsole).
Proof.
  intros Hrng Hout. unfold generate_key.
  apply keeps_bind; [apply keeps_pure, iterate_world|]. intros numbersItems.
  apply keeps_bind; [apply keeps_pure, iterate_world|]. intros lettersItems.
  apply keeps_bind; [apply keeps_pure, iterate_world|]. intros symbolsItems.
  destruct (_ && _); [apply keeps_raise|].
  apply keeps_bind; [apply keeps_pure, remove_empty_sets_world|].
  intros characterSets.
  apply keeps_bind; [by apply generate_keeps|]. intros key.
  apply keeps_bind; [|intros _; apply keeps_ret].
  destruct (truthy_bool printToConsole); [|apply keeps_ret].
  by apply print_keeps, Hout.
Qed.

(** X1: [keygen] never changes a list object: whatever its arguments are
    and whether it returns a key or raises, every list of the heap is
    after the call what it was before. *)
Theorem keygen_keeps_lists
    numbers letters symbols keyLength printToConsole w r w' :
  keygen numbers letters symbols keyLength printToConsole w = (r, w') →
  heap w' = heap w.
Proof.
  revert w r w'. change (keeps heap
    (keygen numbers letters symbols keyLength printToConsole)).
  unfold keygen.
  apply keeps_bind; [apply keeps_pure, check_keygen_arguments_world|].
  intros _. apply keeps_bind.
  - intros w r w' Hrun. by apply obtain_keyLength_world in Hrun as [-> _].
  - intros keyLength'. by apply generate_key_keeps.
Qed.

(** X2: without the console [keygen] reads no line and prints nothing,
    whatever its arguments are and whatever the outcome. *)
Theorem keygen_silent numbers letters symbols keyLength w r w' :
  keygen numbers letters symbols keyLength (PyBool false) w = (r, w') →
  stdin w' = stdin w ∧ stdout w' = stdout w.
Proof.
  intros Hrun. split; revert w r w' Hrun.
  - change (keeps stdin
      (keygen numbers letters symbols keyLength (PyBool false))).
    unfold keygen.
    apply keeps_bind; [apply keeps_pure, check_keygen_arguments_world|].
    intros _. apply keeps_bind; [apply keeps_pure, obtain_keyLength_silent|].
    intros keyLength'. by apply generate_key_keeps.
  - change (keeps stdout
      (keygen numbers letters symbols keyLength (PyBool false))).
    unfold keygen.
    apply keeps_bind; [apply keeps_pure, check_keygen_arguments_world|].
    intros _. apply keeps_bind; [apply keeps_pure, obtain_keyLength_silent|].
    intros keyLength'. by apply generate_key_keeps.
Qed.


Lemma remove_blacklisted_keeps {B} (part : world → B)
    numbers letters symbols blacklist printToConsole :
  (∀ h h' i o t, part (World h i o t) = part (World h' i o t)) →
  (truthy_bool printToConsole = true →
   ∀ h i o o' t, part (World h i o t) = part (World h i o' t)) →
  keeps part
    (remove_blacklisted numbers letters symbols blacklist printToConsole).
Proof.
  intros Hheap Hout. unfold remove_blacklisted.
  do 7 (apply keeps_bind; [apply keeps_pure, set_of_world|]; intros ?).
  do 4 (apply keeps_bind; [by apply assign_all_keeps|]; intros _).
  apply keeps_bind; [apply keeps_pure, iterate_world|]. intros remaining.
  apply keeps_bind; [|intros _; apply keeps_ret].
  destruct (Nat.ltb 0 (length remaining)); [|apply keeps_ret].
  cbn [andb]. destruct (truthy_bool printToConsole); [|apply keeps_ret].
  by apply print_keeps, Hout.
Qed.

Lemma obtain_blacklist_silent numbers letters symbols blacklist w r w' :
  obtain_blacklist numbers letters symbols blacklist (PyBool false) w = (r, w') →
  w' = w.
Proof.
  unfold obtain_blacklist. cbn [truthy_bool andb].
  destruct (is_None blacklist); by intros [= _ <-].
Qed.

Lemma obtain_blacklist_rng
    numbers letters symbols blacklist printToConsole :
  keeps rng (obtain_blacklist numbers letters symbols blacklist printToConsole).
Proof.
  unfold obtain_blacklist.
  destruct (_ && _).
  - do 3 (apply keeps_bind; [apply keeps_pure, set_of_world|]; intros ?).
    apply keeps_bind.
    { intros w r w'. destruct (ask_blacklist _ (stdin w)) as [[r' rest] out].
      by intros [= _ <-]. }
    intros items. apply keeps_bind; [|intros ?; apply keeps_ret].
    by intros w r w' [= _ <-].
  - destruct (is_None blacklist); [apply keeps_raise|apply keeps_ret].
Qed.

(** X3: [blacklistCharacters] never draws from the random generator,
    whatever its arguments are and whatever the outcome; and without the
    console it reads no line and prints nothing. *)
Theorem blacklistCharacters_keeps_generator
    numbers letters symbols blacklist printToConsole w r w' :
  blacklistCharacters numbers letters symbols blacklist printToConsole w
  = (r, w') →
  rng w' = rng w ∧
  (printToConsole = PyBool false →
   stdin w' = stdin w ∧ stdout w' = stdout w).
Proof.
  intros Hrun. split; [|intros ->; split]; revert w r w' Hrun.
  - change (keeps rng (blacklistCharacters numbers letters symbols blacklist
                                           printToConsole)).
    unfold blacklistCharacters.
    apply keeps_bind; [apply keeps_pure, check_blacklist_arguments_world|].
    intros _. apply keeps_bind; [apply obtain_blacklist_rng|].
    intros blacklist'. by apply remove_blacklisted_keeps.
  - change (keeps stdin (blacklistCharacters numbers letters symbols blacklist
                                             (PyBool false))).
    unfold blacklistCharacters.
    apply keeps_bind; [apply keeps_pure, check_blacklist_arguments_world|].
    intros _. apply keeps_bind; [apply keeps_pure, obtain_blacklist_silent|].
    intros blacklist'. by apply remove_blacklisted_keeps.
  - change (keeps stdout (blacklistCharacters numbers letters symbols blacklist
                                              (PyBool false))).
    unfold blacklistCharacters.
    apply keeps_bind; [apply keeps_pure, check_blacklist_arguments_world|].
    intros _. apply keeps_bind; [apply keeps_pure, obtain_blacklist_silent|].
    intros blacklist'. by apply remove_blacklisted_keeps.
Qed.


(** *** What passing the checks means *)

Lemma for_each_cons_inv {A B} (body : A → B → Py A) acc x xs w r w' :
  for_each body acc (x :: xs) w = (inr r, w') →
  ∃ acc1 w1, body acc x w = (inr acc1, w1) ∧
             for_each body acc1 xs w1 = (inr r, w').
Proof.
  cbn [for_each]. unfold mbind, Py_bind.
  destruct (body acc x w) as [[e|acc1] w1]; [done|]. by exists acc1, w1.
Qed.

Lemma single_characters_strings items :
  forallb single_character items = true →
  items = PyStr <$> strings_of items ∧
  Forall (λ c, String.length c = 1) (strings_of items).
Proof.
  unfold strings_of. induction items as [|v items IH]; [done|].
  cbn [forallb]. intros [Hv Hitems]%andb_prop.
  destruct v as [| | |s| |]; try done. cbn in Hv. apply Nat.eqb_eq in Hv.
  destruct (IH Hitems) as [IH1 IH2]. cbn. split; [by f_equal|].
  by constructor.
Qed.

Lemma list_of_passing_items w v :
  isinstance_list v = true →
  forallb single_character (items_of w v) = true →
  (∀ l, v = PyList l → is_Some (heap w !! l)) →
  ∃ l chars, v = PyList l ∧ pool w l chars.
Proof.
  destruct v as [| | | | |l]; try done. intros _ Hitems Hl.
  destruct (Hl l eq_refl) as [items Hlookup].
  cbn [items_of] in Hitems. rewrite Hlookup in Hitems. cbn in Hitems.
  apply single_characters_strings in Hitems as [Hitems Hsingle].
  exists l, (strings_of items). split; [done|]. split; [|done].
  by rewrite Hlookup, <- Hitems.
Qed.

Lemma wrong_type_none arguments :
  wrong_type arguments = [] →
  Forall (λ argument, isinstance_list argument.2 = true) arguments.
Proof.
  induction arguments as [|[name v] arguments IH]; [done|].
  rewrite wrong_type_cons. destruct (isinstance_list v) eqn:Hv; [|done].
  intros Hrest. constructor; [done|by apply IH].
Qed.

Lemma wrong_characters_none w arguments :
  wrong_characters w arguments = [] →
  Forall (λ argument,
            forallb single_character (items_of w argument.2) = true)
         arguments.
Proof.
  induction arguments as [|[name v] arguments IH]; [done|].
  rewrite wrong_characters_cons.
  destruct (forallb single_character (items_of w v)) eqn:Hv; [|done].
  intros Hrest. constructor; [done|by apply IH].
Qed.

Lemma check_keygen_argument_iterable fails name v w r w' :
  check_keygen_argument fails (name, v) w = (inr r, w') → iterable v = true.
Proof. destruct fails. by destruct v. Qed.

Lemma check_keygen_loop_iterable arguments :
  ∀ fails w r w',
    for_each check_keygen_argument fails arguments w = (inr r, w') →
    Forall (λ argument, iterable argument.2 = true) arguments.
Proof.
  induction arguments as [|[name v] arguments IH]; intros fails w r w';
    [done|].
  intros (fails1 & w1 & Hstep & Hrest)%for_each_cons_inv.
  constructor; [by eapply check_keygen_argument_iterable|by eapply IH].
Qed.

(** When the checks of [keygen] pass, the three pools are lists of single
    characters, [printToConsole] is a bool, and the key length is None or
    an integer. *)
Lemma check_keygen_arguments_passed
    numbers letters symbols keyLength printToConsole w w' :
  check_keygen_arguments numbers letters symbols keyLength printToConsole w
  = (inr tt, w') →
  (∀ l, PyList l ∈ [numbers; letters; symbols] → is_Some (heap w !! l)) →
  w' = w ∧
  isinstance_bool printToConsole = true ∧
  is_None keyLength || isinstance_int keyLength = true ∧
  ∃ ln ll ls N L S,
    numbers = PyList ln ∧ letters = PyList ll ∧ symbols = PyList ls ∧
    pool w ln N ∧ pool w ll L ∧ pool w ls S.
Proof.
  intros Hcheck Hheap.
  pose proof (check_keygen_arguments_world _ _ _ _ _ _ _ _ Hcheck) as ->.
  split; [done|]. revert Hcheck. unfold check_keygen_arguments.
  destruct (isinstance_bool printToConsole); [|done]. cbn [negb].
  destruct (is_None keyLength || isinstance_int keyLength) eqn:Hk;
    [|by destruct keyLength].
  replace (negb (is_None keyLength) && negb (isinstance_int keyLength))
    with false by (by destruct keyLength).
  unfold mbind, Py_bind.
  destruct (for_each _ _ _ w) as [[e|[listFails characterFails]] w1]
    eqn:Hloop; [done|].
  pose proof (check_keygen_loop_iterable _ _ _ _ _ Hloop) as Hiter.
  rewrite (check_keygen_loop _ _ Hiter) in Hloop.
  injection Hloop as <- <- <-. cbn [app].
  destruct (wrong_type _) as [|? ?] eqn:Htype; [|done].
  destruct (wrong_characters w _) as [|? ?] eqn:Hchars; [|done].
  intros _. split; [done|]. split; [done|].
  apply wrong_type_none in Htype. apply wrong_characters_none in Hchars.
  inversion Htype as [|? ? Hn Htype1]; subst.
  inversion Htype1 as [|? ? Hl Htype2]; subst.
  inversion Htype2 as [|? ? Hs _]; subst.
  inversion Hchars as [|? ? Hn' Hchars1]; subst.
  inversion Hchars1 as [|? ? Hl' Hchars2]; subst.
  inversion Hchars2 as [|? ? Hs' _]; subst.
  cbn [snd] in *.
  destruct (list_of_passing_items w numbers Hn Hn')
    as (ln & N & -> & HN);
    [intros l ->; apply Hheap; rewrite !elem_of_cons; auto|].
  destruct (list_of_passing_items w letters Hl Hl')
    as (ll & L & -> & HL);
    [intros l ->; apply Hheap; rewrite !elem_of_cons; auto|].
  destruct (list_of_passing_items w symbols Hs Hs')
    as (ls & S & -> & HS);
    [intros l ->; apply Hheap; rewrite !elem_of_cons; auto|].
  by exists ln, ll, ls, N, L, S.
Qed.


Lemma bind_inv {A B} (m : Py A) (f : A → Py B) w r w' :
  (m ≫= f) w = (r, w') →
  (∃ e, m w = (inl e, w') ∧ r = inl e) ∨
  (∃ x w1, m w = (inr x, w1) ∧ f x w1 = (r, w')).
Proof.
  unfold mbind, Py_bind. destruct (m w) as [[e|x] w1].
  - intros [= <- <-]. left. by exists e.
  - intros Hrun. right. by exists x, w1.
Qed.

(** The loop that asks for a key length gives a positive integer or stops
    at the end of the input. *)
Lemma ask_keyLength_result lines :
  ∀ keyLength r rest out,
    is_None keyLength || isinstance_int keyLength = true →
    ask_keyLength keyLength lines = (r, rest, out) →
    (∃ keyLength', r = inr keyLength' ∧ isinstance_int keyLength' = true ∧
                   (1 ≤ int_value keyLength')%Z) ∨
    (r = inl EOFError ∧ rest = []).
Proof.
  induction lines as [|line lines IH]; intros keyLength r rest out Hk.
  - cbn [ask_keyLength].
    destruct (negb (is_None keyLength) && (0 <? int_value keyLength)%Z)
      eqn:Hpos; intros [= <- <- <-]; [left|by right].
    exists keyLength. apply andb_prop in Hpos as [Hnone Hpos].
    split; [done|]. split; [by destruct keyLength|lia].
  - cbn [ask_keyLength].
    destruct (negb (is_None keyLength) && (0 <? int_value keyLength)%Z)
      eqn:Hpos.
    { intros [= <- <- <-]. left. exists keyLength.
      apply andb_prop in Hpos as [Hnone Hpos].
      split; [done|]. split; [by destruct keyLength|lia]. }
    destruct (int_of_string line) as [z|].
    + destruct (0 <? z)%Z eqn:Hz.
      { intros [= <- <- <-]. left. exists (PyInt z).
        split; [done|]. split; [done|]. cbn. lia. }
      destruct (ask_keyLength (PyInt z) lines) as [[r' rest'] out'] eqn:Hask.
      intros [= <- <- <-]. eapply IH; [|exact Hask]. done.
    + destruct (ask_keyLength keyLength lines) as [[r' rest'] out'] eqn:Hask.
      intros [= <- <- <-]. eapply IH; [|exact Hask]. done.
Qed.

Lemma obtain_keyLength_result keyLength p w keyLength' w1 :
  is_None keyLength || isinstance_int keyLength = true →
  obtain_keyLength keyLength (PyBool p) w = (inr keyLength', w1) →
  isinstance_int keyLength' = true ∧ (1 ≤ int_value keyLength')%Z ∧
  (p = false → keyLength' = keyLength).
Proof.
  intros Hk. unfold obtain_keyLength. cbn [truthy_bool]. destruct p.
  - destruct (ask_keyLength keyLength (stdin w)) as [[r rest] out] eqn:Hask.
    intros [= -> <-].
    destruct (ask_keyLength_result _ _ _ _ _ Hk Hask)
      as [(keyLength'' & [= <-] & Hint & Hpos)|[? _]]; done.
  - destruct (is_None keyLength) eqn:Hnone; [done|].
    destruct (int_value keyLength <=? 0)%Z eqn:Hle; [done|].
    intros [= <- <-]. split; [done|]. split; [lia|done].
Qed.

(** X4: every key that [keygen] returns, with or without the console and
    whatever arguments it was called with, comes with a key length that is
    an integer of at least 1, and the key has exactly that many
    characters; without the console the key length returned is the one
    that was passed. *)
Theorem returned_key_has_returned_length
    numbers letters symbols keyLength printToConsole w key keyLength' w' :
  (∀ l, PyList l ∈ [numbers; letters; symbols] → is_Some (heap w !! l)) →
  keygen numbers letters symbols keyLength printToConsole w
  = (inr (key, keyLength'), w') →
  isinstance_int keyLength' = true ∧
  (1 ≤ int_value keyLength')%Z ∧
  String.length key = Z.to_nat (int_value keyLength') ∧
  (printToConsole = PyBool false → keyLength' = keyLength).
Proof.
  intros Hheap Hrun.
  destruct (bind_inv _ _ _ _ _ Hrun)
    as [(e & _ & [=])|([] & w1 & Hcheck & Hrun1)].
  destruct (check_keygen_arguments_passed _ _ _ _ _ _ _ Hcheck Hheap)
    as (-> & Hp & Hk & ln & ll & ls & N & L & S & -> & -> & -> & HN & HL & HS).
  destruct printToConsole as [|p| | | |]; try done. clear Hp.
  destruct (bind_inv _ _ _ _ _ Hrun1)
    as [(e & _ & [=])|(keyLength1 & w2 & Hobtain & Hrun2)].
  destruct (obtain_keyLength_result _ _ _ _ _ Hk Hobtain)
    as (Hint & Hpos & Hsame).
  destruct (keygen_returns _ _ _ _ _ _ _ _ _ _ _ _ HN HL HS Hrun)
    as (Hne & -> & _).
  assert (keyLength' = keyLength1) as ->.
  { apply obtain_keyLength_world in Hobtain as [Hheap2 _].
    pose proof (pool_same_heap _ _ _ _ Hheap2 HN) as HN2.
    pose proof (pool_same_heap _ _ _ _ Hheap2 HL) as HL2.
    pose proof (pool_same_heap _ _ _ _ Hheap2 HS) as HS2.
    destruct (generate_key_run _ _ _ _ _ _ _ keyLength1 p HN2 HL2 HS2 Hne)
      as (w3 & Hrun3 & _).
    rewrite Hrun3 in Hrun2. by injection Hrun2 as _ <- _. }
  split; [done|]. split; [done|]. split; [|by intros [= ->]; apply Hsame].
  set (chars := _ <$> seq 0 _).
  assert (Hsingle : Forall (λ c, String.length c = 1) chars).
  { apply Forall_forall. intros c Hc.
    apply list_elem_of_fmap in Hc as (i & -> & _).
    by eapply (drawn_in_pools w). }
  apply concat_single_characters in Hsingle as [_ ->].
  unfold chars. by rewrite length_fmap, length_seq.
Qed.

(** X5: a call of [keygen] without the console that fails has changed
    nothing: the heap, the console and the random generator are as they
    were, whatever the arguments are. *)
Theorem failed_keygen_changes_nothing
    numbers letters symbols keyLength w e w' :
  (∀ l, PyList l ∈ [numbers; letters; symbols] → is_Some (heap w !! l)) →
  keygen numbers letters symbols keyLength (PyBool false) w = (inl e, w') →
  w' = w.
Proof.
  intros Hheap Hrun.
  destruct (bind_inv _ _ _ _ _ Hrun)
    as [(e' & Hcheck & _)|([] & w1 & Hcheck & Hrun1)].
  { by apply check_keygen_arguments_world in Hcheck. }
  destruct (check_keygen_arguments_passed _ _ _ _ _ _ _ Hcheck Hheap)
    as (-> & _ & Hk & ln & ll & ls & N & L & S & -> & -> & -> & HN & HL & HS).
  destruct (bind_inv _ _ _ _ _ Hrun1)
    as [(e' & Hobtain & _)|(keyLength1 & w2 & Hobtain & Hrun2)].
  { by apply obtain_keyLength_silent in Hobtain. }
  apply obtain_keyLength_silent in Hobtain as ->.
  destruct (decide (N = [] ∧ L = [] ∧ S = [])) as [(-> & -> & ->)|Hne].
  - rewrite (generate_key_all_empty _ _ _ _ _ _ HN HL HS) in Hrun2.
    by injection Hrun2 as _ <-.
  - destruct (generate_key_run _ _ _ _ _ _ _ keyLength1 false HN HL HS Hne)
      as (w3 & Hrun3 & _).
    by rewrite Hrun3 in Hrun2.
Qed.


Lemma check_blacklist_argument_listFails
    listFails characterFails name v w listFails' characterFails' w' :
  check_blacklist_argument (listFails, characterFails) (name, v) w
  = (inr (listFails', characterFails'), w') →
  listFails'
  = if negb (String.eqb name "blacklist") && negb (isinstance_list v)
    then (listFails ++ [name])%list else listFails.
Proof.
  unfold check_blacklist_argument, mbind, Py_bind.
  destruct (negb (String.eqb name "blacklist")), (isinstance_list v);
    cbn [negb andb]; (destruct (negb (is_None v)); [|by intros [= <- _ _]]);
    (destruct (iterate v w) as [[e|items] w1]; [done|]);
    destruct (negb (forallb single_character items)); by intros [= <- _ _].
Qed.

(** When the checks of [blacklistCharacters] pass, the three pools are
    lists, and the blacklist is None or a list. *)
Lemma check_blacklist_arguments_lists
    numbers letters symbols blacklist printToConsole w w' :
  check_blacklist_arguments numbers letters symbols blacklist printToConsole w
  = (inr tt, w') →
  isinstance_list numbers = true ∧ isinstance_list letters = true ∧
  isinstance_list symbols = true ∧
  is_None blacklist || isinstance_list blacklist = true.
Proof.
  unfold check_blacklist_arguments.
  destruct (negb (isinstance_bool printToConsole)); [done|].
  destruct (is_None blacklist || isinstance_list blacklist) eqn:Hb;
    [|by destruct blacklist].
  replace (negb (is_None blacklist) && negb (isinstance_list blacklist))
    with false by (by destruct blacklist).
  intros [(e & _ & [=])|([listFails characterFails] & w1 & Hloop & Hrest)]
    %bind_inv.
  apply for_each_cons_inv in Hloop as ([lf1 cf1] & w2 & H1 & Hloop).
  apply for_each_cons_inv in Hloop as ([lf2 cf2] & w3 & H2 & Hloop).
  apply for_each_cons_inv in Hloop as ([lf3 cf3] & w4 & H3 & Hloop).
  apply for_each_cons_inv in Hloop as ([lf4 cf4] & w5 & H4 & Hloop).
  injection Hloop as <- <- <-.
  apply check_blacklist_argument_listFails in H1, H2, H3, H4.
  cbn [String.eqb Ascii.eqb Bool.eqb negb andb] in H1, H2, H3, H4.
  subst lf1 lf2 lf3 lf4. revert Hrest.
  destruct (isinstance_list numbers), (isinstance_list letters),
    (isinstance_list symbols); cbn; done.
Qed.

(** On list arguments the last block of [blacklistCharacters] always
    returns the blacklist. *)
Lemma remove_blacklisted_returns ln ll ls lb printToConsole w :
  ∃ w',
    remove_blacklisted (PyList ln) (PyList ll) (PyList ls) (PyList lb)
                       printToConsole w
    = (inr (PyList lb), w').
Proof.
  unfold remove_blacklisted.
  cbv [set_of iterate contents mbind Py_bind mret Py_ret assign_all
       slice_assign].
  destruct (_ && _); by eexists.
Qed.

(** X6: a call of [blacklistCharacters] without the console that fails
    has changed nothing: no pool has been touched, nothing has been
    printed, whatever the arguments are. *)
Theorem failed_filter_changes_nothing
    numbers letters symbols blacklist w e w' :
  blacklistCharacters numbers letters symbols blacklist (PyBool false) w
  = (inl e, w') →
  w' = w.
Proof.
  intros [(e' & Hcheck & _)|([] & w1 & Hcheck & Hrun)]%bind_inv.
  { by apply check_blacklist_arguments_world in Hcheck. }
  pose proof (check_blacklist_arguments_world _ _ _ _ _ _ _ _ Hcheck) as ->.
  apply check_blacklist_arguments_lists in Hcheck as (Hn & Hl & Hs & Hb).
  apply bind_inv in Hrun
    as [(e' & Hobtain & _)|(blacklist1 & w2 & Hobtain & Hrun)].
  { by apply obtain_blacklist_silent in Hobtain. }
  pose proof (obtain_blacklist_silent _ _ _ _ _ _ _ Hobtain) as ->.
  revert Hobtain. unfold obtain_blacklist. cbn [truthy_bool andb].
  destruct blacklist as [| | | | |lb]; try done. intros [= <-].
  destruct numbers as [| | | | |ln]; try done.
  destruct letters as [| | | | |ll]; try done.
  destruct symbols as [| | | | |ls]; try done.
  destruct (remove_blacklisted_returns ln ll ls lb (PyBool false) w)
    as [w3 Hrun'].
  by rewrite Hrun' in Hrun.
Qed.


(** *** The key length at the console *)

Lemma ask_keyLength_asks_again bad :
  ∀ keyLength line z rest,
    negb (is_None keyLength) && (0 <? int_value keyLength)%Z = false →
    Forall turned_down bad →
    int_of_string line = Some z → (0 < z)%Z →
    ask_keyLength keyLength (bad ++ line :: rest)%list
    = (inr (PyInt z), rest,
       (asked_again (length bad) ++ [length_prompt])%list).
Proof.
  induction bad as [|first bad IH]; intros keyLength line z rest Hk Hbad Hz Hpos.
  - cbn [app ask_keyLength length asked_again]. rewrite Hk, Hz.
    by replace (0 <? z)%Z with true by lia.
  - inversion Hbad as [|? ? Hfirst Hbad']; subst.
    cbn [app ask_keyLength length asked_again]. rewrite Hk.
    unfold turned_down in Hfirst.
    destruct (int_of_string first) as [z'|].
    + replace (0 <? z')%Z with false by lia.
      rewrite (IH (PyInt z') line z rest); [done| |done..].
      cbn. lia.
    + by rewrite (IH keyLength line z rest).
Qed.

(** The run of the last block of [keygen] with what it prints. *)
Lemma generate_key_prints w ln ll ls N L S keyLength p :
  pool w ln N → pool w ll L → pool w ls S →
  ¬ (N = [] ∧ L = [] ∧ S = []) →
  ∃ key w',
    generate_key (PyList ln) (PyList ll) (PyList ls) keyLength (PyBool p) w
    = (inr (key, keyLength), w') ∧
    stdin w' = stdin w ∧
    stdout w'
    = (if p then (stdout w ++ [password_message key])%list else stdout w).
Proof.
  intros HN HL HS Hne. unfold generate_key.
  rewrite (bind_ok _ _ _ _ _ (iterate_pool _ _ _ HN)).
  rewrite (bind_ok _ _ _ _ _ (iterate_pool _ _ _ HL)).
  rewrite (bind_ok _ _ _ _ _ (iterate_pool _ _ _ HS)).
  rewrite !length_fmap, !strings_of_fmap.
  replace (Nat.eqb (length N) 0 && Nat.eqb (length L) 0
           && Nat.eqb (length S) 0) with false
    by (destruct N, L, S; cbn; (done || tauto)).
  rewrite (bind_ok _ _ _ _ _ (remove_empty_sets_three N L S w)).
  destruct (generate_run (Z.to_nat (int_value keyLength))
              (non_empty [N; L; S]) [] w
              (non_empty_three _ _ _ Hne) (non_empty_Forall _))
    as (tape & Hrun & Htape).
  rewrite (bind_ok _ _ _ _ _ Hrun). cbn [app truthy_bool].
  destruct p; eexists _, _; (split; [reflexivity|]); by cbn [stdin stdout].
Qed.

(** X7: at the console, [keygen] turns down every line that is not a
    positive integer with a message and asks again; the first line that
    is a positive integer becomes the key length.  The call returns a key
    of that length, has read exactly the lines up to that one, and has
    printed the prompts and, last, the very key it returns. *)
Theorem keygen_asks_until_positive
    w ln ll ls N L S keyLength bad line z rest :
  pool w ln N → pool w ll L → pool w ls S →
  ¬ (N = [] ∧ L = [] ∧ S = []) →
  keyLength = PyNone ∨
    (isinstance_int keyLength = true ∧ (int_value keyLength ≤ 0)%Z) →
  stdin w = (bad ++ line :: rest)%list →
  Forall turned_down bad →
  int_of_string line = Some z → (0 < z)%Z →
  ∃ key w',
    keygen (PyList ln) (PyList ll) (PyList ls) keyLength (PyBool true) w
    = (inr (key, PyInt z), w') ∧
    String.length key = Z.to_nat z ∧
    stdin w' = rest ∧
    stdout w'
    = (stdout w ++ asked_again (length bad)
       ++ [length_prompt; password_message key])%list.
Proof.
  intros HN HL HS Hne Hk Hin Hbad Hz Hpos.
  assert (Hk1 : is_None keyLength || isinstance_int keyLength = true)
    by (destruct Hk as [->|[-> _]]; [done|apply orb_true_r]).
  assert (Hk2 : negb (is_None keyLength) && (0 <? int_value keyLength)%Z
                = false).
  { destruct Hk as [->|[_ Hle]]; [done|].
    apply andb_false_iff. right. lia. }
  set (w1 := World (heap w) rest
               (stdout w ++ asked_again (length bad) ++ [length_prompt])
               (rng w)).
  assert (Hobtain :
    obtain_keyLength keyLength (PyBool true) w = (inr (PyInt z), w1)).
  { unfold obtain_keyLength. cbn [truthy_bool].
    by rewrite Hin, (ask_keyLength_asks_again _ _ _ _ _ Hk2 Hbad Hz Hpos). }
  destruct (generate_key_prints w1 ln ll ls N L S (PyInt z) true)
    as (key & w' & Hrun & Hin' & Hout'); [done..|].
  assert (Hkeygen :
    keygen (PyList ln) (PyList ll) (PyList ls) keyLength (PyBool true) w
    = (inr (key, PyInt z), w')).
  { unfold keygen.
    rewrite (bind_ok _ _ _ _ _
               (check_keygen_arguments_ok _ _ _ _ _ _ _ _ true HN HL HS Hk1)).
    by rewrite (bind_ok _ _ _ _ _ Hobtain). }
  destruct (keygen_returns _ _ _ _ _ _ _ _ _ _ _ _ HN HL HS Hkeygen)
    as (_ & Hkey & _).
  exists key, w'. split; [exact Hkeygen|].
  split; [|split; [done|]].
  - rewrite Hkey. set (chars := _ <$> seq 0 _).
    assert (Hsingle : Forall (λ c, String.length c = 1) chars).
    { apply Forall_forall. intros c Hc.
      apply list_elem_of_fmap in Hc as (i & -> & _).
      by eapply (drawn_in_pools w). }
    apply concat_single_characters in Hsingle as [_ ->].
    unfold chars. by rewrite length_fmap, length_seq.
  - rewrite Hout'. unfold w1. cbn [stdout].
    by rewrite <- !app_assoc.
Qed.

(** X8: at the console, a key length that is already a positive integer
    is used as it is: [keygen] asks nothing and reads no line, and prints
    nothing but the key it returns. *)
Theorem keygen_keeps_positive_keyLength w ln ll ls N L S keyLength :
  pool w ln N → pool w ll L → pool w ls S →
  ¬ (N = [] ∧ L = [] ∧ S = []) →
  isinstance_int keyLength = true → (1 ≤ int_value keyLength)%Z →
  ∃ key w',
    keygen (PyList ln) (PyList ll) (PyList ls) keyLength (PyBool true) w
    = (inr (key, keyLength), w') ∧
    stdin w' = stdin w ∧
    stdout w' = (stdout w ++ [password_message key])%list.
Proof.
  intros HN HL HS Hne Hint Hpos.
  assert (Hobtain :
    obtain_keyLength keyLength (PyBool true) w = (inr keyLength, w)).
  { unfold obtain_keyLength. cbn [truthy_bool].
    destruct (stdin w) as [|line lines] eqn:Hin; cbn [ask_keyLength];
      replace (negb (is_None keyLength) && (0 <? int_value keyLength)%Z)
        with true
        by (symmetry; apply andb_true_iff; split;
            [by destruct keyLength|lia]);
      rewrite app_nil_r, <- Hin; by destruct w. }
  destruct (generate_key_prints w ln ll ls N L S keyLength true)
    as (key & w' & Hrun & Hin' & Hout'); [done..|].
  exists key, w'. split; [|done].
  unfold keygen.
  rewrite (bind_ok _ _ _ _ _
             (check_keygen_arguments_ok _ _ _ _ _ _ _ _ true HN HL HS
                (isinstance_int_accepted _ Hint))).
  by rewrite (bind_ok _ _ _ _ _ Hobtain).
Qed.

(** X9: at the console, on valid pools that are not all empty, the only
    way for [keygen] to fail is the end of the input: it never raises for
    a line that is not a number or for a key length that is not positive. *)
Theorem keygen_console_fails_at_end_of_input
    w ln ll ls N L S keyLength e w' :
  pool w ln N → pool w ll L → pool w ls S →
  ¬ (N = [] ∧ L = [] ∧ S = []) →
  is_None keyLength || isinstance_int keyLength = true →
  keygen (PyList ln) (PyList ll) (PyList ls) keyLength (PyBool true) w
  = (inl e, w') →
  e = EOFError ∧ stdin w' = [].
Proof.
  intros HN HL HS Hne Hk. unfold keygen.
  rewrite (bind_ok _ _ _ _ _
             (check_keygen_arguments_ok _ _ _ _ _ _ _ _ true HN HL HS Hk)).
  intros [(e' & Hobtain & [= <-])|(keyLength1 & w1 & Hobtain & Hrun)]%bind_inv.
  - revert Hobtain. unfold obtain_keyLength. cbn [truthy_bool].
    destruct (ask_keyLength keyLength (stdin w)) as [[r rest] out] eqn:Hask.
    intros [= -> <-].
    by destruct (ask_keyLength_result _ _ _ _ _ Hk Hask)
      as [(? & [=] & _)|[[= ->] ->]].
  - apply obtain_keyLength_world in Hobtain as [Hheap _].
    pose proof (pool_same_heap _ _ _ _ Hheap HN) as HN1.
    pose proof (pool_same_heap _ _ _ _ Hheap HL) as HL1.
    pose proof (pool_same_heap _ _ _ _ Hheap HS) as HS1.
    destruct (generate_key_run _ _ _ _ _ _ _ keyLength1 true HN1 HL1 HS1 Hne)
      as (w2 & Hrun2 & _).
    by rewrite Hrun2 in Hrun.
Qed.


(** *** The blacklist at the console *)

Lemma nothing_usable (N L S : list string) line :
  Nat.eqb (size ((list_to_set N ∪ list_to_set L ∪ list_to_set S : gset string)
                 ∖ list_to_set (characters line))) 0 = true
  ↔ names_every_character N L S line.
Proof.
  clear. rewrite Nat.eqb_eq, size_empty_iff. unfold names_every_character.
  split.
  - intros Hempty c Hc. destruct (decide (c ∈ characters line)); [done|].
    exfalso. apply (not_elem_of_empty (C:=gset string) c). rewrite <- Hempty.
    rewrite elem_of_difference, !elem_of_union, !elem_of_list_to_set. tauto.
  - intros Hall c. split; [|by intros ?%not_elem_of_empty].
    rewrite elem_of_difference, !elem_of_union, !elem_of_list_to_set.
    intros [Hc Hline]. destruct Hline. apply Hall. tauto.
Qed.

Lemma ask_blacklist_told_again (N L S : list string) bad :
  ∀ line rest,
    Forall (names_every_character N L S) bad →
    ¬ names_every_character N L S line →
    ask_blacklist (list_to_set N ∪ list_to_set L ∪ list_to_set S)
                  (bad ++ line :: rest)%list
    = (inr (characters line), rest,
       (told_again (length bad) ++ [blacklist_prompt])%list).
Proof.
  induction bad as [|first bad IH]; intros line rest Hbad Hline.
  - cbn [app ask_blacklist length told_again].
    destruct (Nat.eqb _ 0) eqn:Hsize; [|done].
    by apply nothing_usable in Hsize.
  - inversion Hbad as [|? ? Hfirst Hbad']; subst.
    cbn [app ask_blacklist length told_again].
    apply nothing_usable in Hfirst. rewrite Hfirst.
    by rewrite (IH line rest).
Qed.

Lemma ask_blacklist_never (N L S : list string) lines :
  Forall (names_every_character N L S) lines →
  ∃ out,
    ask_blacklist (list_to_set N ∪ list_to_set L ∪ list_to_set S) lines
    = (inl EOFError, [], out).
Proof.
  induction 1 as [|line lines Hline _ [out IH]]; [by eexists|].
  cbn [ask_blacklist]. apply nothing_usable in Hline. rewrite Hline, IH.
  by eexists.
Qed.

(** The loop that asks for a blacklist gives single characters that leave
    some character of the pools out, or stops at the end of the input. *)
Lemma ask_blacklist_result (N L S : list string) lines r rest out :
  ask_blacklist (list_to_set N ∪ list_to_set L ∪ list_to_set S) lines
  = (r, rest, out) →
  (∃ line, r = inr (characters line) ∧ ¬ names_every_character N L S line) ∨
  (r = inl EOFError ∧ rest = []).
Proof.
  revert r rest out.
  induction lines as [|line lines IH]; intros r rest out.
  { intros [= <- <- _]. by right. }
  cbn [ask_blacklist]. destruct (Nat.eqb _ 0) eqn:Hsize.
  - destruct (ask_blacklist _ lines) as [[r' rest'] out'] eqn:Hask.
    intros [= <- <- _]. by eapply IH.
  - intros [= <- _ _]. left. exists line. split; [done|].
    intros Hall%nothing_usable. by rewrite Hall in Hsize.
Qed.

(** The run of [blacklistCharacters] at the console, by what the loop
    for the blacklist gives. *)
Lemma blacklistCharacters_console w ln ll ls N L S :
  pool w ln N → pool w ll L → pool w ls S →
  blacklistCharacters (PyList ln) (PyList ll) (PyList ls) PyNone (PyBool true) w
  = match ask_blacklist (list_to_set N ∪ list_to_set L ∪ list_to_set S)
                        (stdin w) with
    | (inl e, rest, out) =>
        (inl e, World (heap w) rest (stdout w ++ out) (rng w))
    | (inr B, rest, out) =>
        let lb := fresh (dom (heap w)) in
        let unused :=
          list_of_set 3
            (list_to_set B ∖
               (list_to_set N ∪ list_to_set L ∪ list_to_set S)) in
        (inr (PyList lb),
         World (filtered_heap (<[lb := PyStr <$> B]> (heap w))
                              ln ll ls lb N L S B)
               rest
               (if Nat.ltb 0 (length unused)
                then (stdout w ++ out) ++ [unused_message unused]
                else stdout w ++ out)
               (rng w))
    end.
Proof.
  intros HN HL HS. unfold blacklistCharacters.
  rewrite (bind_ok _ _ _ _ _
             (check_blacklist_arguments_absent _ _ _ _ _ _ _ true HN HL HS)).
  assert (Hobtain :
    obtain_blacklist (PyList ln) (PyList ll) (PyList ls) PyNone (PyBool true) w
    = match ask_blacklist (list_to_set N ∪ list_to_set L ∪ list_to_set S)
                          (stdin w) with
      | (inl e, rest, out) =>
          (inl e, World (heap w) rest (stdout w ++ out) (rng w))
      | (inr B, rest, out) =>
          (inr (PyList (fresh (dom (heap w)))),
           World (<[fresh (dom (heap w)) := PyStr <$> B]> (heap w)) rest
                 (stdout w ++ out) (rng w))
      end).
  { unfold obtain_blacklist. cbn [truthy_bool isinstance_list negb andb].
    rewrite (bind_ok _ _ _ _ _ (set_of_pool _ _ _ HN)).
    rewrite (bind_ok _ _ _ _ _ (set_of_pool _ _ _ HL)).
    rewrite (bind_ok _ _ _ _ _ (set_of_pool _ _ _ HS)).
    unfold mbind, Py_bind.
    by destruct (ask_blacklist _ (stdin w)) as [[[e|B] rest] out]. }
  destruct (ask_blacklist _ (stdin w)) as [[[e|B] rest] out] eqn:Hask.
  { by rewrite (bind_raise _ _ _ _ _ Hobtain). }
  rewrite (bind_ok _ _ _ _ _ Hobtain).
  set (lb := fresh (dom (heap w))).
  set (w1 := World (<[lb := PyStr <$> B]> (heap w)) rest (stdout w ++ out)
                   (rng w)).
  assert (Hfresh : lb ∉ dom (heap w)) by apply is_fresh.
  pose proof (pool_other_object w w1 _ _ lb _ HN Hfresh eq_refl) as HN1.
  pose proof (pool_other_object w w1 _ _ lb _ HL Hfresh eq_refl) as HL1.
  pose proof (pool_other_object w w1 _ _ lb _ HS Hfresh eq_refl) as HS1.
  assert (HB1 : pool w1 lb B).
  { split; [apply lookup_insert_eq|]. by eapply ask_blacklist_single. }
  rewrite (remove_blacklisted_run _ _ _ _ _ _ _ _ _ true HN1 HL1 HS1 HB1).
  cbn [heap stdin stdout rng w1]. by rewrite length_fmap, andb_true_r.
Qed.


Lemma survivors_pool w w' l X B :
  pool w l X → survivors (heap w') l X B →
  ∃ X', pool w' l X' ∧ NoDup X' ∧ ∀ c, c ∈ X' ↔ c ∈ X ∧ c ∉ B.
Proof.
  intros [_ HX] (items & Hitems & Hdup & Hiff). exists items.
  split; [|done]. split; [done|].
  apply Forall_forall. intros c [Hc _]%Hiff.
  rewrite Forall_forall in HX. by apply HX.
Qed.

(** The pools after a run of [blacklistCharacters] at the console that
    read the blacklist [B]. *)
Lemma console_filter_pools w ln ll ls N L S B :
  pool w ln N → pool w ll L → pool w ls S →
  Forall (λ c, String.length c = 1) B →
  let lb := fresh (dom (heap w)) in
  let h' := filtered_heap (<[lb := PyStr <$> B]> (heap w)) ln ll ls lb N L S B in
  survivors h' ln N B ∧ survivors h' ll L B ∧ survivors h' ls S B ∧
  dom h' = {[lb]} ∪ dom (heap w) ∧
  (∀ l, l ≠ ln → l ≠ ll → l ≠ ls → l ≠ lb → h' !! l = heap w !! l).
Proof.
  intros HN HL HS HB lb h'.
  set (w1 := World (<[lb := PyStr <$> B]> (heap w)) [] [] (rng w)).
  assert (Hfresh : lb ∉ dom (heap w)) by apply is_fresh.
  pose proof (pool_other_object w w1 _ _ lb _ HN Hfresh eq_refl) as HN1.
  pose proof (pool_other_object w w1 _ _ lb _ HL Hfresh eq_refl) as HL1.
  pose proof (pool_other_object w w1 _ _ lb _ HS Hfresh eq_refl) as HS1.
  assert (HB1 : pool w1 lb B) by (split; [apply lookup_insert_eq|done]).
  split_and!.
  - apply (filtered_heap_survivors w1); tauto.
  - apply (filtered_heap_survivors w1); tauto.
  - apply (filtered_heap_survivors w1); tauto.
  - pose proof (filtered_heap_dom w1 _ _ _ _ _ _ _ _ HN1 HL1 HS1 HB1) as Hdom.
    cbn [heap w1] in Hdom. unfold h'. rewrite Hdom. apply dom_insert_L.
  - intros l Hn Hl Hs Hb. unfold h'.
    rewrite filtered_heap_other by done. by rewrite lookup_insert_ne.
Qed.

(** X10: at the console, [blacklistCharacters] turns down every line that
    names every character of the pools and asks again; the first line that
    leaves a character out is the blacklist.  The call returns a new list,
    has read exactly the lines up to that one, and leaves in each pool its
    characters that are not on that line. *)
Theorem filter_asks_until_usable w ln ll ls N L S bad line rest :
  pool w ln N → pool w ll L → pool w ls S →
  stdin w = (bad ++ line :: rest)%list →
  Forall (names_every_character N L S) bad →
  ¬ names_every_character N L S line →
  ∃ lb w',
    blacklistCharacters
      (PyList ln) (PyList ll) (PyList ls) PyNone (PyBool true) w
    = (inr (PyList lb), w') ∧
    (lb ∉ dom (heap w)) ∧
    survivors (heap w') ln N (characters line) ∧
    survivors (heap w') ll L (characters line) ∧
    survivors (heap w') ls S (characters line) ∧
    stdin w' = rest ∧
    ∃ unused,
      stdout w'
      = (stdout w ++ told_again (length bad) ++ blacklist_prompt :: unused)%list
      ∧ (length unused ≤ 1)%nat.
Proof.
  intros HN HL HS Hin Hbad Hline.
  pose proof (blacklistCharacters_console _ _ _ _ _ _ _ HN HL HS) as Hrun.
  rewrite Hin, (ask_blacklist_told_again _ _ _ _ _ _ Hbad Hline) in Hrun.
  cbv zeta in Hrun.
  destruct (console_filter_pools w ln ll ls N L S (characters line)
              HN HL HS (characters_single line))
    as (Hn & Hl & Hs & _).
  eexists _, _. split; [exact Hrun|]. cbn [heap stdin stdout].
  split; [apply is_fresh|]. split_and!; [done..|].
  destruct (Nat.ltb 0 _).
  - eexists [_]. split; [|done]. by rewrite <- ?app_assoc.
  - exists []. split; [|cbn; lia]. by rewrite <- ?app_assoc.
Qed.

(** X11: a run of [blacklistCharacters] at the console that returns leaves
    at least one character in the pools, which are still valid pools: a
    [keygen] that follows cannot find all of them empty. *)
Theorem filter_leaves_a_character w ln ll ls N L S r w' :
  pool w ln N → pool w ll L → pool w ls S →
  blacklistCharacters
    (PyList ln) (PyList ll) (PyList ls) PyNone (PyBool true) w
  = (inr r, w') →
  ∃ N' L' S',
    pool w' ln N' ∧ pool w' ll L' ∧ pool w' ls S' ∧
    ¬ (N' = [] ∧ L' = [] ∧ S' = []).
Proof.
  intros HN HL HS.
  rewrite (blacklistCharacters_console _ _ _ _ _ _ _ HN HL HS).
  destruct (ask_blacklist _ (stdin w)) as [[[e|B] rest] out] eqn:Hask; [done|].
  intros [= _ <-]. cbn [heap].
  destruct (ask_blacklist_result _ _ _ _ _ _ _ Hask)
    as [(line & [= ->] & Hline)|[[=] _]].
  destruct (console_filter_pools w ln ll ls N L S (characters line)
              HN HL HS (characters_single line))
    as (Hn & Hl & Hs & _).
  set (h' := filtered_heap _ _ _ _ _ _ _ _ _) in *.
  set (w' := World h' rest _ (rng w)).
  destruct (survivors_pool w w' _ _ _ HN Hn) as (N' & HN' & _ & HN'').
  destruct (survivors_pool w w' _ _ _ HL Hl) as (L' & HL' & _ & HL'').
  destruct (survivors_pool w w' _ _ _ HS Hs) as (S' & HS' & _ & HS'').
  exists N', L', S'. split_and!; [done..|].
  intros (-> & -> & ->). apply Hline. intros c Hc.
  destruct (decide (c ∈ characters line)) as [|Hno]; [done|]. exfalso.
  destruct Hc as [Hc|[Hc|Hc]].
  - by eapply elem_of_nil, HN''.
  - by eapply elem_of_nil, HL''.
  - by eapply elem_of_nil, HS''.
Qed.

(** X12: at the console, when every line that is left names every
    character of the pools (as every line does when the three pools are
    empty), [blacklistCharacters] cannot return: it reads all the lines,
    raises EOFError, and leaves every list as it was. *)
Theorem filter_never_returns_without_usable w ln ll ls N L S :
  pool w ln N → pool w ll L → pool w ls S →
  Forall (names_every_character N L S) (stdin w) →
  ∃ w',
    blacklistCharacters
      (PyList ln) (PyList ll) (PyList ls) PyNone (PyBool true) w
    = (inl EOFError, w') ∧
    stdin w' = [] ∧ heap w' = heap w.
Proof.
  intros HN HL HS Hlines.
  rewrite (blacklistCharacters_console _ _ _ _ _ _ _ HN HL HS).
  destruct (ask_blacklist_never _ _ _ _ Hlines) as [out ->].
  by eexists.
Qed.


(** *** The pool filter and the key generator together *)

(** The four lists after a run of [blacklistCharacters] on a supplied
    blacklist: valid pools again, without duplicates. *)
Lemma supplied_filter_pools w ln ll ls lb N L S B p :
  pool w ln N → pool w ll L → pool w ls S → pool w lb B →
  ∃ w1 N1 L1 S1 B1,
    blacklistCharacters
      (PyList ln) (PyList ll) (PyList ls) (PyList lb) (PyBool p) w
    = (inr (PyList lb), w1) ∧
    pool w1 ln N1 ∧ pool w1 ll L1 ∧ pool w1 ls S1 ∧ pool w1 lb B1 ∧
    NoDup N1 ∧ NoDup L1 ∧ NoDup S1 ∧ NoDup B1 ∧
    (∀ c, c ∈ N1 ↔ c ∈ N ∧ c ∉ B) ∧
    (∀ c, c ∈ L1 ↔ c ∈ L ∧ c ∉ B) ∧
    (∀ c, c ∈ S1 ↔ c ∈ S ∧ c ∉ B) ∧
    (∀ c, c ∈ B1 ↔ c ∈ B ∧ ¬ (c ∈ N ∨ c ∈ L ∨ c ∈ S)).
Proof.
  clear int_of_string welcome_box.
  intros HN HL HS HB.
  destruct (blacklistCharacters_run _ _ _ _ _ _ _ _ _ p HN HL HS HB)
    as [out Hrun].
  set (w1 := World _ _ out _) in Hrun.
  assert (Hn : survivors (heap w1) ln N B)
    by (apply filtered_heap_survivors; tauto).
  assert (Hl : survivors (heap w1) ll L B)
    by (apply filtered_heap_survivors; tauto).
  assert (Hs : survivors (heap w1) ls S B)
    by (apply filtered_heap_survivors; tauto).
  destruct (survivors_pool w w1 _ _ _ HN Hn) as (N1 & HN1 & HdN & HN1').
  destruct (survivors_pool w w1 _ _ _ HL Hl) as (L1 & HL1 & HdL & HL1').
  destruct (survivors_pool w w1 _ _ _ HS Hs) as (S1 & HS1 & HdS & HS1').
  set (B1 := list_of_set 3
               (list_to_set B ∖
                  (list_to_set N ∪ list_to_set L ∪ list_to_set S))).
  assert (HB1' : ∀ c, c ∈ B1 ↔ c ∈ B ∧ ¬ (c ∈ N ∨ c ∈ L ∨ c ∈ S)).
  { intros c. unfold B1.
    rewrite list_of_set_elem, elem_of_difference, !elem_of_union,
      !elem_of_list_to_set. tauto. }
  exists w1, N1, L1, S1, B1. split; [exact Hrun|].
  split_and!; try done.
  - split; [apply filtered_heap_blacklist|].
    apply Forall_forall. intros c [Hc _]%HB1'.
    exact (pool_single _ _ _ _ HB Hc).
  - apply list_of_set_NoDup.
Qed.

Lemma returned_characters w ln ll ls N L S keyLength p key keyLength' w' :
  pool w ln N → pool w ll L → pool w ls S →
  keygen (PyList ln) (PyList ll) (PyList ls) keyLength (PyBool p) w
  = (inr (key, keyLength'), w') →
  ∀ c, c ∈ characters key → c ∈ N ∨ c ∈ L ∨ c ∈ S.
Proof.
  intros HN HL HS Hrun.
  destruct (keygen_returns _ _ _ _ _ _ _ _ _ _ _ _ HN HL HS Hrun)
    as (Hne & -> & _).
  set (chars := _ <$> seq 0 _).
  assert (Hchars : ∀ c, c ∈ chars → String.length c = 1 ∧
                                    (c ∈ N ∨ c ∈ L ∨ c ∈ S)).
  { intros c Hc. apply list_elem_of_fmap in Hc as (i & -> & _).
    destruct (drawn_in_pools w _ _ _ _ _ _ (rng w) i HN HL HS Hne)
      as (Hlen & characterSet & _ & Hin & Hc).
    split; [done|]. rewrite !elem_of_cons in Hin.
    destruct Hin as [->|[->|[->|Hin]]]; auto.
    by apply elem_of_nil in Hin. }
  assert (Hsingle : Forall (λ c, String.length c = 1) chars).
  { apply Forall_forall. intros c Hc. by apply Hchars. }
  apply concat_single_characters in Hsingle as [-> _].
  intros c Hc. by apply Hchars.
Qed.

(** X13: a key generated from pools that went through
    [blacklistCharacters] holds no blacklisted character: every character
    of a key that [keygen] returns after the filter is a character of an
    original pool that is not in the blacklist. *)
Theorem key_avoids_blacklist
    w ln ll ls lb N L S B p r w1 keyLength p' key keyLength' w2 :
  pool w ln N → pool w ll L → pool w ls S → pool w lb B →
  blacklistCharacters
    (PyList ln) (PyList ll) (PyList ls) (PyList lb) (PyBool p) w
  = (inr r, w1) →
  keygen (PyList ln) (PyList ll) (PyList ls) keyLength (PyBool p') w1
  = (inr (key, keyLength'), w2) →
  ∀ c, c ∈ characters key → (c ∉ B) ∧ (c ∈ N ∨ c ∈ L ∨ c ∈ S).
Proof.
  intros HN HL HS HB Hfilter Hkey.
  destruct (supplied_filter_pools _ _ _ _ _ _ _ _ _ p HN HL HS HB)
    as (w1' & N1 & L1 & S1 & B1 & Hrun & HN1 & HL1 & HS1 & _ & _ & _ & _ & _
        & HN1' & HL1' & HS1' & _).
  rewrite Hrun in Hfilter. injection Hfilter as <- <-.
  intros c Hc.
  destruct (returned_characters _ _ _ _ _ _ _ _ _ _ _ _ HN1 HL1 HS1 Hkey c Hc)
    as [Hin|[Hin|Hin]].
  - apply HN1' in Hin. tauto.
  - apply HL1' in Hin. tauto.
  - apply HS1' in Hin. tauto.
Qed.

(** X14: filtering twice is filtering once: a second call of
    [blacklistCharacters] on the same four lists returns the same list
    again and leaves in each of the four lists the characters that the
    first call left there. *)
Theorem filter_twice_is_filter_once w ln ll ls lb N L S B p p' :
  pool w ln N → pool w ll L → pool w ls S → pool w lb B →
  ∃ w1 w2,
    blacklistCharacters
      (PyList ln) (PyList ll) (PyList ls) (PyList lb) (PyBool p) w
    = (inr (PyList lb), w1) ∧
    blacklistCharacters
      (PyList ln) (PyList ll) (PyList ls) (PyList lb) (PyBool p') w1
    = (inr (PyList lb), w2) ∧
    ∀ l, l ∈ [ln; ll; ls; lb] →
         ∃ items1 items2,
           heap w1 !! l = Some items1 ∧ heap w2 !! l = Some items2 ∧
           items1 ≡ₚ items2.
Proof.
  clear int_of_string welcome_box.
  intros HN HL HS HB.
  destruct (supplied_filter_pools _ _ _ _ _ _ _ _ _ p HN HL HS HB)
    as (w1 & N1 & L1 & S1 & B1 & Hrun1 & HN1 & HL1 & HS1 & HB1
        & HdN & HdL & HdS & HdB & HN1' & HL1' & HS1' & HB1').
  destruct (blacklistCharacters_run _ _ _ _ _ _ _ _ _ p' HN1 HL1 HS1 HB1)
    as [out Hrun2].
  set (w2 := World _ _ out _) in Hrun2.
  exists w1, w2. split; [exact Hrun1|]. split; [exact Hrun2|].
  assert (Hpools : ∀ l X, (l = ln ∧ X = N1) ∨ (l = ll ∧ X = L1)
                          ∨ (l = ls ∧ X = S1) →
            (∀ c, c ∈ X → c ∉ B1) → NoDup X → pool w1 l X →
            ∃ items1 items2,
              heap w1 !! l = Some items1 ∧ heap w2 !! l = Some items2 ∧
              items1 ≡ₚ items2).
  { intros l X Hl Hdisjoint Hdup [Hlookup _].
    destruct (filtered_heap_survivors w1 ln ll ls lb N1 L1 S1 B1 l X
                HN1 HL1 HS1 HB1 Hl) as (items & Hitems & Hdup' & Hiff).
    exists (PyStr <$> X), (PyStr <$> items).
    split; [done|]. split; [done|]. apply fmap_Permutation.
    apply NoDup_Permutation; [done..|]. intros c. rewrite Hiff.
    split; [|tauto]. intros Hc. split; [done|by apply Hdisjoint]. }
  intros l Hl. rewrite !elem_of_cons in Hl.
  destruct Hl as [->|[->|[->|[->|Hl]]]]; [..|by apply elem_of_nil in Hl].
  - apply (Hpools ln N1); [tauto| |done..].
    intros c [Hc _]%HN1' [_ Hno]%HB1'. tauto.
  - apply (Hpools ll L1); [tauto| |done..].
    intros c [Hc _]%HL1' [_ Hno]%HB1'. tauto.
  - apply (Hpools ls S1); [tauto| |done..].
    intros c [Hc _]%HS1' [_ Hno]%HB1'. tauto.
  - destruct HB1 as [Hlookup _].
    eexists _, _. split; [exact Hlookup|].
    split; [apply filtered_heap_blacklist|].
    apply fmap_Permutation, NoDup_Permutation;
      [done|apply list_of_set_NoDup|].
    intros c.
    rewrite list_of_set_elem, elem_of_difference, !elem_of_union,
      !elem_of_list_to_set.
    split; [|tauto]. intros Hc. split; [done|].
    apply HB1' in Hc as [_ Hno].
    intros [[Hin|Hin]|Hin];
      [apply HN1' in Hin|apply HL1' in Hin|apply HS1' in Hin]; tauto.
Qed.

(** X15: the guard for a usable character is at the console only: a
    supplied blacklist that names every character of the pools empties the
    three of them, and [keygen] on these pools then fails with the
    ValueError for empty pools. *)
Theorem supplied_blacklist_can_empty_pools w ln ll ls lb N L S B :
  pool w ln N → pool w ll L → pool w ls S → pool w lb B →
  (∀ c, c ∈ N ∨ c ∈ L ∨ c ∈ S → c ∈ B) →
  ∃ w1,
    blacklistCharacters
      (PyList ln) (PyList ll) (PyList ls) (PyList lb) (PyBool false) w
    = (inr (PyList lb), w1) ∧
    heap w1 !! ln = Some [] ∧ heap w1 !! ll = Some [] ∧
    heap w1 !! ls = Some [] ∧
    ∀ keyLength,
      isinstance_int keyLength = true → (1 ≤ int_value keyLength)%Z →
      keygen (PyList ln) (PyList ll) (PyList ls) keyLength (PyBool false) w1
      = (inl (ValueError all_empty_message), w1).
Proof.
  intros HN HL HS HB Hall.
  destruct (supplied_filter_pools _ _ _ _ _ _ _ _ _ false HN HL HS HB)
    as (w1 & N1 & L1 & S1 & B1 & Hrun & HN1 & HL1 & HS1 & _ & _ & _ & _ & _
        & HN1' & HL1' & HS1' & _).
  assert (Hnil : ∀ X : list string, (∀ c, c ∈ X → False) → X = []).
  { intros [|c X] HX; [done|]. destruct (HX c). apply list_elem_of_here. }
  assert (N1 = []) as ->
    by (apply Hnil; intros c [Hc Hno]%HN1'; apply Hno, Hall; tauto).
  assert (L1 = []) as ->
    by (apply Hnil; intros c [Hc Hno]%HL1'; apply Hno, Hall; tauto).
  assert (S1 = []) as ->
    by (apply Hnil; intros c [Hc Hno]%HS1'; apply Hno, Hall; tauto).
  exists w1. split; [exact Hrun|].
  split; [apply HN1|]. split; [apply HL1|]. split; [apply HS1|].
  intros keyLength Hint Hpos. unfold keygen.
  rewrite (bind_ok _ _ _ _ _
             (check_keygen_arguments_ok _ _ _ _ _ _ _ _ false HN1 HL1 HS1
                (isinstance_int_accepted _ Hint))).
  rewrite (bind_ok _ _ _ _ _ (obtain_keyLength_positive _ w1 Hint Hpos)).
  by apply generate_key_all_empty.
Qed.


(** *** Pools that cannot be iterated *)

Lemma iterate_not_iterable v w :
  iterable v = false →
  iterate v w = (inl (TypeError (not_iterable_message v)), w).
Proof. by destruct v. Qed.

Lemma check_keygen_loop_not_iterable before name v after w :
  Forall (λ argument, iterable argument.2 = true) before →
  iterable v = false →
  ∀ fails,
    for_each check_keygen_argument fails (before ++ (name, v) :: after)%list w
    = (inl (TypeError (not_iterable_message v)), w).
Proof.
  intros Hbefore Hv.
  induction Hbefore as [|[name' v'] before Hv' _ IH];
    intros [listFails characterFails]; cbn [app for_each snd] in *.
  - erewrite bind_raise; [reflexivity|]. unfold check_keygen_argument.
    by rewrite (bind_raise _ _ _ _ _ (iterate_not_iterable _ _ Hv)).
  - rewrite (bind_ok _ _ _ _ _ (check_keygen_argument_step _ _ _ _ _ Hv')).
    apply IH.
Qed.

(** X16: a pool that cannot be iterated (None, an integer, a bool) escapes
    the collected reports of [keygen]: the call fails with the TypeError of
    the interpreter for the first such pool, whatever is wrong with the
    pools before it, and changes nothing. *)
Theorem keygen_pool_not_iterable
    numbers letters symbols keyLength p w before name v after :
  is_None keyLength || isinstance_int keyLength = true →
  [("numbers", numbers); ("letters", letters); ("symbols", symbols)]
  = (before ++ (name, v) :: after)%list →
  Forall (λ argument, iterable argument.2 = true) before →
  iterable v = false →
  keygen numbers letters symbols keyLength (PyBool p) w
  = (inl (TypeError (not_iterable_message v)), w).
Proof.
  intros Hk Hpools Hbefore Hv. unfold keygen.
  erewrite bind_raise; [reflexivity|]. unfold check_keygen_arguments.
  cbn [isinstance_bool negb].
  replace (negb (is_None keyLength) && negb (isinstance_int keyLength))
    with false by (by destruct keyLength).
  erewrite bind_raise; [reflexivity|]. rewrite Hpools.
  by apply check_keygen_loop_not_iterable.
Qed.

Lemma check_blacklist_argument_step_none
    listFails characterFails name v w :
  iterable v = true ∨ v = PyNone → name ≠ "blacklist" →
  check_blacklist_argument (listFails, characterFails) (name, v) w
  = (inr (if isinstance_list v then listFails
          else (listFails ++ [name])%list,
          if forallb single_character (items_of w v) then characterFails
          else (characterFails ++ [name])%list), w).
Proof.
  intros [Hv| ->] Hname; [by apply check_blacklist_argument_step|].
  unfold check_blacklist_argument.
  apply String.eqb_neq in Hname. by rewrite Hname.
Qed.

Lemma check_blacklist_loop_none arguments w :
  Forall (λ argument, (iterable argument.2 = true ∨ argument.2 = PyNone) ∧
                      argument.1 ≠ "blacklist") arguments →
  ∀ listFails characterFails rest,
    for_each check_blacklist_argument (listFails, characterFails)
             (arguments ++ rest)%list w
    = for_each check_blacklist_argument
        ((listFails ++ wrong_type arguments)%list,
         (characterFails ++ wrong_characters w arguments)%list) rest w.
Proof.
  induction 1 as [|[name v] arguments [Hv Hname] _ IH];
    intros listFails characterFails rest.
  { cbn. by rewrite !app_nil_r. }
  cbn [for_each snd fst app] in *.
  rewrite (bind_ok _ _ _ _ _
             (check_blacklist_argument_step_none _ _ _ _ _ Hv Hname)).
  rewrite IH, wrong_type_cons, wrong_characters_cons.
  by destruct (isinstance_list v), (forallb single_character (items_of w v));
    rewrite <- ?app_assoc.
Qed.

(** X17: in [blacklistCharacters] a pool that is None is reported like
    every pool that is not a list: when some pool is None and the others
    are None or can be iterated, the call fails with the one TypeError that
    names exactly the pools that are not lists, and changes nothing. *)
Theorem filter_reports_missing_pools
    numbers letters symbols blacklist p w :
  iterable numbers = true ∨ numbers = PyNone →
  iterable letters = true ∨ letters = PyNone →
  iterable symbols = true ∨ symbols = PyNone →
  numbers = PyNone ∨ letters = PyNone ∨ symbols = PyNone →
  is_None blacklist || isinstance_list blacklist = true →
  blacklistCharacters numbers letters symbols blacklist (PyBool p) w
  = (inl (TypeError
            (list_type_message
               (wrong_type [("numbers", numbers); ("letters", letters);
                            ("symbols", symbols)]))), w).
Proof.
  intros Hn Hl Hs Hnone Hb.
  set (pools := [("numbers", numbers); ("letters", letters);
                 ("symbols", symbols)]).
  assert (Hpools : Forall (λ argument,
            (iterable argument.2 = true ∨ argument.2 = PyNone) ∧
            argument.1 ≠ "blacklist") pools).
  { unfold pools.
    repeat (apply Forall_cons_2; [by split|]). apply Forall_nil_2. }
  assert (Hwrong : wrong_type pools ≠ []).
  { unfold pools. rewrite !wrong_type_cons.
    destruct Hnone as [-> | [-> | ->]]; cbn [isinstance_list];
      repeat (destruct (isinstance_list _)); done. }
  unfold blacklistCharacters, check_blacklist_arguments.
  cbn [isinstance_bool negb].
  replace (negb (is_None blacklist) && negb (isinstance_list blacklist))
    with false by (by destruct blacklist).
  erewrite bind_raise; [reflexivity|].
  change [("numbers", numbers); ("letters", letters); ("symbols", symbols);
          ("blacklist", blacklist)]
    with (pools ++ [("blacklist", blacklist)])%list.
  rewrite (bind_ok _ _ _
             (wrong_type pools,
              (wrong_characters w pools
               ++ wrong_characters w [("blacklist", blacklist)])%list) w).
  - destruct (wrong_type pools); done.
  - rewrite (check_blacklist_loop_none _ _ Hpools).
    by rewrite (check_blacklist_last _ _ _ _ Hb).
Qed.


(** *** main *)

Lemma ask_keyLength_shorter lines :
  ∀ keyLength r rest out,
    ask_keyLength keyLength lines = (r, rest, out) →
    (length rest ≤ length lines)%nat.
Proof.
  induction lines as [|line lines IH]; intros keyLength r rest out;
    cbn [ask_keyLength].
  { destruct (_ && _); by intros [= _ <- _]. }
  destruct (negb (is_None keyLength) && (0 <? int_value keyLength)%Z).
  { by intros [= _ <- _]. }
  destruct (int_of_string line) as [z|].
  - destruct (0 <? z)%Z; [intros [= _ <- _]; cbn; lia|].
    destruct (ask_keyLength (PyInt z) lines) as [[r' rest'] out'] eqn:Hask.
    intros [= _ <- _]. apply IH in Hask. cbn. lia.
  - destruct (ask_keyLength keyLength lines) as [[r' rest'] out'] eqn:Hask.
    intros [= _ <- _]. apply IH in Hask. cbn. lia.
Qed.

Lemma ask_blacklist_shorter usable lines :
  ∀ r rest out,
    ask_blacklist usable lines = (r, rest, out) →
    (length rest ≤ length lines)%nat.
Proof.
  induction lines as [|line lines IH]; intros r rest out; cbn [ask_blacklist].
  { by intros [= _ <- _]. }
  destruct (Nat.eqb _ 0).
  - destruct (ask_blacklist usable lines) as [[r' rest'] out'].
    intros [= _ <- _]. pose proof (IH _ _ _ eq_refl). cbn. lia.
  - intros [= _ <- _]. cbn. lia.
Qed.

Lemma ready_same_heap w w' numbers letters symbols :
  heap w' = heap w → ready w numbers letters symbols →
  ready w' numbers letters symbols.
Proof.
  intros Hheap (ln & ll & ls & N & L & S & -> & -> & -> & HN & HL & HS & Hne).
  exists ln, ll, ls, N, L, S.
  split_and!; try done; by eapply pool_same_heap.
Qed.

Lemma keygen_keeps_lists_run
    numbers letters symbols keyLength printToConsole w r w' :
  keygen numbers letters symbols keyLength printToConsole w = (r, w') →
  heap w' = heap w.
Proof.
  revert w r w'. change (keeps heap
    (keygen numbers letters symbols keyLength printToConsole)).
  unfold keygen.
  apply keeps_bind; [apply keeps_pure, check_keygen_arguments_world|].
  intros _. apply keeps_bind.
  - intros w r w' Hrun. by apply obtain_keyLength_world in Hrun as [-> _].
  - intros keyLength'. by apply generate_key_keeps.
Qed.

(** [keygen] at the console on pools that are ready: a key with a
    positive key length, or the end of the input. *)
Lemma keygen_console_outcome w numbers letters symbols keyLength r w' :
  ready w numbers letters symbols →
  is_None keyLength || isinstance_int keyLength = true →
  keygen numbers letters symbols keyLength (PyBool true) w = (r, w') →
  heap w' = heap w ∧ (length (stdin w') ≤ length (stdin w))%nat ∧
  ((r = inl EOFError ∧ stdin w' = []) ∨
   ∃ key keyLength',
     r = inr (key, keyLength') ∧ isinstance_int keyLength' = true ∧
     (1 ≤ int_value keyLength')%Z).
Proof.
  intros (ln & ll & ls & N & L & S & -> & -> & -> & HN & HL & HS & Hne) Hk Hrun.
  split; [by eapply keygen_keeps_lists_run|].
  revert Hrun. unfold keygen.
  rewrite (bind_ok _ _ _ _ _
             (check_keygen_arguments_ok _ _ _ _ _ _ _ _ true HN HL HS Hk)).
  intros [(e & Hobtain & ->)|(keyLength1 & w1 & Hobtain & Hrun)]%bind_inv.
  - revert Hobtain. unfold obtain_keyLength. cbn [truthy_bool].
    destruct (ask_keyLength keyLength (stdin w)) as [[r rest] out] eqn:Hask.
    intros [= -> <-]. cbn [stdin].
    split; [by eapply ask_keyLength_shorter|]. left.
    by destruct (ask_keyLength_result _ _ _ _ _ Hk Hask)
      as [(? & [=] & _)|[[= ->] ->]].
  - destruct (obtain_keyLength_result _ _ _ _ _ Hk Hobtain)
      as (Hint & Hpos & _).
    assert (Hshort : (length (stdin w1) ≤ length (stdin w))%nat).
    { revert Hobtain. unfold obtain_keyLength. cbn [truthy_bool].
      destruct (ask_keyLength keyLength (stdin w)) as [[r' rest] out] eqn:Hask.
      intros [= _ <-]. cbn [stdin]. by eapply ask_keyLength_shorter. }
    apply obtain_keyLength_world in Hobtain as [Hheap _].
    pose proof (pool_same_heap _ _ _ _ Hheap HN) as HN1.
    pose proof (pool_same_heap _ _ _ _ Hheap HL) as HL1.
    pose proof (pool_same_heap _ _ _ _ Hheap HS) as HS1.
    destruct (generate_key_run _ _ _ _ _ _ _ keyLength1 true HN1 HL1 HS1 Hne)
      as (w2 & Hrun2 & _ & Hin & _).
    rewrite Hrun2 in Hrun. injection Hrun as <- <-.
    rewrite Hin. split; [done|]. right. by eexists _, _.
Qed.


Lemma print_all_run lines w :
  print_all lines w
  = (inr tt, World (heap w) (stdin w) (stdout w ++ lines) (rng w)).
Proof.
  unfold print_all. revert w. induction lines as [|line lines IH]; intros w.
  { cbn. rewrite app_nil_r. by destruct w. }
  cbn [for_each]. unfold mbind, Py_bind, print at 1. rewrite IH.
  cbn [heap stdin stdout rng]. by rewrite <- app_assoc.
Qed.

(** Three new lists, with the digits, the letters and the punctuation. *)
Lemma new_pools_run w :
  ∃ l1 l2 l3 w',
    new_pools w = (inr (PyList l1, PyList l2, PyList l3), w') ∧
    pool w' l1 (characters digits) ∧
    pool w' l2 (characters ascii_letters) ∧
    pool w' l3 (characters punctuation) ∧
    stdin w' = stdin w.
Proof.
  unfold new_pools, new_list. cbv [mbind Py_bind mret Py_ret].
  cbn [heap stdin stdout rng].
  set (l1 := fresh (dom (heap w))).
  set (h1 := <[l1 := PyStr <$> characters digits]> (heap w)).
  set (l2 := fresh (dom h1)).
  set (h2 := <[l2 := PyStr <$> characters ascii_letters]> h1).
  set (l3 := fresh (dom h2)).
  set (h3 := <[l3 := PyStr <$> characters punctuation]> h2).
  set (w1 := World h1 (stdin w) (stdout w) (rng w)).
  set (w2 := World h2 (stdin w) (stdout w) (rng w)).
  set (w3 := World h3 (stdin w) (stdout w) (rng w)).
  exists l1, l2, l3, w3. split; [done|].
  assert (H1 : pool w1 l1 (characters digits))
    by (split; [apply lookup_insert_eq|apply characters_single]).
  assert (H2 : pool w2 l2 (characters ascii_letters))
    by (split; [apply lookup_insert_eq|apply characters_single]).
  assert (H3 : pool w3 l3 (characters punctuation))
    by (split; [apply lookup_insert_eq|apply characters_single]).
  assert (Hf2 : l2 ∉ dom (heap w1)) by apply is_fresh.
  assert (Hf3 : l3 ∉ dom (heap w2)) by apply is_fresh.
  pose proof (pool_other_object w1 w2 _ _ l2 _ H1 Hf2 eq_refl) as H1'.
  split_and!; [|by eapply (pool_other_object w2 w3)|done..].
  by eapply (pool_other_object w2 w3).
Qed.

(** [blacklistCharacters] at the console on valid pools: pools that are
    ready for [keygen], or the end of the input. *)
Lemma filter_console_outcome w ln ll ls N L S r w' :
  pool w ln N → pool w ll L → pool w ls S →
  blacklistCharacters
    (PyList ln) (PyList ll) (PyList ls) PyNone (PyBool true) w
  = (r, w') →
  (length (stdin w') ≤ length (stdin w))%nat ∧
  ((r = inl EOFError ∧ stdin w' = []) ∨
   ((∃ v, r = inr v) ∧ ready w' (PyList ln) (PyList ll) (PyList ls))).
Proof.
  intros HN HL HS.
  rewrite (blacklistCharacters_console _ _ _ _ _ _ _ HN HL HS).
  destruct (ask_blacklist _ (stdin w)) as [[[e|B] rest] out] eqn:Hask.
  - intros [= <- <-]. cbn [stdin].
    split; [by eapply ask_blacklist_shorter|]. left.
    by destruct (ask_blacklist_result _ _ _ _ _ _ _ Hask)
      as [(? & [=] & _)|[[= ->] ->]].
  - intros [= <- <-]. cbn [stdin].
    split; [by eapply ask_blacklist_shorter|]. right.
    split; [by eexists|].
    destruct (ask_blacklist_result _ _ _ _ _ _ _ Hask)
      as [(line & [= ->] & Hline)|[[=] _]].
    destruct (console_filter_pools w ln ll ls N L S (characters line)
                HN HL HS (characters_single line))
      as (Hn & Hl & Hs & _).
    set (h' := filtered_heap _ _ _ _ _ _ _ _ _) in *.
    set (w' := World h' rest _ (rng w)).
    destruct (survivors_pool w w' _ _ _ HN Hn) as (N' & HN' & _ & HN'').
    destruct (survivors_pool w w' _ _ _ HL Hl) as (L' & HL' & _ & HL'').
    destruct (survivors_pool w w' _ _ _ HS Hs) as (S' & HS' & _ & HS'').
    exists ln, ll, ls, N', L', S'. split_and!; [done..|].
    intros (-> & -> & ->). apply Hline. intros c Hc.
    destruct (decide (c ∈ characters line)) as [|Hno]; [done|]. exfalso.
    destruct Hc as [Hc|[Hc|Hc]].
    + by eapply elem_of_nil, HN''.
    + by eapply elem_of_nil, HL''.
    + by eapply elem_of_nil, HS''.
Qed.


Lemma regenerate_ends_well
    rounds numbers letters symbols keyLength w r w' :
  (∀ w key keyLength r w',
     ready w numbers letters symbols →
     is_None keyLength || isinstance_int keyLength = true →
     (length (stdin w) < rounds)%nat →
     menu rounds numbers letters symbols key keyLength w = (r, w') →
     ends_well r w') →
  ready w numbers letters symbols →
  is_None keyLength || isinstance_int keyLength = true →
  (length (stdin w) < rounds)%nat →
  ('(key, keyLength) ← keygen numbers letters symbols keyLength (PyBool true);
   menu rounds numbers letters symbols key keyLength) w = (r, w') →
  ends_well r w'.
Proof.
  intros IH Hready Hk Hlen
    [(e & Hkey & ->)|([key keyLength'] & w1 & Hkey & Hrun)]%bind_inv.
  - destruct (keygen_console_outcome _ _ _ _ _ _ _ Hready Hk Hkey)
      as (_ & _ & [[[= ->] Hin]|(? & ? & [=] & _)]).
    by right.
  - destruct (keygen_console_outcome _ _ _ _ _ _ _ Hready Hk Hkey)
      as (Hheap & Hshort & [[[=] _]|(? & ? & [= <- <-] & Hint & _)]).
    eapply IH; [by eapply ready_same_heap| |lia|exact Hrun].
    by apply isinstance_int_accepted.
Qed.

Lemma reset_ends_well rounds keyLength w r w' :
  (∀ w numbers letters symbols key keyLength r w',
     ready w numbers letters symbols →
     is_None keyLength || isinstance_int keyLength = true →
     (length (stdin w) < rounds)%nat →
     menu rounds numbers letters symbols key keyLength w = (r, w') →
     ends_well r w') →
  is_None keyLength || isinstance_int keyLength = true →
  (length (stdin w) < rounds)%nat →
  ('(numbers, letters, symbols) ← new_pools;
   blacklistCharacters numbers letters symbols PyNone (PyBool true);;
   '(key, keyLength) ← keygen numbers letters symbols keyLength (PyBool true);
   menu rounds numbers letters symbols key keyLength) w = (r, w') →
  ends_well r w'.
Proof.
  intros IH Hk Hlen.
  destruct (new_pools_run w) as (l1 & l2 & l3 & w1 & Hnew & H1 & H2 & H3 & Hin).
  rewrite (bind_ok _ _ _ _ _ Hnew).
  intros [(e & Hfilter & ->)|(v & w2 & Hfilter & Hrun)]%bind_inv.
  - destruct (filter_console_outcome _ _ _ _ _ _ _ _ _ H1 H2 H3 Hfilter)
      as (_ & [[[= ->] Hin']|[[? [=]] _]]).
    by right.
  - destruct (filter_console_outcome _ _ _ _ _ _ _ _ _ H1 H2 H3 Hfilter)
      as (Hshort & [[[=] _]|[_ Hready]]).
    rewrite Hin in Hshort.
    eapply regenerate_ends_well; [|exact Hready|exact Hk| |exact Hrun].
    + intros. by eapply IH.
    + lia.
Qed.

(** The loop of the menu, with more rounds than lines to read, ends by
    option 5 or at the end of the input. *)
Lemma menu_ends_well rounds :
  ∀ w numbers letters symbols key keyLength r w',
    ready w numbers letters symbols →
    is_None keyLength || isinstance_int keyLength = true →
    (length (stdin w) < rounds)%nat →
    menu rounds numbers letters symbols key keyLength w = (r, w') →
    ends_well r w'.
Proof.
  induction rounds as [|rounds IH];
    intros w numbers letters symbols key keyLength r w' Hready Hk Hlen;
    [lia|].
  cbn [menu].
  assert (Hfirst : ∃ w0,
    (if String.eqb key "Spamton" then print_all spamton else mret tt) w
    = (inr tt, w0) ∧ heap w0 = heap w ∧ stdin w0 = stdin w).
  { destruct (String.eqb key "Spamton").
    - rewrite print_all_run. by eexists.
    - by exists w. }
  destruct Hfirst as (w0 & Hfirst & Hheap0 & Hin0).
  rewrite (bind_ok _ _ _ _ _ Hfirst).
  rewrite (bind_ok _ _ _ _ _ (print_all_run options w0)).
  unfold input at 1. unfold mbind at 1, Py_bind at 1.
  cbn [heap stdin stdout rng]. rewrite Hin0, Hheap0.
  destruct (stdin w) as [|selection rest] eqn:Hin.
  { intros [= <- <-]. by right. }
  set (w1 := World (heap w) rest _ (rng w0)).
  assert (Hready1 : ready w1 numbers letters symbols)
    by (by apply (ready_same_heap w)).
  assert (Hlen1 : (length (stdin w1) < rounds)%nat) by (cbn in *; lia).
  clearbody w1. clear Hfirst Hheap0 Hin0 Hin Hlen w w0 Hready.
  destruct (String.eqb selection "1").
  { intros Hrun. eapply regenerate_ends_well;
      [|exact Hready1|exact Hk|exact Hlen1|exact Hrun].
    intros. by eapply IH. }
  destruct (String.eqb selection "2").
  { intros Hrun. eapply regenerate_ends_well;
      [|exact Hready1| |exact Hlen1|exact Hrun]; [|done].
    intros. by eapply IH. }
  destruct (String.eqb selection "3").
  { intros Hrun. by eapply reset_ends_well. }
  destruct (String.eqb selection "4").
  { intros Hrun. eapply (reset_ends_well rounds PyNone); [exact IH|done| |].
    - exact Hlen1.
    - exact Hrun. }
  destruct (String.eqb selection "5").
  { intros [= <- <-]. by left. }
  unfold mbind at 1, Py_bind at 1, print at 1. intros Hrun.
  eapply IH; [| | |exact Hrun]; [by apply (ready_same_heap w1)|done..].
Qed.

(** X18: [main] ends in one of two ways, whatever is typed: option 5 was
    chosen at the menu, or the input ended and all of it has been read
    (EOFError).  No line that is typed makes a TypeError, a ValueError or
    an IndexError escape, and the menu never runs out of rounds. *)
Theorem main_ends_well w r w' :
  main w = (r, w') →
  r = inr true ∨ (r = inl EOFError ∧ stdin w' = []).
Proof.
  unfold main.
  destruct (new_pools_run w) as (l1 & l2 & l3 & w1 & Hnew & H1 & H2 & H3 & Hin).
  rewrite (bind_ok _ _ _ _ _ Hnew).
  unfold mbind at 1, Py_bind at 1, print at 1.
  rewrite (bind_ok _ _ _ _ _ (print_all_run welcome_box _)).
  cbn [heap stdin stdout rng].
  set (w2 := World (heap w1) (stdin w1) _ (rng w1)).
  assert (H1' : pool w2 l1 (characters digits)) by done.
  assert (H2' : pool w2 l2 (characters ascii_letters)) by done.
  assert (H3' : pool w2 l3 (characters punctuation)) by done.
  clearbody w2.
  intros [(e & Hfilter & ->)|(v & w3 & Hfilter & Hrun)]%bind_inv.
  { destruct (filter_console_outcome _ _ _ _ _ _ _ _ _ H1' H2' H3' Hfilter)
      as (_ & [[[= ->] Hin']|[[? [=]] _]]).
    by right. }
  destruct (filter_console_outcome _ _ _ _ _ _ _ _ _ H1' H2' H3' Hfilter)
    as (_ & [[[=] _]|[_ Hready]]).
  revert Hrun.
  intros [(e & Hkey & ->)|([key keyLength] & w4 & Hkey & Hrun)]%bind_inv.
  { destruct (keygen_console_outcome _ _ _ _ PyNone _ _ Hready eq_refl Hkey)
      as (_ & _ & [[[= ->] Hin']|(? & ? & [=] & _)]).
    by right. }
  destruct (keygen_console_outcome _ _ _ _ PyNone _ _ Hready eq_refl Hkey)
    as (Hheap & _ & [[[=] _]|(? & ? & [= <- <-] & Hint & _)]).
  unfold menu_loop in Hrun.
  eapply (menu_ends_well _ w4); [by eapply ready_same_heap| |
    |exact Hrun]; [by apply isinstance_int_accepted|lia].
Qed.


(** *** The loop that removes the empty pools *)

Lemma drop_empty_none characterSets : drop_empty 0 characterSets = characterSets.
Proof.
  induction characterSets as [|first others IH]; [done|].
  cbn [drop_empty]. rewrite IH. by destruct first.
Qed.

Lemma drop_empty_one_more n characterSets :
  drop_empty n (drop_empty 1 characterSets) = drop_empty (S n) characterSets.
Proof.
  induction characterSets as [|first others IH]; [done|].
  destruct first as [|c first]; cbn [drop_empty].
  - by rewrite drop_empty_none.
  - by rewrite IH.
Qed.

Lemma count_empty_drop characterSets :
  count_empty (drop_empty 1 characterSets) = pred (count_empty characterSets).
Proof.
  induction characterSets as [|first others IH]; [done|].
  destruct first as [|c first]; cbn [drop_empty count_empty].
  - by rewrite drop_empty_none.
  - exact IH.
Qed.

Lemma drop_empty_all characterSets :
  drop_empty (count_empty characterSets) characterSets = non_empty characterSets.
Proof.
  unfold non_empty. induction characterSets as [|first others IH]; [done|].
  destruct first as [|c first]; cbn [count_empty drop_empty].
  - rewrite IH. by rewrite filter_cons_False by (cbn; lia).
  - rewrite IH. by rewrite filter_cons_True by (cbn; lia).
Qed.

Lemma list_remove_empty characterSets w :
  (0 < count_empty characterSets)%nat →
  list_remove [] characterSets w = (inr (drop_empty 1 characterSets), w).
Proof.
  induction characterSets as [|first others IH]; cbn [count_empty]; [lia|].
  destruct first as [|c first]; intros Hcount; cbn [list_remove drop_empty].
  - by rewrite drop_empty_none.
  - destruct (decide (c :: first = [])) as [|_]; [done|].
    by rewrite (bind_ok _ _ _ _ _ (IH Hcount)).
Qed.

Lemma remove_empty_sets_loop copy w :
  ∀ characterSets,
    (count_empty copy ≤ count_empty characterSets)%nat →
    for_each (λ characterSets characterSet,
                if Nat.eqb (length characterSet) 0
                then list_remove characterSet characterSets
                else mret characterSets)
             characterSets copy w
    = (inr (drop_empty (count_empty copy) characterSets), w).
Proof.
  induction copy as [|characterSet copy IH]; intros characterSets Hcount.
  { cbn. by rewrite drop_empty_none. }
  cbn [for_each]. destruct characterSet as [|c characterSet];
    cbn [length Nat.eqb count_empty] in *.
  - rewrite (bind_ok _ _ _ _ _ (list_remove_empty characterSets w
                                  ltac:(lia))).
    rewrite IH by (rewrite count_empty_drop; lia).
    by rewrite drop_empty_one_more.
  - rewrite (bind_ok _ _ _ characterSets w) by done. by apply IH.
Qed.

(** X19: the loop that removes the empty pools keeps exactly the pools
    that are not empty, in their order, for any number of pools and also
    when some pools are equal lists; its [remove] always finds the list it
    looks for, so that it never raises, and it changes nothing else. *)
Theorem remove_empty_sets_keeps_non_empty characterSets w :
  remove_empty_sets characterSets w = (inr (non_empty characterSets), w).
Proof.
  unfold remove_empty_sets.
  rewrite remove_empty_sets_loop by done. by rewrite drop_empty_all.
Qed.


End Keygen.

(** ** The properties on concrete inputs *)

Ltac pool_holds := split; [vm_compute; reflexivity | repeat constructor].

(** The spec's example for the effective blacklist, as the code runs it:
    '9' is in no pool, and it is what comes back. *)
Example digits_blacklist_run :
  ∃ w',
    blacklistCharacters elements_order
      (PyList 0) (PyList 1) (PyList 2) (PyList 3) (PyBool false) digits_world
    = (inr (PyList 3), w') ∧
    heap w' !! 3 = Some [PyStr "9"].
Proof. eexists. split_and!; vm_compute; reflexivity. Qed.

(** C1, as stated, fails: with numbers = ['0','1'], no letters, no symbols
    and blacklist = ['9'], the returned list is not the list of the
    blacklisted characters that were in a pool (which would be empty). *)
Lemma effective_blacklist_counterexample :
  ¬ ∃ w' items,
      blacklistCharacters elements_order
        (PyList 0) (PyList 1) (PyList 2) (PyList 3) (PyBool false) digits_world
      = (inr (PyList 3), w') ∧
      heap w' !! 3 = Some (PyStr <$> items) ∧
      ∀ c, c ∈ items ↔ c ∈ ["9"] ∧ (c ∈ ["0"; "1"] ∨ c ∈ [] ∨ c ∈ ([] : list string)).
Proof.
  intros (w' & items & Hrun & Hitems & Hiff).
  destruct digits_blacklist_run as (w'' & Hrun' & H3).
  rewrite Hrun' in Hrun. injection Hrun as <-.
  rewrite H3 in Hitems.
  destruct items as [|c [|? ?]]; try discriminate.
  injection Hitems as <-.
  destruct (proj1 (Hiff "9")) as [_ Hpool]; [apply list_elem_of_here|].
  rewrite !elem_of_cons, !elem_of_nil in Hpool.
  destruct Hpool as [[|[|[]]]|[[]|[]]]; discriminate.
Qed.

Lemma returned_blacklist_is_unused_witness :
  ∃ w' items,
    blacklistCharacters elements_order
      (PyList 0) (PyList 1) (PyList 2) (PyList 3) (PyBool false) sample_world
    = (inr (PyList 3), w') ∧
    heap w' !! 3 = Some (PyStr <$> items) ∧
    (∀ c, c ∈ items → c ∈ ["0"; "a"; "9"]) ∧
    (∀ c, c ∈ items ↔
          c ∈ ["0"; "a"; "9"] ∧ (c ∉ ["0"; "1"]) ∧ (c ∉ ["a"; "b"]) ∧ (c ∉ ["!"])).
Proof.
  apply (returned_blacklist_is_unused elements_order);
    [intros; reflexivity | pool_holds..].
Defined.

Lemma pools_lose_blacklist_witness :
  ∃ r w',
    blacklistCharacters elements_order
      (PyList 0) (PyList 1) (PyList 2) (PyList 3) (PyBool false) sample_world
    = (inr r, w') ∧
    (∀ l items c, l ∈ [0; 1; 2] → heap w' !! l = Some items →
                  PyStr c ∈ items → c ∉ ["0"; "a"; "9"]) ∧
    survivors (heap w') 0 ["0"; "1"] ["0"; "a"; "9"] ∧
    survivors (heap w') 1 ["a"; "b"] ["0"; "a"; "9"] ∧
    survivors (heap w') 2 ["!"] ["0"; "a"; "9"].
Proof.
  apply (pools_lose_blacklist elements_order);
    [intros; reflexivity | pool_holds..].
Defined.

Lemma pools_updated_in_place_witness :
  (∀ lb B p,
     pool sample_world lb B →
     ∃ w',
       blacklistCharacters elements_order
         (PyList 0) (PyList 1) (PyList 2) (PyList lb) (PyBool p) sample_world
       = (inr (PyList lb), w') ∧
       survivors (heap w') 0 ["0"; "1"] B ∧
       survivors (heap w') 1 ["a"; "b"] B ∧
       survivors (heap w') 2 ["!"] B ∧
       dom (heap w') = dom (heap sample_world) ∧
       (∀ l, l ≠ 0 → l ≠ 1 → l ≠ 2 → l ≠ lb →
             heap w' !! l = heap sample_world !! l)) ∧
  (∀ r w',
     blacklistCharacters elements_order
       (PyList 0) (PyList 1) (PyList 2) PyNone (PyBool true) sample_world
     = (inr r, w') →
     ∃ lb B,
       r = PyList lb ∧ (lb ∉ dom (heap sample_world)) ∧
       survivors (heap w') 0 ["0"; "1"] B ∧
       survivors (heap w') 1 ["a"; "b"] B ∧
       survivors (heap w') 2 ["!"] B ∧
       dom (heap w') = {[lb]} ∪ dom (heap sample_world) ∧
       (∀ l, l ≠ 0 → l ≠ 1 → l ≠ 2 → l ≠ lb →
             heap w' !! l = heap sample_world !! l)).
Proof.
  apply (pools_updated_in_place elements_order);
    [intros; reflexivity | pool_holds..].
Defined.

(** A blacklist asked for at the console: the line '0a' blacklists two
    characters, and the pools at the list objects 0 and 1 lose them. *)
Example asked_blacklist_run :
  ∃ w',
    blacklistCharacters elements_order
      (PyList 0) (PyList 1) (PyList 2) PyNone (PyBool true)
      (World (heap sample_world) ["0a"] [] (λ k, k))
    = (inr (PyList 4), w') ∧
    heap w' !! 0 = Some [PyStr "1"] ∧
    heap w' !! 1 = Some [PyStr "b"] ∧
    heap w' !! 2 = Some [PyStr "!"] ∧
    heap w' !! 4 = Some [].
Proof. eexists. split_and!; vm_compute; reflexivity. Qed.

Lemma blacklist_overwritten_and_returned_witness :
  ∃ w',
    blacklistCharacters elements_order
      (PyList 0) (PyList 1) (PyList 2) (PyList 3) (PyBool false) sample_world
    = (inr (PyList 3), w') ∧
    heap w' !! 3
    = Some (PyStr <$> elements_order 3
              (list_to_set ["0"; "a"; "9"] ∖
                 (list_to_set ["0"; "1"] ∪ list_to_set ["a"; "b"]
                  ∪ list_to_set ["!"]))) ∧
    dom (heap w') = dom (heap sample_world).
Proof.
  apply (blacklist_overwritten_and_returned elements_order);
    [intros; reflexivity | pool_holds..].
Defined.

(** C2, as stated, fails at [keyLength = 0]: with numbers = ['0','1'] the
    call returns no key at all. *)
Lemma zero_keyLength_counterexample :
  ¬ ∃ key w',
      keygen no_integer
        (PyList 0) (PyList 1) (PyList 2) (PyInt 0) (PyBool false) digits_world
      = (inr (key, PyInt 0), w') ∧
      String.length key = 0.
Proof. intros (key & w' & Hrun & _). vm_compute in Hrun. discriminate. Qed.

Lemma key_has_requested_length_witness :
  ∃ key w',
    keygen no_integer
      (PyList 0) (PyList 1) (PyList 2) (PyInt 5) (PyBool false) sample_world
    = (inr (key, PyInt 5), w') ∧
    String.length key = Z.to_nat (int_value (PyInt 5)).
Proof.
  apply (key_has_requested_length no_integer sample_world 0 1 2
           ["0"; "1"] ["a"; "b"] ["!"]);
    [pool_holds.. | intros [? _]; discriminate | reflexivity | cbn; lia].
Defined.

(** C3, as stated, fails: with numbers a tuple and letters = ['ab'], two
    arguments break the rules, and the one error that both functions raise
    names numbers only. *)
Lemma mixed_violations_counterexample :
  let numbers := PyTuple [PyStr "a"] in
  let msg :=
    "Input argument(s): 'numbers' have incorrect type(s). Must be 'list'." in
  offending mixed_world
    [("numbers", numbers); ("letters", PyList 1); ("symbols", PyList 2);
     ("blacklist", PyList 3)]
  = ["numbers"; "letters"] ∧
  blacklistCharacters elements_order
    numbers (PyList 1) (PyList 2) (PyList 3) (PyBool false) mixed_world
  = (inl (TypeError msg), mixed_world) ∧
  keygen no_integer
    numbers (PyList 1) (PyList 2) (PyInt 5) (PyBool false) mixed_world
  = (inl (TypeError msg), mixed_world) ∧
  mentions msg "numbers" = true ∧
  mentions msg "letters" = false.
Proof. split_and!; vm_compute; reflexivity. Qed.

Lemma violations_of_one_kind_reported_together_witness :
  let numbers := PyTuple [PyStr "a"] in
  let letters := PyStr "xy" in
  let pools :=
    [("numbers", numbers); ("letters", letters); ("symbols", PyList 2)] in
  let arguments := (pools ++ [("blacklist", PyList 3)])%list in
  (wrong_type pools ≠ [] →
     blacklistCharacters elements_order
       numbers letters (PyList 2) (PyList 3) (PyBool false) mixed_world
     = (inl (TypeError (list_type_message (wrong_type pools))), mixed_world) ∧
     keygen no_integer
       numbers letters (PyList 2) PyNone (PyBool false) mixed_world
     = (inl (TypeError (list_type_message (wrong_type pools))), mixed_world)) ∧
  (wrong_type pools = [] →
     (wrong_characters mixed_world arguments ≠ [] →
        blacklistCharacters elements_order
          numbers letters (PyList 2) (PyList 3) (PyBool false) mixed_world
        = (inl (ValueError
                  (character_length_message
                     (wrong_characters mixed_world arguments))),
           mixed_world)) ∧
     (wrong_characters mixed_world pools ≠ [] →
        keygen no_integer
          numbers letters (PyList 2) PyNone (PyBool false) mixed_world
        = (inl (ValueError
                  (character_length_message
                     (wrong_characters mixed_world pools))),
           mixed_world))).
Proof.
  apply (violations_of_one_kind_reported_together elements_order no_integer
           (PyTuple [PyStr "a"]) (PyStr "xy") (PyList 2) (PyList 3) PyNone
           false mixed_world); reflexivity.
Defined.

(** Two pools of the wrong type are named in one message, and three
    arguments with a bad item are named in one message. *)
Example wrong_types_named_together :
  blacklistCharacters elements_order
    (PyTuple [PyStr "a"]) (PyStr "xy") (PyList 2) (PyList 3) (PyBool false)
    mixed_world
  = (inl (TypeError
            "Input argument(s): 'numbers', 'letters' have incorrect type(s). Must be 'list'."),
     mixed_world) ∧
  blacklistCharacters elements_order
    (PyList 0) (PyList 1) (PyList 1) (PyList 1) (PyBool false) mixed_world
  = (inl (ValueError
            "Input argument(s): 'letters', 'symbols', 'blacklist' contain strings greater than length 1. Must contain only single-character strings."),
     mixed_world).
Proof. split; vm_compute; reflexivity. Qed.

(** C4, as stated, fails for a missing key length: with three empty pools
    the call does not fail with a ValueError (it fails with a TypeError). *)
Lemma all_pools_empty_counterexample :
  ¬ ∃ msg w',
      keygen no_integer
        (PyList 0) (PyList 1) (PyList 2) PyNone (PyBool false) empty_world
      = (inl (ValueError msg), w').
Proof. intros (msg & w' & Hrun). vm_compute in Hrun. discriminate. Qed.

Lemma all_pools_empty_rejected_witness :
  (∀ keyLength,
     isinstance_int keyLength = true → (1 ≤ int_value keyLength)%Z →
     keygen no_integer
       (PyList 0) (PyList 1) (PyList 2) keyLength (PyBool false) empty_world
     = (inl (ValueError all_empty_message), empty_world)) ∧
  (∀ keyLength,
     isinstance_int keyLength = true → (int_value keyLength ≤ 0)%Z →
     keygen no_integer
       (PyList 0) (PyList 1) (PyList 2) keyLength (PyBool false) empty_world
     = (inl (ValueError keyLength_message), empty_world)) ∧
  keygen no_integer
    (PyList 0) (PyList 1) (PyList 2) PyNone (PyBool false) empty_world
  = (inl (TypeError missing_keyLength_message), empty_world).
Proof.
  apply (all_pools_empty_rejected no_integer empty_world 0 1 2); pool_holds.
Defined.

Lemma key_characters_from_pools_witness :
  (∀ c, c ∈ characters "1!b" → c ∈ ["0"; "1"] ∨ c ∈ ["a"; "b"] ∨ c ∈ ["!"]) ∧
  (["a"; "b"] = [] → ["!"] = [] → ∀ c, c ∈ characters "1!b" → c ∈ ["0"; "1"]) ∧
  (["0"; "1"] = [] → ["!"] = [] → ∀ c, c ∈ characters "1!b" → c ∈ ["a"; "b"]) ∧
  (["0"; "1"] = [] → ["a"; "b"] = [] → ∀ c, c ∈ characters "1!b" → c ∈ ["!"]).
Proof.
  apply (key_characters_from_pools no_integer sample_world 0 1 2
           ["0"; "1"] ["a"; "b"] ["!"] (PyInt 3) false "1!b" (PyInt 3)
           (World (heap sample_world) [] []
                  (λ k, S (S (S (S (S (S k))))))));
    [pool_holds.. | vm_compute; reflexivity].
Defined.

(** The spec's example: with numbers = ['0','1'] alone, a key of length 5
    is made of '0' and '1'. *)
Example digits_key :
  ∃ key w',
    keygen no_integer
      (PyList 0) (PyList 1) (PyList 2) (PyInt 5) (PyBool false) digits_world
    = (inr (key, PyInt 5), w') ∧
    String.length key = 5 ∧
    ∀ c, c ∈ characters key → c ∈ ["0"; "1"].
Proof.
  eexists _, _. split; [vm_compute; reflexivity|]. split; [reflexivity|].
  intros c Hc. cbn in Hc. rewrite !elem_of_cons in *. tauto.
Qed.

Lemma key_drawn_in_two_stages_witness :
  let N := ["0"; "1"] in
  let L := ["a"; "b"] in
  let S := ["!"] in
  (∀ keyLength,
     ¬ (N = [] ∧ L = [] ∧ S = []) →
     isinstance_int keyLength = true → (1 ≤ int_value keyLength)%Z →
     ∃ w',
       keygen no_integer
         (PyList 0) (PyList 1) (PyList 2) keyLength (PyBool false) sample_world
       = (inr (String.concat ""
                 (drawn (rng sample_world) (non_empty [N; L; S])
                    <$> seq 0 (Z.to_nat (int_value keyLength))),
               keyLength), w') ∧
       ∀ k, rng w' k
            = rng sample_world (2 * Z.to_nat (int_value keyLength) + k)) ∧
  (∀ keyLength p key keyLength' w',
     keygen no_integer
       (PyList 0) (PyList 1) (PyList 2) keyLength (PyBool p) sample_world
     = (inr (key, keyLength'), w') →
     key = String.concat ""
             (drawn (rng sample_world) (non_empty [N; L; S])
                <$> seq 0 (Z.to_nat (int_value keyLength')))) ∧
  (∀ key,
     generate (M:=distribution) 1 (non_empty [N; L; S]) key
     = flat_map
         (λ characterSet,
            (λ character,
               ((key ++ [character])%list,
                (one_in (length (non_empty [N; L; S]))
                 * one_in (length characterSet))%Qc))
              <$> characterSet)
         (non_empty [N; L; S])).
Proof.
  apply (key_drawn_in_two_stages no_integer sample_world 0 1 2); pool_holds.
Defined.

(** Two stages, not one draw over all the characters: with the pools
    ['0'] and ['a','b'] the character '0' has the weight 1/2, not 1/3. *)
Example weights_by_pool :
  generate (M:=distribution) 1 (non_empty [["0"]; ["a"; "b"]; []]) []
  = [(["0"], Q2Qc (1 # 2)); (["a"], Q2Qc (1 # 4)); (["b"], Q2Qc (1 # 4))].
Proof. vm_compute. reflexivity. Qed.


(** The errors that the two calls raise instead. *)
Example pools_checked_before_keyLength :
  keygen no_integer
    (PyList 0) (PyList 1) (PyList 2) PyNone (PyBool false) mixed_world
  = (inl (ValueError
            "Input argument(s): 'letters' contain strings greater than length 1. Must contain only single-character strings."),
     mixed_world) ∧
  keygen no_integer
    (PyTuple [PyStr "a"]) (PyList 1) (PyList 2) (PyInt 0) (PyBool false)
    mixed_world
  = (inl (TypeError
            "Input argument(s): 'numbers' have incorrect type(s). Must be 'list'."),
     mixed_world).
Proof. split; vm_compute; reflexivity. Qed.


(** ** The further properties on concrete inputs *)

Ltac lists_exist :=
  let l := fresh "l" in
  let Hl := fresh "Hl" in
  intros l Hl; rewrite !elem_of_cons, elem_of_nil in Hl;
  destruct Hl as [[= ->]|[[= ->]|[[= ->]|[]]]]; vm_compute; by eexists.

Lemma keygen_keeps_lists_witness :
  let run :=
    keygen no_integer
      (PyList 0) (PyList 1) (PyList 2) (PyInt 3) (PyBool false) sample_world in
  heap run.2 = heap sample_world.
Proof.
  intros run.
  apply (keygen_keeps_lists no_integer (PyList 0) (PyList 1) (PyList 2)
           (PyInt 3) (PyBool false) sample_world run.1 run.2).
  vm_compute. reflexivity.
Defined.

Lemma keygen_silent_witness :
  let run :=
    keygen no_integer
      (PyList 0) (PyList 1) (PyList 2) (PyInt 3) (PyBool false) sample_world in
  stdin run.2 = stdin sample_world ∧ stdout run.2 = stdout sample_world.
Proof.
  intros run.
  apply (keygen_silent no_integer (PyList 0) (PyList 1) (PyList 2)
           (PyInt 3) sample_world run.1 run.2).
  vm_compute. reflexivity.
Defined.

Lemma blacklistCharacters_keeps_generator_witness :
  let run :=
    blacklistCharacters elements_order
      (PyList 0) (PyList 1) (PyList 2) (PyList 3) (PyBool false) sample_world in
  rng run.2 = rng sample_world ∧
  (PyBool false = PyBool false →
   stdin run.2 = stdin sample_world ∧ stdout run.2 = stdout sample_world).
Proof.
  intros run.
  apply (blacklistCharacters_keeps_generator elements_order
           (PyList 0) (PyList 1) (PyList 2) (PyList 3) (PyBool false)
           sample_world run.1 run.2).
  vm_compute. reflexivity.
Defined.

Lemma returned_key_has_returned_length_witness :
  isinstance_int (PyInt 3) = true ∧
  (1 ≤ int_value (PyInt 3))%Z ∧
  String.length "1!b" = Z.to_nat (int_value (PyInt 3)) ∧
  (PyBool false = PyBool false → PyInt 3 = PyInt 3).
Proof.
  apply (returned_key_has_returned_length no_integer
           (PyList 0) (PyList 1) (PyList 2) (PyInt 3) (PyBool false)
           sample_world "1!b" (PyInt 3)
           (World (heap sample_world) [] []
                  (λ k, S (S (S (S (S (S k)))))))).
  - lists_exist.
  - vm_compute. reflexivity.
Defined.

Lemma failed_keygen_changes_nothing_witness :
  (keygen no_integer
     (PyList 0) (PyList 1) (PyList 2) (PyInt 0) (PyBool false) sample_world).2
  = sample_world.
Proof.
  apply (failed_keygen_changes_nothing no_integer
           (PyList 0) (PyList 1) (PyList 2) (PyInt 0) sample_world
           (ValueError keyLength_message)).
  - lists_exist.
  - vm_compute. reflexivity.
Defined.

Lemma failed_filter_changes_nothing_witness :
  (blacklistCharacters elements_order
     (PyTuple [PyStr "a"]) (PyList 1) (PyList 2) (PyList 3) (PyBool false)
     mixed_world).2
  = mixed_world.
Proof.
  apply (failed_filter_changes_nothing elements_order
           (PyTuple [PyStr "a"]) (PyList 1) (PyList 2) (PyList 3) mixed_world
           (TypeError (list_type_message ["numbers"]))).
  vm_compute. reflexivity.
Defined.

Lemma keygen_asks_until_positive_witness :
  ∃ key w',
    keygen read_digit
      (PyList 0) (PyList 1) (PyList 2) PyNone (PyBool true)
      (console_world ["x"; "0"; "3"; "later"])
    = (inr (key, PyInt 3), w') ∧
    String.length key = Z.to_nat 3 ∧
    stdin w' = ["later"] ∧
    stdout w'
    = (stdout (console_world ["x"; "0"; "3"; "later"])
       ++ asked_again (length ["x"; "0"])
       ++ [length_prompt; password_message key])%list.
Proof.
  apply (keygen_asks_until_positive read_digit
           (console_world ["x"; "0"; "3"; "later"]) 0 1 2
           ["0"; "1"] ["a"; "b"] ["!"] PyNone ["x"; "0"] "3" 3 ["later"]).
  - pool_holds.
  - pool_holds.
  - pool_holds.
  - intros [? _]; discriminate.
  - by left.
  - reflexivity.
  - repeat constructor; vm_compute; discriminate.
  - reflexivity.
  - lia.
Defined.

Lemma keygen_keeps_positive_keyLength_witness :
  ∃ key w',
    keygen read_digit
      (PyList 0) (PyList 1) (PyList 2) (PyInt 3) (PyBool true)
      (console_world ["later"])
    = (inr (key, PyInt 3), w') ∧
    stdin w' = stdin (console_world ["later"]) ∧
    stdout w'
    = (stdout (console_world ["later"]) ++ [password_message key])%list.
Proof.
  apply (keygen_keeps_positive_keyLength read_digit
           (console_world ["later"]) 0 1 2 ["0"; "1"] ["a"; "b"] ["!"]);
    [pool_holds.. | intros [? _]; discriminate | reflexivity | cbn; lia].
Defined.

Lemma keygen_console_fails_at_end_of_input_witness :
  let run :=
    keygen read_digit
      (PyList 0) (PyList 1) (PyList 2) PyNone (PyBool true)
      (console_world ["x"]) in
  EOFError = EOFError ∧ stdin run.2 = [].
Proof.
  intros run.
  apply (keygen_console_fails_at_end_of_input read_digit
           (console_world ["x"]) 0 1 2 ["0"; "1"] ["a"; "b"] ["!"] PyNone
           EOFError run.2);
    [pool_holds.. | intros [? _]; discriminate | reflexivity
     | vm_compute; reflexivity].
Defined.

Ltac in_list := rewrite ?elem_of_cons, ?elem_of_nil; auto 10.

Lemma filter_asks_until_usable_witness :
  let w := console_world ["!ba10"; "0a"; "later"] in
  ∃ lb w',
    blacklistCharacters elements_order
      (PyList 0) (PyList 1) (PyList 2) PyNone (PyBool true) w
    = (inr (PyList lb), w') ∧
    (lb ∉ dom (heap w)) ∧
    survivors (heap w') 0 ["0"; "1"] (characters "0a") ∧
    survivors (heap w') 1 ["a"; "b"] (characters "0a") ∧
    survivors (heap w') 2 ["!"] (characters "0a") ∧
    stdin w' = ["later"] ∧
    ∃ unused,
      stdout w'
      = (stdout w ++ told_again (length ["!ba10"])
         ++ blacklist_prompt :: unused)%list
      ∧ (length unused ≤ 1)%nat.
Proof.
  apply (filter_asks_until_usable elements_order (λ k s, reflexivity _)
           (console_world ["!ba10"; "0a"; "later"]) 0 1 2
           ["0"; "1"] ["a"; "b"] ["!"] ["!ba10"] "0a" ["later"]).
  - pool_holds.
  - pool_holds.
  - pool_holds.
  - reflexivity.
  - apply Forall_singleton. intros c. vm_compute characters. in_list.
    intros [[->|[->|[]]]|[[->|[->|[]]]|[->|[]]]]; auto 10.
  - intros Hall. specialize (Hall "1"). vm_compute characters in Hall.
    rewrite !elem_of_cons, !elem_of_nil in Hall.
    destruct Hall as [[=]|[[=]|[]]]. auto.
Defined.

Lemma filter_leaves_a_character_witness :
  let w := console_world ["0a"] in
  let run :=
    blacklistCharacters elements_order
      (PyList 0) (PyList 1) (PyList 2) PyNone (PyBool true) w in
  ∃ N' L' S',
    pool run.2 0 N' ∧ pool run.2 1 L' ∧ pool run.2 2 S' ∧
    ¬ (N' = [] ∧ L' = [] ∧ S' = []).
Proof.
  intros w run.
  apply (filter_leaves_a_character elements_order (λ k s, reflexivity _)
           w 0 1 2 ["0"; "1"] ["a"; "b"] ["!"] (PyList 4) run.2);
    [pool_holds.. | vm_compute; reflexivity].
Defined.

Lemma filter_never_returns_without_usable_witness :
  let w := World (heap empty_world) ["abc"; ""] [] (λ k, k) in
  ∃ w',
    blacklistCharacters elements_order
      (PyList 0) (PyList 1) (PyList 2) PyNone (PyBool true) w
    = (inl EOFError, w') ∧
    stdin w' = [] ∧ heap w' = heap w.
Proof.
  apply (filter_never_returns_without_usable elements_order
           (World (heap empty_world) ["abc"; ""] [] (λ k, k)) 0 1 2
           [] [] []);
    [pool_holds.. |].
  apply Forall_forall. intros line _ c [Hc|[Hc|Hc]];
    by apply elem_of_nil in Hc.
Defined.

Lemma key_avoids_blacklist_witness :
  Forall (λ c, (c ∉ ["0"; "a"; "9"]) ∧
               (c ∈ ["0"; "1"] ∨ c ∈ ["a"; "b"] ∨ c ∈ ["!"]))
         (characters "1!b").
Proof.
  apply Forall_forall.
  set (filtered :=
    blacklistCharacters elements_order
      (PyList 0) (PyList 1) (PyList 2) (PyList 3) (PyBool false) sample_world).
  set (run :=
    keygen no_integer
      (PyList 0) (PyList 1) (PyList 2) (PyInt 3) (PyBool false) filtered.2).
  apply (key_avoids_blacklist elements_order (λ k s, reflexivity _) no_integer
           sample_world 0 1 2 3 ["0"; "1"] ["a"; "b"] ["!"] ["0"; "a"; "9"]
           false (PyList 3) filtered.2 (PyInt 3) false "1!b" (PyInt 3) run.2);
    [pool_holds.. | vm_compute; reflexivity | vm_compute; reflexivity].
Defined.

Lemma filter_twice_is_filter_once_witness :
  ∃ w1 w2,
    blacklistCharacters elements_order
      (PyList 0) (PyList 1) (PyList 2) (PyList 3) (PyBool false) sample_world
    = (inr (PyList 3), w1) ∧
    blacklistCharacters elements_order
      (PyList 0) (PyList 1) (PyList 2) (PyList 3) (PyBool false) w1
    = (inr (PyList 3), w2) ∧
    ∀ l, l ∈ [0; 1; 2; 3] →
         ∃ items1 items2,
           heap w1 !! l = Some items1 ∧ heap w2 !! l = Some items2 ∧
           items1 ≡ₚ items2.
Proof.
  apply (filter_twice_is_filter_once elements_order (λ k s, reflexivity _)
           sample_world 0 1 2 3 ["0"; "1"] ["a"; "b"] ["!"] ["0"; "a"; "9"]);
    pool_holds.
Defined.

Lemma supplied_blacklist_can_empty_pools_witness :
  ∃ w1,
    blacklistCharacters elements_order
      (PyList 0) (PyList 1) (PyList 2) (PyList 3) (PyBool false) covered_world
    = (inr (PyList 3), w1) ∧
    heap w1 !! 0 = Some [] ∧ heap w1 !! 1 = Some [] ∧
    heap w1 !! 2 = Some [] ∧
    ∀ keyLength,
      isinstance_int keyLength = true → (1 ≤ int_value keyLength)%Z →
      keygen no_integer
        (PyList 0) (PyList 1) (PyList 2) keyLength (PyBool false) w1
      = (inl (ValueError all_empty_message), w1).
Proof.
  apply (supplied_blacklist_can_empty_pools elements_order
           (λ k s, reflexivity _) no_integer covered_world 0 1 2 3
           ["0"; "1"] ["a"] [] ["a"; "1"; "0"; "z"]);
    [pool_holds.. |].
  intros c. in_list.
  intros [[->|[->|[]]]|[[->|[]]|[]]]; auto 10.
Defined.

Lemma keygen_pool_not_iterable_witness :
  keygen no_integer
    (PyTuple [PyStr "ab"]) PyNone (PyList 2) (PyInt 3) (PyBool false)
    mixed_world
  = (inl (TypeError (not_iterable_message PyNone)), mixed_world).
Proof.
  apply (keygen_pool_not_iterable no_integer
           (PyTuple [PyStr "ab"]) PyNone (PyList 2) (PyInt 3) false
           mixed_world [("numbers", PyTuple [PyStr "ab"])] "letters" PyNone
           [("symbols", PyList 2)]);
    [reflexivity | reflexivity | by repeat constructor | reflexivity].
Defined.

Lemma filter_reports_missing_pools_witness :
  blacklistCharacters elements_order
    PyNone (PyTuple []) (PyList 2) (PyList 3) (PyBool false) mixed_world
  = (inl (TypeError
            (list_type_message
               (wrong_type [("numbers", PyNone); ("letters", PyTuple []);
                            ("symbols", PyList 2)]))), mixed_world).
Proof.
  apply (filter_reports_missing_pools elements_order
           PyNone (PyTuple []) (PyList 2) (PyList 3) false mixed_world);
    [by right | by left | by left | by left | reflexivity].
Defined.

(** A missing pool and a tuple are named together by the filter. *)
Example missing_pool_named :
  blacklistCharacters elements_order
    PyNone (PyTuple []) (PyList 2) (PyList 3) (PyBool false) mixed_world
  = (inl (TypeError
            "Input argument(s): 'numbers', 'letters' have incorrect type(s). Must be 'list'."),
     mixed_world).
Proof. vm_compute. reflexivity. Qed.

Lemma main_ends_well_witness :
  let run :=
    main elements_order read_digit ["welcome"]
         (World ∅ ["0a"; "3"; "5"] [] (λ k, k)) in
  run.1 = inr true ∨ (run.1 = inl EOFError ∧ stdin run.2 = []).
Proof.
  intros run.
  apply (main_ends_well elements_order (λ k s, reflexivity _) read_digit
           ["welcome"] (World ∅ ["0a"; "3"; "5"] [] (λ k, k)) run.1 run.2).
  vm_compute. reflexivity.
Defined.

(** A session: the blacklist '0a', the length 3, then option 5. *)
Example main_session :
  let run :=
    main elements_order read_digit ["welcome"]
         (World ∅ ["0a"; "3"; "5"] [] (λ k, k)) in
  run.1 = inr true ∧ stdin run.2 = [].
Proof. split; vm_compute; reflexivity. Qed.
